(** * json-extract-rules: the rule execution engine

    A shallow embedding of the runtime of the Node-RED node
    [json-extract-rules] (file json-extract-rules.js) and the properties
    of its rule pipeline: select, filter, map, aggregate, output, empty
    handling and the run summary.

    Layout:
    - [JS]       : JavaScript values and the language operations the
                   engine relies on (String(), Number(), truthiness,
                   own property keys, property assignment and the
                   prototype link it can re-target);
    - [Engine]   : the helpers and the input handler of the node, over an
                   abstract host (Node-RED utilities, context stores and
                   the JSONata evaluator);
    - [Sample]   : a small executable host used for closed examples;
    - theorems. *)

From Stdlib Require Import String Ascii List Bool Arith Lia.
From Stdlib Require Import Floats.SpecFloat.
From stdpp Require Import base list gmap.

Import ListNotations.
Open Scope string_scope.
Open Scope list_scope.

Set Default Proof Using "Type".
Set Warnings "-register-all".

(* ===================================================================== *)
(** * JavaScript values *)
(* ===================================================================== *)

Module JS.

(** A JavaScript number is an IEEE 754 binary64 datum; [spec_float] is the
    Standard Library's inductive description of such data (signed zeros,
    infinities, NaN, finite sign/mantissa/exponent). *)
Definition number := spec_float.

(** JSON-shaped values as they live in a message.  An object is the list
    of its own enumerable string-keyed properties in [Object.keys]
    order.  [VObj] is an object whose prototype is [Object.prototype],
    which is what [JSON.parse] and an object literal give.  [VObjP p ps]
    is an object whose prototype link was re-targeted to [p] ([null] or
    an object) by an assignment to [__proto__]; the engine builds such
    objects when a record or a map is assigned under that key. *)
Inductive value :=
| VUndefined
| VNull
| VBool (b : bool)
| VNum (n : number)
| VStr (s : string)
| VArr (items : list value)
| VObj (props : list (string * value))
| VObjP (proto : value) (props : list (string * value)).

Definition props := list (string * value).

(** A thrown value, as far as the engine looks at it: [e.message]. *)
Record exn := Exn { message : string }.

(** Outcome of a call that may throw (or of an awaited promise that may
    reject). *)
Inductive completion (A : Type) :=
| Return (a : A)
| Throw (e : exn).
Arguments Return {A} a.
Arguments Throw {A} e.

Definition bind {A B} (c : completion A) (k : A -> completion B) : completion B :=
  match c with
  | Return a => k a
  | Throw e => Throw e
  end.

Definition throws {A} (c : completion A) : bool :=
  match c with Throw _ => true | Return _ => false end.

(** The language built-ins whose algorithms are not part of the
    repository.  Strings are code-unit sequences; the case mappings,
    [trim], the number/string conversions and [JSON.parse] are those of
    the JavaScript engine running the node.  [array_like_string] is
    [Array.prototype.toString] applied to an object that is not an array
    but inherits from one (its generic [join] over the inherited
    [length]). *)
Record Builtins := {
  str_trim : string -> string;            (* String.prototype.trim *)
  str_lower : string -> string;           (* String.prototype.toLowerCase *)
  str_upper : string -> string;           (* String.prototype.toUpperCase *)
  num_to_string : number -> string;       (* Number::toString(x, 10) *)
  str_to_num : string -> number;          (* StringToNumber *)
  json_parse : string -> option value;    (* JSON.parse, None = SyntaxError *)
  array_like_string : value -> completion string
}.

(** [v == null] *)
Definition nullish (v : value) : bool :=
  match v with
  | VUndefined | VNull => true
  | _ => false
  end.

(** [a ?? b] *)
Definition coalesce (a b : value) : value :=
  if nullish a then b else a.

Definition num_is_nan (n : number) : bool :=
  match n with S754_nan => true | _ => false end.

Definition num_is_zero (n : number) : bool :=
  match n with S754_zero _ => true | _ => false end.

(** [Number.isFinite] on a number *)
Definition num_is_finite (n : number) : bool :=
  match n with
  | S754_zero _ | S754_finite _ _ _ => true
  | S754_infinity _ | S754_nan => false
  end.

(** ToBoolean *)
Definition truthy (v : value) : bool :=
  match v with
  | VUndefined | VNull => false
  | VBool b => b
  | VNum n => negb (num_is_zero n || num_is_nan n)
  | VStr s => negb (String.eqb s "")
  | VArr _ | VObj _ | VObjP _ _ => true
  end.

(** [a || b] *)
Definition or_else (a b : value) : value :=
  if truthy a then a else b.

(** The numbers [0], [1] and the number of a length or index (array
    lengths are below 2^32, hence exactly representable). *)
Definition num_zero : number := S754_zero false.
Definition num_one : number := S754_finite false 1 0.
Definition num_of_nat (n : nat) : number :=
  match n with
  | O => num_zero
  | S k => S754_finite false (Pos.of_succ_nat k) 0
  end.

(** [v === 0] *)
Definition is_zero_number (v : value) : bool :=
  match v with
  | VNum n => num_is_zero n
  | _ => false
  end.

(** [v === s] for a string literal [s] *)
Definition is_str (v : value) (s : string) : bool :=
  match v with
  | VStr t => String.eqb t s
  | _ => false
  end.

Definition is_array (v : value) : bool :=
  match v with VArr _ => true | _ => false end.

(** [isObj] of the source, inlined here because it is pure JavaScript:
    [v && typeof v === "object" && !Array.isArray(v)]. *)
Definition isObj (v : value) : bool :=
  match v with VObj _ | VObjP _ _ => true | _ => false end.

Fixpoint join (sep : string) (l : list string) : string :=
  match l with
  | [] => ""
  | [s] => s
  | s :: rest => s ++ sep ++ join sep rest
  end.

(** ** Own properties of an object *)

Fixpoint lookup_prop (k : string) (ps : props) : option value :=
  match ps with
  | [] => None
  | (k', v) :: rest => if String.eqb k k' then Some v else lookup_prop k rest
  end.

Definition has_prop (k : string) (ps : props) : bool :=
  match lookup_prop k ps with Some _ => true | None => false end.

(** [o[k]] for an own key, [undefined] when absent. *)
Definition get_prop (k : string) (ps : props) : value :=
  match lookup_prop k ps with Some v => v | None => VUndefined end.

Fixpoint replace_prop (k : string) (v : value) (ps : props) : props :=
  match ps with
  | [] => []
  | (k', v') :: rest =>
      if String.eqb k k' then (k', v) :: rest
      else (k', v') :: replace_prop k v rest
  end.

(** Array indices: canonical decimal numerals of 0 .. 2^32 - 2.  They
    come first, in ascending numeric order, in an object's key order. *)
Definition digit_of (c : ascii) : option N :=
  let n := N_of_ascii c in
  if (N.leb 48 n && N.leb n 57)%bool then Some (n - 48)%N else None.

Fixpoint digits_value (acc : N) (l : list ascii) : option N :=
  match l with
  | [] => Some acc
  | c :: rest =>
      match digit_of c with
      | Some d => digits_value (acc * 10 + d)%N rest
      | None => None
      end
  end.

Definition array_index (k : string) : option N :=
  match list_ascii_of_string k with
  | [] => None
  | c :: rest =>
      if (Ascii.eqb c "0" && negb (Nat.eqb (length rest) 0))%bool then None
      else if Nat.ltb 10 (length (c :: rest)) then None
      else
        match digits_value 0 (c :: rest) with
        | Some n => if N.ltb n 4294967295 then Some n else None
        | None => None
        end
  end.

(** Position of a new index key [n]: before the first property that is
    not an index or is a greater index. *)
Fixpoint insert_index (n : N) (k : string) (v : value) (ps : props) : props :=
  match ps with
  | [] => [(k, v)]
  | (k', v') :: rest =>
      match array_index k' with
      | Some n' =>
          if N.ltb n n' then (k, v) :: ps
          else (k', v') :: insert_index n k v rest
      | None => (k, v) :: ps
      end
  end.

(** CreateDataProperty on an ordinary object: an existing key keeps its
    place, a new one is added in key order. *)
Definition obj_define (k : string) (v : value) (ps : props) : props :=
  if has_prop k ps then replace_prop k v ps
  else
    match array_index k with
    | Some n => insert_index n k v ps
    | None => ps ++ [(k, v)]
    end.

(** ** The prototype chain *)

(** An array's own property keys: its indices and [length]. *)
Definition array_has_own (k : string) (items : list value) : bool :=
  match array_index k with
  | Some n => N.ltb n (N.of_nat (length items))
  | None => String.eqb k "length"
  end.

(** Where the search for a property [k] ends, starting at the object [o]
    and following prototype links: at an own data property of an object
    of the chain, else at the built-in prototype that the chain reaches
    ([Array.prototype], whose own prototype is [Object.prototype], or
    [Object.prototype]), else at [null]. *)
Inductive chainEnd :=
| OnData
| AtArrayPrototype
| AtObjectPrototype
| AtNull.

Fixpoint chainLookup (k : string) (o : value) : chainEnd :=
  match o with
  | VObj ps => if has_prop k ps then OnData else AtObjectPrototype
  | VObjP p ps => if has_prop k ps then OnData else chainLookup k p
  | VArr items => if array_has_own k items then OnData else AtArrayPrototype
  | _ => AtNull
  end.

(** The values that the setter of [__proto__] accepts as a prototype:
    an object or [null]. *)
Definition object_or_null (v : value) : bool :=
  match v with
  | VNull | VArr _ | VObj _ | VObjP _ _ => true
  | _ => false
  end.

(** An object under construction: its prototype link and its own
    properties.  [{}] is [emptyObject]. *)
Inductive link :=
| ObjectPrototype
| Linked (p : value).

Record object := Obj { proto : link; own : props }.

Definition emptyObject : object := Obj ObjectPrototype [].

Definition toValue (o : object) : value :=
  match proto o with
  | ObjectPrototype => VObj (own o)
  | Linked p => VObjP p (own o)
  end.

(** Does an assignment to [__proto__] on an object with this link and no
    own property of that name reach the accessor that [Object.prototype]
    defines?  It does not when an object of the chain has an own data
    property [__proto__] (as [JSON.parse] creates) or when the chain
    ends in [null]. *)
Definition reaches_proto_accessor (l : link) : bool :=
  match l with
  | ObjectPrototype => true
  | Linked p =>
      match chainLookup "__proto__" p with
      | AtArrayPrototype | AtObjectPrototype => true
      | OnData | AtNull => false
      end
  end.

(** The assignment [o[k] = v].  Every property that a JSON-shaped chain
    can hold is a writable data property, so the assignment creates or
    updates an own property of [o], with one exception: the key
    [__proto__], when [o] has no own property of that name and the
    chain reaches the accessor of [Object.prototype].  The setter then
    re-targets the prototype link of [o] when [v] is an object or
    [null], does nothing otherwise, and creates no own property. *)
Definition obj_set (k : string) (v : value) (o : object) : object :=
  if (String.eqb k "__proto__" && negb (has_prop k (own o))
      && reaches_proto_accessor (proto o))%bool
  then if object_or_null v then Obj (Linked v) (own o) else o
  else Obj (proto o) (obj_define k v (own o)).

Section WithBuiltins.
Variable B : Builtins.

Definition cannot_convert : exn := Exn "Cannot convert object to primitive value".

(** [String(v)] (also what a template literal applies).  An array prints
    its elements joined by commas, [null] and [undefined] elements as the
    empty string.  An object is converted by the [toString] it inherits:
    that of [Object.prototype] prints [[object Object]]; when the search
    finds a data property instead (a JSON value is never callable) or
    nothing, [valueOf] gives no primitive either and the conversion
    throws a TypeError. *)
Fixpoint ToString (v : value) : completion string :=
  match v with
  | VUndefined => Return "undefined"
  | VNull => Return "null"
  | VBool true => Return "true"
  | VBool false => Return "false"
  | VNum n => Return (num_to_string B n)
  | VStr s => Return s
  | VArr items =>
      bind
        ((fix elems (l : list value) : completion (list string) :=
            match l with
            | [] => Return []
            | x :: rest =>
                bind (match x with
                      | VUndefined | VNull => Return ""
                      | _ => ToString x
                      end)
                  (fun s => bind (elems rest) (fun ss => Return (s :: ss)))
            end) items)
        (fun ss => Return (join "," ss))
  | VObj ps =>
      if has_prop "toString" ps then Throw cannot_convert
      else Return "[object Object]"
  | VObjP p ps =>
      match chainLookup "toString" (VObjP p ps) with
      | AtObjectPrototype => Return "[object Object]"
      | AtArrayPrototype => array_like_string B (VObjP p ps)
      | OnData | AtNull => Throw cannot_convert
      end
  end.

(** [Number(v)]: an object or an array is first converted to a
    primitive, which is its string form (no [valueOf] on the chain
    yields a primitive). *)
Definition ToNumber (v : value) : completion number :=
  match v with
  | VUndefined => Return S754_nan
  | VNull => Return num_zero
  | VBool true => Return num_one
  | VBool false => Return num_zero
  | VNum n => Return n
  | VStr s => Return (str_to_num B s)
  | VArr _ | VObj _ | VObjP _ _ =>
      bind (ToString v) (fun s => Return (str_to_num B s))
  end.

(** Index keys ["0"], ["1"], ... of an array or of a string. *)
Definition index_key (i : nat) : string := num_to_string B (num_of_nat i).

Fixpoint indexed {A} (f : A -> value) (i : nat) (l : list A) : props :=
  match l with
  | [] => []
  | x :: rest => (index_key i, f x) :: indexed f (S i) rest
  end.

Definition chars (s : string) : list ascii := list_ascii_of_string s.

(** The own enumerable string-keyed properties of a value, after
    ToObject, in [Object.keys] order. *)
Definition ownProps (v : value) : props :=
  match v with
  | VObj ps | VObjP _ ps => ps
  | VArr items => indexed (fun x => x) 0 items
  | VStr s => indexed (fun c => VStr (String c EmptyString)) 0 (chars s)
  | _ => []
  end.

(** [Object.keys(v)]: a TypeError on [null] and [undefined]. *)
Definition objectKeys (v : value) : completion (list string) :=
  if nullish v
  then Throw (Exn "Cannot convert undefined or null to object")
  else Return (map fst (ownProps v)).

End WithBuiltins.

(** A JavaScript [Set] of strings: insertion-ordered, no duplicates. *)
Definition set_has (s : string) (l : list string) : bool :=
  existsb (String.eqb s) l.

Definition set_add (s : string) (l : list string) : list string :=
  if set_has s l then l else l ++ [s].

End JS.

(* ===================================================================== *)
(** * The engine *)
(* ===================================================================== *)

Module Engine.
Import JS.

(** ** Configuration (the shapes read by the input handler) *)

(** The fields that the configuration holds as text (the name of a rule,
    the key of a map field, the NA tokens) are strings here, absent when
    [None]; the fields that the handler coerces or only compares
    ([src], [when], the types, the modes, the paths) are arbitrary
    values. *)

(** One entry of [rule.map]. *)
Record MapField := {
  m_key : option string;
  m_srcType : value;
  m_src : value;
  m_when : value;
  m_whenType : value;
  m_transform : value
}.

(** [rule.aggregate]; an absent aggregate reads as all fields undefined,
    which the handler treats like [{ mode: "array" }]. *)
Record AggregateSpec := {
  a_mode : value;
  a_keyExpr : value;
  a_keyExprType : value;
  a_valueExpr : value;
  a_valueExprType : value
}.

(** [rule.output]; an absent output reads as both fields undefined. *)
Record OutputSpec := {
  o_type : value;
  o_path : value
}.

(** One rule.  [r_map] is [Array.isArray(rule.map) ? rule.map : []]. *)
Record Rule := {
  r_name : option string;
  r_selectType : value;
  r_select : value;
  r_filterType : value;
  r_filter : value;
  r_map : list MapField;
  r_aggregate : AggregateSpec;
  r_output : OutputSpec;
  r_onEmpty : value;
  r_onError : value
}.

Record SourceSpec := {
  s_type : value;
  s_path : value
}.

(** [naPolicy.values]: [None] when unset (falsy). *)
Record NAPolicy := {
  na_enabled : value;
  na_values : option (list string)
}.

Record RuleSet := {
  source : option SourceSpec;
  naPolicy : option NAPolicy;
  rules : list Rule
}.

(** ** Run context and host *)

(** What a run mutates: the host stores (the message, the flow and the
    global context) and the two arrays [meta.warnings], [meta.errors]
    that the handler holds by reference.  Output paths are taken not to
    point inside these two arrays. *)
Record Ctx (W : Type) := {
  stores : W;
  warnings : list string;
  errors : list string
}.
Arguments stores {W} c.
Arguments warnings {W} c.
Arguments errors {W} c.

(** The collaborators of the engine: [RED.util], [node.context()],
    [process.env] and the JSONata evaluator.  Each may read the whole
    current context; each may throw.

    [liveValue c0 v c] is what the value read as [v] in the context [c0]
    has become in the later context [c].  JavaScript hands objects and
    arrays over by reference: the root that the handler resolves once is
    the message itself, or a part of the message or of a context store,
    and the output writes of earlier rules show through it. *)
Record Host (W : Type) := {
  JExpr : Type;
  msgValue : Ctx W -> value;
  getMessageProperty : Ctx W -> value -> completion value;
  setMessageProperty : Ctx W -> value -> value -> completion W;
  flowGet : Ctx W -> value -> completion value;
  flowSet : Ctx W -> value -> value -> completion W;
  globalGet : Ctx W -> value -> completion value;
  globalSet : Ctx W -> value -> value -> completion W;
  envGet : string -> value;
  utilGetObjectProperty : Ctx W -> value -> value -> completion value;
  prepareJSONataExpression : Ctx W -> string -> completion JExpr;
  evaluateJSONataExpression : Ctx W -> JExpr -> value -> completion value;
  liveValue : Ctx W -> value -> Ctx W -> value
}.
Arguments JExpr {W} h.
Arguments msgValue {W} h.
Arguments getMessageProperty {W} h.
Arguments setMessageProperty {W} h.
Arguments flowGet {W} h.
Arguments flowSet {W} h.
Arguments globalGet {W} h.
Arguments globalSet {W} h.
Arguments envGet {W} h.
Arguments utilGetObjectProperty {W} h.
Arguments prepareJSONataExpression {W} h.
Arguments evaluateJSONataExpression {W} h.
Arguments liveValue {W} h.

Section WithHost.
Context {W : Type}.
Variable B : Builtins.
Variable H : Host W.

Local Abbreviation Ctx := (Ctx W).

Definition pushWarning (c : Ctx) (s : string) : Ctx :=
  {| stores := stores c; warnings := warnings c ++ [s]; errors := errors c |}.

Definition pushError (c : Ctx) (s : string) : Ctx :=
  {| stores := stores c; warnings := warnings c; errors := errors c ++ [s] |}.

Definition withStores (c : Ctx) (w : W) : Ctx :=
  {| stores := w; warnings := warnings c; errors := errors c |}.

(** *** JSON / JSONata helpers *)

(** The predicate that [mkNASet] returns: it throws where [String(v)]
    does. *)
Definition mkNASet (values : option (list string)) : value -> completion bool :=
  let set :=
    fold_left (fun acc s => set_add s acc)
      (map (fun s => str_lower B s)
           (match values with Some l => l | None => [] end))
      [] in
  fun v =>
    if nullish v then Return true
    else
      bind (ToString B v) (fun s0 =>
        let s := str_trim B s0 in
        if String.eqb s "" then Return true
        else Return (set_has (str_lower B s) set)).

Definition normalizeNA (v : value) (isNA : value -> completion bool)
  : completion value :=
  bind (isNA v) (fun na => if na then Return VNull else Return v).

Definition applyTransform (name : value) (v : value) : completion value :=
  if is_str name "trim" then
    if nullish v then Return v
    else bind (ToString B v) (fun s => Return (VStr (str_trim B s)))
  else if is_str name "lower" then
    if nullish v then Return v
    else bind (ToString B v) (fun s => Return (VStr (str_lower B s)))
  else if is_str name "upper" then
    if nullish v then Return v
    else bind (ToString B v) (fun s => Return (VStr (str_upper B s)))
  else if is_str name "number" then
    if nullish v then Return VNull
    else
      bind (ToString B v) (fun s =>
        if String.eqb (str_trim B s) "" then Return VNull
        else
          bind (ToNumber B v) (fun n =>
            Return (if num_is_finite n then VNum n else VNull)))
  else if is_str name "bool01" then
    Return (if truthy v then VNum num_one else VNum num_zero)
  else if is_str name "string" then
    if nullish v then Return (VStr "")
    else bind (ToString B v) (fun s => Return (VStr s))
  else Return v.

Definition getObjectProperty (c : Ctx) (obj prop : value) : value :=
  match utilGetObjectProperty H c obj prop with
  | Return v => v
  | Throw _ => VUndefined
  end.

Definition setTypedTarget (c : Ctx) (type path v : value) : completion W :=
  if negb (truthy path) then Return (stores c)
  else if is_str type "flow" then flowSet H c path v
  else if is_str type "global" then globalSet H c path v
  else setMessageProperty H c path v.

Definition jsonataEval (c : Ctx) (expr data : value) : completion value :=
  if (nullish expr || is_str expr "")%bool then Return VUndefined
  else
    bind (ToString B expr) (fun text =>
      bind (prepareJSONataExpression H c text) (fun compiled =>
        evaluateJSONataExpression H c compiled data)).

(** [{ ...rowCtx, msg }] *)
Definition withMsg (rowCtx msg : value) : value :=
  VObj (obj_define "msg" msg (ownProps B rowCtx)).

Definition evalTyped (c : Ctx) (type src rowCtx : value) : completion value :=
  let msg := msgValue H c in
  if is_str type "msg" then
    bind (ToString B src) (fun p => getMessageProperty H c (VStr p))
  else if is_str type "flow" then
    bind (ToString B src) (fun p => flowGet H c (VStr p))
  else if is_str type "global" then
    bind (ToString B src) (fun p => globalGet H c (VStr p))
  else if is_str type "env" then
    bind (ToString B src) (fun k => Return (or_else (envGet H k) (VStr "")))
  else if is_str type "path" then
    bind (ToString B src) (fun p =>
      Return (getObjectProperty c (coalesce rowCtx msg) (VStr p)))
  else if is_str type "jsonata" then
    let dataRoot := if negb (nullish rowCtx) then withMsg rowCtx msg else msg in
    jsonataEval c src dataRoot
  else if is_str type "str" then
    bind (ToString B (coalesce src (VStr ""))) (fun s => Return (VStr s))
  else if is_str type "num" then
    bind (ToNumber B src) (fun n => Return (VNum n))
  else if is_str type "bool" then Return (VBool (truthy src))
  else if is_str type "json" then
    match src with
    | VStr s =>
        match json_parse B s with
        | Some v => Return v
        | None => Return VUndefined
        end
    | _ => Return src
    end
  else Return src.

(** *** Node implementation: the input handler, stage by stage *)

(** [rule.name || rIndex], printed. *)
Definition ruleLabel (rule : Rule) (rIndex : nat) : string :=
  match r_name rule with
  | Some name => if String.eqb name "" then index_key B rIndex else name
  | None => index_key B rIndex
  end.

(** [`[rule:${rule.name || rIndex}]`] *)
Definition ruleTag (rule : Rule) (rIndex : nat) : string :=
  "[rule:" ++ ruleLabel rule rIndex ++ "]".

(** 1) SELECT scope: the expression part (inside the [try]). *)
Definition selectScope (c : Ctx) (root : value) (rule : Rule) : completion value :=
  if is_str (r_selectType rule) "jsonata" then
    jsonataEval c (or_else (r_select rule) (VStr "")) root
  else if is_str (r_selectType rule) "path" then
    Return (getObjectProperty c root (or_else (r_select rule) (VStr "")))
  else Return root.

(** The array test after the [try]: [Some rows] for an array and for
    [null]/[undefined] (coerced to the empty array), [None] otherwise. *)
Definition scopeRows (scope : value) : option (list value) :=
  match scope with
  | VArr items => Some items
  | _ => if nullish scope then Some [] else None
  end.

(** 2) FILTER: the loop [for (const row of scope)]. *)
Fixpoint filterRows (tag : string) (rule : Rule) (c : Ctx) (scope : list value)
  : Ctx * list value :=
  match scope with
  | [] => (c, [])
  | row :: rest =>
      match evalTyped c (or_else (r_filterType rule) (VStr "jsonata")) (r_filter rule) row with
      | Return keep =>
          let '(c', out) := filterRows tag rule c rest in
          (c', if truthy keep then row :: out else out)
      | Throw e =>
          filterRows tag rule
            (pushWarning c (tag ++ " filter error on row: " ++ message e)) rest
      end
  end.

Definition filterStage (tag : string) (rule : Rule) (c : Ctx) (scope : list value)
  : Ctx * list value :=
  if truthy (r_filter rule) then filterRows tag rule c scope else (c, scope).

(** [m.key] as a condition and as printed by a template literal. *)
Definition keyGiven (m : MapField) : bool :=
  match m_key m with
  | Some k => negb (String.eqb k "")
  | None => false
  end.

Definition keyText (m : MapField) : string :=
  match m_key m with
  | Some k => k
  | None => "undefined"
  end.

(** The value of one field: the three statements at the head of the
    [try] block. *)
Definition fieldValue (isNA : value -> completion bool) (c : Ctx)
  (row : value) (m : MapField) : completion value :=
  bind (evalTyped c (or_else (m_srcType m) (VStr "jsonata")) (m_src m) row) (fun v =>
    bind (normalizeNA v isNA) (fun v =>
      applyTransform (or_else (m_transform m) (VStr "none")) v)).

(** 3) MAP: one field of one row; the body of [for (const m of maps)]. *)
Definition assignField (tag : string) (isNA : value -> completion bool) (c : Ctx)
  (row : value) (rec : object) (m : MapField) : Ctx * object :=
  match fieldValue isNA c row m with
  | Return v =>
      (c, if keyGiven m then obj_set (keyText m) v rec else rec)
  | Throw e =>
      (pushWarning c
         (tag ++ " map error for key=" ++ keyText m ++ ": " ++ message e),
       rec)
  end.

Definition mapField (tag : string) (isNA : value -> completion bool) (c : Ctx)
  (row : value) (rec : object) (m : MapField) : Ctx * object :=
  if truthy (m_when m) then
    match evalTyped c (or_else (m_whenType m) (VStr "jsonata")) (m_when m) row with
    | Return w => if truthy w then assignField tag isNA c row rec m else (c, rec)
    | Throw e => (pushWarning c (tag ++ " when error: " ++ message e), rec)
    end
  else assignField tag isNA c row rec m.

Fixpoint mapFields (tag : string) (isNA : value -> completion bool) (c : Ctx)
  (row : value) (rec : object) (maps : list MapField) : Ctx * object :=
  match maps with
  | [] => (c, rec)
  | m :: rest =>
      let '(c', rec') := mapField tag isNA c row rec m in
      mapFields tag isNA c' row rec' rest
  end.

(** The loop [for (const row of rows)]; the flag [include] of the source
    is [true] on every path, so the record is always pushed. *)
Fixpoint mapRows (tag : string) (isNA : value -> completion bool) (maps : list MapField)
  (c : Ctx) (rows : list value) : Ctx * list value :=
  match rows with
  | [] => (c, [])
  | row :: rest =>
      let '(c1, rec) := mapFields tag isNA c row emptyObject maps in
      let '(c2, out) := mapRows tag isNA maps c1 rest in
      (c2, toValue rec :: out)
  end.

Definition mapStage (tag : string) (isNA : value -> completion bool) (rule : Rule)
  (c : Ctx) (rows : list value) : Ctx * list value :=
  match r_map rule with
  | [] => (c, rows)
  | maps => mapRows tag isNA maps c rows
  end.

(** 4) AGGREGATE *)

(** The key of a record in the [objectByKey] map: [String(k ?? "")] of
    the evaluated key expression. *)
Definition keyOf (agg : AggregateSpec) (c : Ctx) (row : value) : completion string :=
  bind (evalTyped c (or_else (a_keyExprType agg) (VStr "jsonata")) (a_keyExpr agg) row)
    (fun k => ToString B (coalesce k (VStr ""))).

Fixpoint objectByKey (tag : string) (agg : AggregateSpec) (c : Ctx)
  (mapped : list value) (obj : object) : Ctx * object :=
  match mapped with
  | [] => (c, obj)
  | row :: rest =>
      match keyOf agg c row with
      | Return k => objectByKey tag agg c rest (obj_set k row obj)
      | Throw e =>
          objectByKey tag agg
            (pushWarning c (tag ++ " objectByKey keyExpr error: " ++ message e))
            rest obj
      end
  end.

(** The value a record contributes to the set: [valueExpr] when given,
    else the value of the record's first own key. *)
Definition setValue (agg : AggregateSpec) (c : Ctx) (row : value) : completion value :=
  if truthy (a_valueExpr agg) then
    evalTyped c (or_else (a_valueExprType agg) (VStr "jsonata")) (a_valueExpr agg) row
  else
    bind (objectKeys B row) (fun keys =>
      Return (match keys with
              | [] => VUndefined
              | k :: _ => get_prop k (ownProps B row)
              end)).

(** The body of the [try] block of the set loop: the entry to add, if
    any. *)
Definition setEntry (isNA : value -> completion bool) (agg : AggregateSpec)
  (c : Ctx) (row : value) : completion (option string) :=
  bind (setValue agg c row) (fun v =>
    bind (normalizeNA v isNA) (fun v =>
      if nullish v then Return None
      else
        bind (ToString B v) (fun s =>
          if String.eqb (str_trim B s) "" then Return None
          else Return (Some s)))).

Fixpoint setLoop (tag : string) (isNA : value -> completion bool) (agg : AggregateSpec)
  (c : Ctx) (mapped : list value) (outSet : list string) : Ctx * list string :=
  match mapped with
  | [] => (c, outSet)
  | row :: rest =>
      match setEntry isNA agg c row with
      | Return entry =>
          setLoop tag isNA agg c rest
            (match entry with
             | Some s => set_add s outSet
             | None => outSet
             end)
      | Throw e =>
          setLoop tag isNA agg
            (pushWarning c (tag ++ " set valueExpr error: " ++ message e))
            rest outSet
      end
  end.

(** [agg.mode || "array"] *)
Definition aggMode (rule : Rule) : value :=
  or_else (a_mode (r_aggregate rule)) (VStr "array").

Definition aggregateStage (tag : string) (isNA : value -> completion bool) (rule : Rule)
  (c : Ctx) (mapped : list value) : Ctx * value :=
  let agg := r_aggregate rule in
  let mode := aggMode rule in
  if is_str mode "array" then (c, VArr mapped)
  else if is_str mode "first" then
    (c, match mapped with [] => VNull | first :: _ => first end)
  else if is_str mode "count" then (c, VNum (num_of_nat (length mapped)))
  else if is_str mode "objectByKey" then
    let '(c', obj) := objectByKey tag agg c mapped emptyObject in (c', toValue obj)
  else if is_str mode "set" then
    let '(c', outSet) := setLoop tag isNA agg c mapped [] in
    (c', VArr (map VStr outSet))
  else (c, VArr mapped).

(** 5) OUTPUT *)
Definition outType (rule : Rule) : value :=
  or_else (o_type (r_output rule)) (VStr "msg").

Definition outPath (rule : Rule) (rIndex : nat) : value :=
  or_else (o_path (r_output rule)) (VStr ("extract." ++ index_key B rIndex)).

(** 6) Empty handling: the test. *)
Definition isEmptyResult (mode result : value) : bool :=
  if is_str mode "count" then is_zero_number result
  else if is_str mode "first" then nullish result
  else
    match result with
    | VArr items => Nat.eqb (length items) 0
    | VObj ps | VObjP _ ps => Nat.eqb (length (map fst ps)) 0
    | _ => nullish result
    end.

(** The handler's locals that outlive a rule: the context and the three
    counters. *)
Record State := {
  ctx : Ctx;
  ruleOK : nat;
  ruleWarn : nat;
  ruleErr : nat
}.

Definition recordError (s : State) (text : string) : State :=
  {| ctx := pushError (ctx s) text;
     ruleOK := ruleOK s; ruleWarn := ruleWarn s; ruleErr := S (ruleErr s) |}.

Definition recordWarning (s : State) (text : string) : State :=
  {| ctx := pushWarning (ctx s) text;
     ruleOK := ruleOK s; ruleWarn := S (ruleWarn s); ruleErr := ruleErr s |}.

Definition recordOK (s : State) : State :=
  {| ctx := ctx s;
     ruleOK := S (ruleOK s); ruleWarn := ruleWarn s; ruleErr := ruleErr s |}.

Definition withCtx (s : State) (c : Ctx) : State :=
  {| ctx := c; ruleOK := ruleOK s; ruleWarn := ruleWarn s; ruleErr := ruleErr s |}.

(** 6) Empty handling: the bookkeeping. *)
Definition emptyHandling (tag : string) (rule : Rule) (empty : bool) (s : State) : State :=
  if empty then
    if is_str (r_onEmpty rule) "error" then
      recordError s (tag ++ " produced empty result")
    else if (is_str (r_onEmpty rule) "warn" || negb (truthy (r_onEmpty rule)))%bool then
      recordWarning s (tag ++ " produced empty result")
    else recordOK s
  else recordOK s.

(** How one iteration of the rule loop ends: falling through or
    [continue], [break], or an exception leaving the loop. *)
Inductive Outcome :=
| Next (s : State)
| Break (s : State)
| Escaped (s : State) (e : exn).

(** A rule error of the select stage, then [break] or [continue]. *)
Definition selectError (rule : Rule) (s : State) (text : string) : Outcome :=
  let s' := recordError s text in
  if is_str (r_onError rule) "stop" then Break s' else Next s'.

(** Stages 2-6, entered with the selected array. *)
Definition runStages (isNA : value -> completion bool) (rIndex : nat) (rule : Rule)
  (s : State) (scope : list value) : Outcome :=
  let tag := ruleTag rule rIndex in
  let '(c1, rows) := filterStage tag rule (ctx s) scope in
  let '(c2, mapped) := mapStage tag isNA rule c1 rows in
  let '(c3, result) := aggregateStage tag isNA rule c2 mapped in
  match setTypedTarget c3 (outType rule) (outPath rule rIndex) result with
  | Throw e => Escaped (withCtx s c3) e
  | Return w =>
      Next (emptyHandling tag rule (isEmptyResult (aggMode rule) result)
              (withCtx s (withStores c3 w)))
  end.

(** The body of the rule loop, for the root as it is when the rule
    starts. *)
Definition runRule (isNA : value -> completion bool) (root : value) (rIndex : nat)
  (rule : Rule) (s : State) : Outcome :=
  let tag := ruleTag rule rIndex in
  match selectScope (ctx s) root rule with
  | Throw e =>
      selectError rule s (tag ++ " select evaluation failed: " ++ message e)
  | Return scope =>
      match scopeRows scope with
      | None => selectError rule s (tag ++ " select did not resolve to an array")
      | Some rows => runStages isNA rIndex rule s rows
      end
  end.

Inductive LoopResult :=
| Finished (s : State)
| Aborted (s : State) (e : exn).

(** [for (let rIndex = ...; rIndex < rules.length; rIndex++)].  The
    variable [root] holds a reference: [root c] is what it refers to in
    the context [c], so each rule reads the root as the writes of the
    rules before it have left it. *)
Fixpoint runRules (isNA : value -> completion bool) (root : Ctx -> value) (rIndex : nat)
  (rs : list Rule) (s : State) : LoopResult :=
  match rs with
  | [] => Finished s
  | rule :: rest =>
      match runRule isNA (root (ctx s)) rIndex rule s with
      | Next s' => runRules isNA root (S rIndex) rest s'
      | Break s' => Finished s'
      | Escaped s' e => Aborted s' e
      end
  end.

(** Source root *)
Definition resolveRoot (c : Ctx) (src : option SourceSpec) : completion value :=
  let msg := msgValue H c in
  match src with
  | None => Return msg
  | Some sp =>
      if is_str (s_type sp) "msg" then
        if truthy (s_path sp) then getMessageProperty H c (s_path sp) else Return msg
      else if is_str (s_type sp) "flow" then flowGet H c (or_else (s_path sp) (VStr ""))
      else if is_str (s_type sp) "global" then globalGet H c (or_else (s_path sp) (VStr ""))
      else if is_str (s_type sp) "jsonata" then jsonataEval c (or_else (s_path sp) (VStr "")) msg
      else if is_str (s_type sp) "path" then
        Return (getObjectProperty c msg (or_else (s_path sp) (VStr "")))
      else Return msg
  end.

Definition defaultNAValues : list string := [""; "NA"; "N/A"].

(** [runCfg.naPolicy.values || ["", "NA", "N/A"]] *)
Definition policyValues (pol : NAPolicy) : list string :=
  match na_values pol with
  | Some l => l
  | None => defaultNAValues
  end.

(** The predicate [isNA] built by the handler from [runCfg.naPolicy]. *)
Definition policyIsNA (p : option NAPolicy) : value -> completion bool :=
  match p with
  | Some pol =>
      if truthy (na_enabled pol) then mkNASet (Some (policyValues pol))
      else fun _ => Return false
  | None => fun _ => Return false
  end.

(** The payload (without the wall-clock timing). *)
Record Summary := {
  ok : bool;
  step : string;
  counts_rules : nat;
  counts_ok : nat;
  counts_warn : nat;
  counts_err : nat
}.

Definition mkSummary (runCfg : RuleSet) (s : State) : Summary :=
  {| ok := Nat.eqb (length (errors (ctx s))) 0;
     step := "json-extract-rules";
     counts_rules := length (rules runCfg);
     counts_ok := ruleOK s;
     counts_warn := ruleWarn s + length (warnings (ctx s));
     counts_err := ruleErr s + length (errors (ctx s)) |}.

(** The end of a run: the summary is set as payload and the message is
    sent, or the [catch] records an engine error and fails the run. *)
Inductive RunResult :=
| Sent (c : Ctx) (summary : Summary)
| Failed (c : Ctx) (e : exn).

Definition initState (c : Ctx) : State :=
  {| ctx := c; ruleOK := 0; ruleWarn := 0; ruleErr := 0 |}.

Definition engineFailure (c : Ctx) (e : exn) : RunResult :=
  Failed (pushError c ("[engine] " ++ message e)) e.

(** [node.on("input", ...)]; [c] carries the incoming message with its
    [meta.warnings] and [meta.errors] (empty when absent). *)
Definition onInput (runCfg : RuleSet) (c : Ctx) : RunResult :=
  match resolveRoot c (source runCfg) with
  | Throw e => engineFailure c e
  | Return root =>
      let isNA := policyIsNA (naPolicy runCfg) in
      match runRules isNA (liveValue H c root) 0 (rules runCfg) (initState c) with
      | Finished s => Sent (ctx s) (mkSummary runCfg s)
      | Aborted s e => engineFailure (ctx s) e
      end
  end.

End WithHost.

End Engine.

(* ===================================================================== *)
(** * Config-file helpers *)
(* ===================================================================== *)

(** The helpers around the optional config file: the check of the file
    name, the confinement under [userDir], and the process-wide registry
    of file watchers shared by the nodes ([watchers], a [Map] from the
    absolute path to [{ count, watcher }]). *)
Module ConfigFile.
Import JS.

(** [s.endsWith(suffix)] *)
Definition endsWith (s suffix : string) : bool :=
  (Nat.leb (String.length suffix) (String.length s)
   && String.eqb
        (String.substring (String.length s - String.length suffix)
           (String.length suffix) s)
        suffix)%bool.

(** [path.resolve] and the settings it is used with. *)
Record Paths := {
  userDir : string;                       (* RED.settings.userDir || process.cwd() *)
  resolve1 : string -> string;            (* path.resolve(a) *)
  resolve2 : string -> string -> string   (* path.resolve(a, b) *)
}.

(** The fields of a node that the watcher functions read. *)
Record Node := {
  useConfigFile : bool;
  configPath : value;
  lockToFile : bool;
  watchFile : bool
}.

(** One entry of [watchers]. *)
Record WatchInfo (Hd : Type) := {
  count : Z;
  watcher : Hd
}.
Arguments count {Hd} w.
Arguments watcher {Hd} w.

(** The registry together with the watchers closed so far. *)
Record Registry (Hd : Type) := {
  watchers : gmap string (WatchInfo Hd);
  closed : list Hd
}.
Arguments watchers {Hd} r.
Arguments closed {Hd} r.

Section WithFiles.
Context {Hd : Type}.
Variable B : Builtins.
Variable P : Paths.
(** [fs.watch(abs, ...)]: the new watcher, or an error (no such file). *)
Variable fsWatch : string -> completion Hd.

Definition ensureJsonExt (p : value) : completion unit :=
  match p with
  | VStr s =>
      if negb (truthy p) then Throw (Exn "Config path is empty")
      else if negb (endsWith (str_lower B s) ".json")
      then Throw (Exn "Config path must end with .json")
      else Return tt
  | _ => Throw (Exn "Config path is empty")
  end.

(** A path that is not a string makes [path.resolve] throw. *)
Definition resolveUnderUserDir (rel : value) : completion string :=
  match rel with
  | VStr r =>
      let abs := resolve2 P (userDir P) r in
      if negb (String.prefix (resolve1 P (userDir P)) abs)
      then Throw (Exn "Config path must be under userDir")
      else Return abs
  | _ => Throw (Exn "The paths argument must be of type string")
  end.

Definition startWatchingIfNeeded (node : Node) (reg : Registry Hd) : Registry Hd :=
  if (negb (useConfigFile node) || negb (watchFile node))%bool then reg
  else
    match ensureJsonExt (configPath node) with
    | Throw _ => reg
    | Return _ =>
        match resolveUnderUserDir (configPath node) with
        | Throw _ => reg
        | Return abs =>
            match watchers reg !! abs with
            | Some info =>
                {| watchers :=
                     <[abs := {| count := count info + 1; watcher := watcher info |}]>
                       (watchers reg);
                   closed := closed reg |}
            | None =>
                match fsWatch abs with
                | Throw _ => reg
                | Return w =>
                    {| watchers :=
                         <[abs := {| count := 0 + 1; watcher := w |}]> (watchers reg);
                       closed := closed reg |}
                end
            end
        end
    end.

Definition stopWatching (node : Node) (reg : Registry Hd) : Registry Hd :=
  if (negb (useConfigFile node) || negb (truthy (configPath node)))%bool then reg
  else
    match resolveUnderUserDir (configPath node) with
    | Throw _ => reg
    | Return abs =>
        match watchers reg !! abs with
        | Some info =>
            if Z.leb (count info - 1) 0 then
              {| watchers := delete abs (watchers reg);
                 closed := closed reg ++ [watcher info] |}
            else
              {| watchers :=
                   <[abs := {| count := count info - 1; watcher := watcher info |}]>
                     (watchers reg);
                 closed := closed reg |}
        | None => reg
        end
    end.

End WithFiles.

End ConfigFile.

(* ===================================================================== *)
(** * An executable host for closed examples *)
(* ===================================================================== *)

(** A small host on which the engine can be run by evaluation.  Stores
    are plain JSON values; property expressions are dotted names; the
    lookups follow [RED.util.getObjectProperty] (an error when the parent
    of the property does not exist or the expression is empty) and the
    writes follow [RED.util.setObjectProperty] with [createMissing].  The
    language built-ins are given for ASCII text and for integer-valued
    numbers, which is all the examples use.  No environment variable is
    set. *)
Module Sample.
Import JS Engine.

Definition is_space (c : ascii) : bool :=
  let n := nat_of_ascii c in
  (Nat.eqb n 32 || (Nat.leb 9 n && Nat.leb n 13))%bool.

Fixpoint drop_spaces (l : list ascii) : list ascii :=
  match l with
  | c :: rest => if is_space c then drop_spaces rest else l
  | [] => []
  end.

Definition trim (s : string) : string :=
  string_of_list_ascii
    (rev (drop_spaces (rev (drop_spaces (list_ascii_of_string s))))).

Definition lower_char (c : ascii) : ascii :=
  let n := nat_of_ascii c in
  if (Nat.leb 65 n && Nat.leb n 90)%bool then ascii_of_nat (n + 32) else c.

Definition upper_char (c : ascii) : ascii :=
  let n := nat_of_ascii c in
  if (Nat.leb 97 n && Nat.leb n 122)%bool then ascii_of_nat (n - 32) else c.

Definition map_chars (f : ascii -> ascii) (s : string) : string :=
  string_of_list_ascii (map f (list_ascii_of_string s)).

Definition digit_char (d : N) : ascii := ascii_of_N (48 + d).

Fixpoint decimal_digits (fuel : nat) (n : N) (acc : list ascii) : list ascii :=
  match fuel with
  | O => acc
  | S fuel' =>
      let acc' := digit_char (n mod 10) :: acc in
      if N.ltb n 10 then acc' else decimal_digits fuel' (n / 10) acc'
  end.

Definition decimal (n : N) : string :=
  string_of_list_ascii (decimal_digits (S (N.to_nat (N.log2 n))) n []).

(** Integer-valued numbers print as decimal numerals; other finite
    numbers are outside the examples and print as ["?"]. *)
Definition number_to_string (n : number) : string :=
  match n with
  | S754_zero _ => "0"
  | S754_nan => "NaN"
  | S754_infinity false => "Infinity"
  | S754_infinity true => "-Infinity"
  | S754_finite s m e =>
      match e with
      | Z0 => (if s then "-" else "") ++ decimal (Npos m)
      | Zpos p => (if s then "-" else "") ++ decimal (Npos m * 2 ^ Npos p)
      | Zneg _ => "?"
      end
  end.

(** Decimal numerals (after trimming) parse to their number, the empty
    string to 0, anything else to NaN. *)
Definition string_to_number (s : string) : number :=
  match list_ascii_of_string (trim s) with
  | [] => num_zero
  | l =>
      match digits_value 0 l with
      | Some 0%N => num_zero
      | Some (Npos p) => S754_finite false p 0
      | None => S754_nan
      end
  end.

(** Only the literals [null], [true], [false] and decimal numerals. *)
Definition parse_json (s : string) : option value :=
  if String.eqb s "null" then Some VNull
  else if String.eqb s "true" then Some (VBool true)
  else if String.eqb s "false" then Some (VBool false)
  else
    match list_ascii_of_string s with
    | [] => None
    | l =>
        match digits_value 0 l with
        | Some 0%N => Some (VNum num_zero)
        | Some (Npos p) => Some (VNum (S754_finite false p 0))
        | None => None
        end
    end.

(** An object that inherits from an array is outside the examples and
    prints as ["?"]. *)
Definition builtins : Builtins :=
  {| str_trim := trim;
     str_lower := map_chars lower_char;
     str_upper := map_chars upper_char;
     num_to_string := number_to_string;
     str_to_num := string_to_number;
     json_parse := parse_json;
     array_like_string := fun _ => Return "?" |}.

(** ** Stores *)

Record Stores := {
  msg : value;        (* the message, without [meta.warnings]/[meta.errors] *)
  flowStore : value;
  globalStore : value
}.

Definition SCtx := Ctx Stores.

Fixpoint split_dots (cur : list ascii) (l : list ascii) : list string :=
  match l with
  | [] => [string_of_list_ascii (rev cur)]
  | c :: rest =>
      if Ascii.eqb c "." then string_of_list_ascii (rev cur) :: split_dots [] rest
      else split_dots (c :: cur) rest
  end.

(** [normalisePropertyExpression] for dotted names. *)
Definition propertyParts (expr : value) : completion (list string) :=
  match expr with
  | VStr s =>
      if String.eqb s "" then Throw (Exn "Invalid property expression: zero-length")
      else
        let parts := split_dots [] (list_ascii_of_string s) in
        if existsb (fun p => String.eqb p "") parts
        then Throw (Exn "Invalid property expression: unexpected . ")
        else Return parts
  | _ => Throw (Exn "Invalid property expression")
  end.

(** [obj[k]] on JSON-shaped data: an own property, else one inherited
    through a re-targeted prototype link. *)
Fixpoint readKey (k : string) (obj : value) : value :=
  match obj with
  | VObjP p ps =>
      match lookup_prop k ps with
      | Some v => v
      | None => readKey k p
      end
  | _ => get_prop k (ownProps builtins obj)
  end.

(** The [reduce] of [getObjectProperty]: reading a key of [undefined] or
    [null] is a TypeError. *)
Fixpoint readParts (obj : value) (parts : list string) : completion value :=
  match parts with
  | [] => Return obj
  | k :: rest =>
      if nullish obj
      then Throw (Exn ("Cannot read properties of undefined (reading '" ++ k ++ "')"))
      else readParts (readKey k obj) rest
  end.

Definition sampleGetObjectProperty (obj expr : value) : completion value :=
  bind (propertyParts expr) (fun parts =>
    match parts with
    | [] => Return VNull
    | _ => readParts obj parts
    end).

Definition remove_prop (k : string) (ps : props) : props :=
  List.filter (fun kv => negb (String.eqb (fst kv) k)) ps.

(** An object value as link and own properties. *)
Definition asObject (v : value) : option object :=
  match v with
  | VObj ps => Some (Obj ObjectPrototype ps)
  | VObjP p ps => Some (Obj (Linked p) ps)
  | _ => None
  end.

(** [setObjectProperty(obj, expr, v, true)] on nested objects. *)
Fixpoint writeParts (obj : value) (parts : list string) (v : value) : value :=
  match parts, asObject obj with
  | [], _ => obj
  | [k], Some o =>
      match v with
      | VUndefined => toValue (Obj (proto o) (remove_prop k (own o)))
      | _ => toValue (obj_set k v o)
      end
  | k :: rest, Some o =>
      match lookup_prop k (own o) with
      | Some child =>
          if isObj child
          then toValue (Obj (proto o) (replace_prop k (writeParts child rest v) (own o)))
          else obj
      | None => toValue (obj_set k (writeParts (VObj []) rest v) o)
      end
  | _, None => obj
  end.

Definition strip_msg (expr : value) : value :=
  match expr with
  | VStr (String "m" (String "s" (String "g" (String "." rest)))) => VStr rest
  | _ => expr
  end.

Definition metaOf (c : SCtx) : value :=
  VObj [("warnings", VArr (map VStr (warnings c)));
        ("errors", VArr (map VStr (errors c)))].

(** The message as expressions see it. *)
Definition sampleMsg (c : SCtx) : value :=
  match msg (stores c) with
  | VObj ps => VObj (obj_define "meta" (metaOf c) ps)
  | VObjP p ps => VObjP p (obj_define "meta" (metaOf c) ps)
  | v => v
  end.

(** The memory context store returns [undefined] when a parent is
    missing and rejects an invalid key. *)
Definition contextGet (store key : value) : completion value :=
  bind (propertyParts key) (fun parts =>
    match readParts store parts with
    | Return v => Return v
    | Throw _ => Return VUndefined
    end).

Definition contextSet (store key v : value) : completion value :=
  bind (propertyParts key) (fun parts => Return (writeParts store parts v)).

(** JSONata restricted to paths of names: a compiled expression is its
    list of steps; any other text is a syntax error; a step into a
    missing field yields [undefined]. *)
Definition is_name_char (c : ascii) : bool :=
  let n := nat_of_ascii c in
  ((Nat.leb 48 n && Nat.leb n 57) || (Nat.leb 65 n && Nat.leb n 90)
   || (Nat.leb 97 n && Nat.leb n 122) || Nat.eqb n 95)%bool.

Definition compilePath (expr : string) : completion (list string) :=
  let parts := split_dots [] (list_ascii_of_string expr) in
  if forallb (fun p => (negb (String.eqb p "")
                        && forallb is_name_char (list_ascii_of_string p))%bool) parts
  then Return parts
  else Throw (Exn ("Syntax error: " ++ expr)).

Fixpoint stepPath (data : value) (steps : list string) : value :=
  match steps with
  | [] => data
  | k :: rest =>
      if isObj data then stepPath (readKey k data) rest else VUndefined
  end.

(** ** Shared values *)

Definition number_eqb (a b : number) : bool :=
  match a, b with
  | S754_zero s, S754_zero t => Bool.eqb s t
  | S754_infinity s, S754_infinity t => Bool.eqb s t
  | S754_nan, S754_nan => true
  | S754_finite s m e, S754_finite t n f =>
      (Bool.eqb s t && Pos.eqb m n && Z.eqb e f)%bool
  | _, _ => false
  end.

Fixpoint value_eqb (a b : value) {struct a} : bool :=
  match a, b with
  | VUndefined, VUndefined => true
  | VNull, VNull => true
  | VBool x, VBool y => Bool.eqb x y
  | VNum x, VNum y => number_eqb x y
  | VStr x, VStr y => String.eqb x y
  | VArr xs, VArr ys =>
      (fix items (l r : list value) : bool :=
         match l, r with
         | [], [] => true
         | x :: l', y :: r' => (value_eqb x y && items l' r')%bool
         | _, _ => false
         end) xs ys
  | VObj ps, VObj qs =>
      (fix fields (l r : props) : bool :=
         match l, r with
         | [], [] => true
         | (k, x) :: l', (k', y) :: r' =>
             (String.eqb k k' && value_eqb x y && fields l' r')%bool
         | _, _ => false
         end) ps qs
  | VObjP p ps, VObjP q qs =>
      (value_eqb p q &&
       (fix fields (l r : props) : bool :=
          match l, r with
          | [], [] => true
          | (k, x) :: l', (k', y) :: r' =>
              (String.eqb k k' && value_eqb x y && fields l' r')%bool
          | _, _ => false
          end) ps qs)%bool
  | _, _ => false
  end.

(** The place of an object or array inside a store: the names leading to
    the first property, in depth-first order, that holds it. *)
Fixpoint locate (target : value) (v : value) : option (list string) :=
  if value_eqb v target then Some []
  else
    match v with
    | VObj ps | VObjP _ ps =>
        (fix fields (l : props) : option (list string) :=
           match l with
           | [] => None
           | (k, x) :: rest =>
               match locate target x with
               | Some path => Some (k :: path)
               | None => fields rest
               end
           end) ps
    | _ => None
    end.

Fixpoint peek (v : value) (path : list string) : value :=
  match path with
  | [] => v
  | k :: rest => peek (get_prop k (ownProps builtins v)) rest
  end.

(** An object or an array read from the message or from a store is
    that part of the message or store, found again by its place; a
    primitive, or an object that lives in none of them, is itself. *)
Definition sampleLiveValue (c0 : SCtx) (v : value) (c : SCtx) : value :=
  if negb (is_array v || isObj v)%bool then v
  else
    match locate v (sampleMsg c0) with
    | Some path => peek (sampleMsg c) path
    | None =>
        match locate v (flowStore (stores c0)) with
        | Some path => peek (flowStore (stores c)) path
        | None =>
            match locate v (globalStore (stores c0)) with
            | Some path => peek (globalStore (stores c)) path
            | None => v
            end
        end
    end.

Definition host : Host Stores :=
  {| JExpr := list string;
     msgValue := sampleMsg;
     getMessageProperty := fun c expr =>
       sampleGetObjectProperty (sampleMsg c) (strip_msg expr);
     setMessageProperty := fun c expr v =>
       bind (propertyParts (strip_msg expr)) (fun parts =>
         Return {| msg := writeParts (msg (stores c)) parts v;
                   flowStore := flowStore (stores c);
                   globalStore := globalStore (stores c) |});
     flowGet := fun c key => contextGet (flowStore (stores c)) key;
     flowSet := fun c key v =>
       bind (contextSet (flowStore (stores c)) key v) (fun st =>
         Return {| msg := msg (stores c); flowStore := st;
                   globalStore := globalStore (stores c) |});
     globalGet := fun c key => contextGet (globalStore (stores c)) key;
     globalSet := fun c key v =>
       bind (contextSet (globalStore (stores c)) key v) (fun st =>
         Return {| msg := msg (stores c); flowStore := flowStore (stores c);
                   globalStore := st |});
     envGet := fun _ => VUndefined;
     utilGetObjectProperty := fun _ obj expr => sampleGetObjectProperty obj expr;
     prepareJSONataExpression := fun _ expr => compilePath expr;
     evaluateJSONataExpression := fun _ steps data => Return (stepPath data steps);
     liveValue := sampleLiveValue |}.

(** A context holding the message [m] and empty flow and global stores. *)
Definition ctxOf (m : value) (ws es : list string) : SCtx :=
  {| stores := {| msg := m; flowStore := VObj []; globalStore := VObj [] |};
     warnings := ws; errors := es |}.

Definition str (s : string) : value := VStr s.
Definition num (n : nat) : value := VNum (num_of_nat n).

End Sample.

(* ===================================================================== *)
(** * Vocabulary of the statements *)
(* ===================================================================== *)

Import JS Engine.

(** The names [applyTransform] has a case for, [none] apart. *)
Definition transformNames : list value :=
  [VStr "trim"; VStr "lower"; VStr "upper"; VStr "number"; VStr "bool01"; VStr "string"].

(** The types whose branch of [evalTyped] ends in a call that is not
    guarded: the three store lookups and the JSONata evaluation. *)
Definition raisingTypes : list value :=
  [VStr "msg"; VStr "flow"; VStr "global"; VStr "jsonata"].

(** The stages between select and output only append warnings. *)
Definition warnsOnly {W} (c c' : Ctx W) : Prop :=
  stores c' = stores c /\ errors c' = errors c /\
  exists ws, warnings c' = warnings c ++ ws.

(** Across rules both lists are append-only. *)
Definition appends {W} (c c' : Ctx W) : Prop :=
  (exists ws, warnings c' = warnings c ++ ws) /\
  (exists es, errors c' = errors c ++ es).

(** An entry that is not blank after trimming. *)
Definition nonblank (B : Builtins) (e : string) : Prop := str_trim B e <> "".

(** The state an iteration of the rule loop ends in. *)
Definition outcomeState {W} (o : @Outcome W) : @State W :=
  match o with
  | Next s | Break s | Escaped s _ => s
  end.

Definition loopState {W} (r : @LoopResult W) : @State W :=
  match r with
  | Finished s | Aborted s _ => s
  end.

(** The number of rules the three counters account for. *)
Definition ruleTotal {W} (s : @State W) : nat :=
  ruleOK s + ruleWarn s + ruleErr s.

(** What [n] rules may have done to the bookkeeping between two states:
    [n] counter increments in all; one entry in the errors list per
    increment of the error counter and no other; at least one entry in
    the warnings list per increment of the warn counter; no counter
    decreases. *)
Definition accounted {W} (n : nat) (s s' : @State W) : Prop :=
  ruleTotal s' = ruleTotal s + n /\
  length (errors (ctx s')) + ruleErr s = length (errors (ctx s)) + ruleErr s' /\
  length (warnings (ctx s)) + ruleWarn s' <= length (warnings (ctx s')) + ruleWarn s /\
  ruleOK s <= ruleOK s' /\ ruleWarn s <= ruleWarn s' /\ ruleErr s <= ruleErr s'.

(** The source types whose root resolution is an unguarded call. *)
Definition raisingSources : list value :=
  [VStr "msg"; VStr "flow"; VStr "global"; VStr "jsonata"].

(** The same rule with another aggregate mode. *)
Definition withMode (mode : value) (rule : Rule) : Rule :=
  {| r_name := r_name rule; r_selectType := r_selectType rule;
     r_select := r_select rule; r_filterType := r_filterType rule;
     r_filter := r_filter rule; r_map := r_map rule;
     r_aggregate :=
       {| a_mode := mode; a_keyExpr := a_keyExpr (r_aggregate rule);
          a_keyExprType := a_keyExprType (r_aggregate rule);
          a_valueExpr := a_valueExpr (r_aggregate rule);
          a_valueExprType := a_valueExprType (r_aggregate rule) |};
     r_output := r_output rule;
     r_onEmpty := r_onEmpty rule; r_onError := r_onError rule |}.

(** Every registered watcher is held by at least one node. *)
Definition positiveCounts {Hd} (reg : ConfigFile.Registry Hd) : Prop :=
  forall abs info,
    ConfigFile.watchers reg !! abs = Some info -> (0 < ConfigFile.count info)%Z.

(** A message that starts with the tag of its rule. *)
Definition hasTag (tag text : string) : Prop :=
  exists rest, text = (tag ++ rest)%string.

(** From [c] to [c'] only warnings carrying [tag] were appended. *)
Definition warnsTagged {W} (tag : string) (c c' : Ctx W) : Prop :=
  stores c' = stores c /\ errors c' = errors c /\
  exists ws, warnings c' = warnings c ++ ws /\ Forall (hasTag tag) ws.

(** ** Configurations and documents of the closed examples *)

(** Rules for closed examples. *)
Definition noAggregate : AggregateSpec :=
  {| a_mode := VUndefined; a_keyExpr := VUndefined; a_keyExprType := VUndefined;
     a_valueExpr := VUndefined; a_valueExprType := VUndefined |}.

Definition plainRule (agg : AggregateSpec) (onEmpty onError : value) : Rule :=
  {| r_name := None; r_selectType := VUndefined; r_select := VUndefined;
     r_filterType := VUndefined; r_filter := VUndefined; r_map := [];
     r_aggregate := agg;
     r_output := {| o_type := VUndefined; o_path := VUndefined |};
     r_onEmpty := onEmpty; r_onError := onError |}.

Definition setByPath (path : string) : AggregateSpec :=
  {| a_mode := VStr "set"; a_keyExpr := VUndefined; a_keyExprType := VUndefined;
     a_valueExpr := VStr path; a_valueExprType := VStr "path" |}.

Definition byKeyPath (path : string) : AggregateSpec :=
  {| a_mode := VStr "objectByKey"; a_keyExpr := VStr path;
     a_keyExprType := VStr "path";
     a_valueExpr := VUndefined; a_valueExprType := VUndefined |}.

Definition defaultPolicy : NAPolicy :=
  {| na_enabled := VBool true; na_values := None |}.

Definition emptyDoc : Sample.SCtx := Sample.ctxOf (VObj []) [] [].

Definition item (name : string) (active : bool) : value :=
  VObj [("name", VStr name); ("active", VBool active)].

Definition itemsDoc : value :=
  VObj [("payload",
         VObj [("items", VArr [item "alpha" true; item "bravo" false; item "NA" true])])].

Definition nameField : MapField :=
  {| m_key := Some "name"; m_srcType := VStr "jsonata"; m_src := VStr "name";
     m_when := VUndefined; m_whenType := VUndefined; m_transform := VUndefined |}.

Definition itemsRule (filter : value) (fields : list MapField) (agg : AggregateSpec) : Rule :=
  {| r_name := None; r_selectType := VStr "jsonata";
     r_select := VStr "payload.items";
     r_filterType := VStr "path"; r_filter := filter; r_map := fields;
     r_aggregate := agg;
     r_output := {| o_type := VUndefined; o_path := VStr "out" |};
     r_onEmpty := VUndefined; r_onError := VUndefined |}.

Definition runOn (rule : Rule) : @RunResult Sample.Stores :=
  onInput Sample.builtins Sample.host
    {| source := None; naPolicy := Some defaultPolicy; rules := [rule] |}
    (Sample.ctxOf itemsDoc [] []).

Definition written (r : @RunResult Sample.Stores) : value :=
  match r with
  | Sent c _ => get_prop "out" (ownProps Sample.builtins (Sample.msg (stores c)))
  | Failed _ _ => VUndefined
  end.

(** A file setting for the watcher examples: paths are joined with a
    slash under [/data], and every file can be watched. *)
Definition samplePaths : ConfigFile.Paths :=
  {| ConfigFile.userDir := "/data";
     ConfigFile.resolve1 := fun a => a;
     ConfigFile.resolve2 := fun a b => (a ++ "/" ++ b)%string |}.

Definition sampleWatch (abs : string) : completion nat :=
  Return (String.length abs).

Definition fileNode (watch : bool) : ConfigFile.Node :=
  {| ConfigFile.useConfigFile := true;
     ConfigFile.configPath := VStr "rules/Main.JSON";
     ConfigFile.lockToFile := false;
     ConfigFile.watchFile := watch |}.

Definition noWatchers : ConfigFile.Registry nat :=
  {| ConfigFile.watchers := ∅; ConfigFile.closed := [] |}.

(** A JSONata select without expression. *)
Definition bareJsonataRule : Rule :=
  {| r_name := None; r_selectType := VStr "jsonata"; r_select := VUndefined;
     r_filterType := VUndefined; r_filter := VUndefined; r_map := [];
     r_aggregate := noAggregate;
     r_output := {| o_type := VUndefined; o_path := VUndefined |};
     r_onEmpty := VUndefined; r_onError := VUndefined |}.

(** A rule set whose source is the message property [a.b]. *)
Definition deepSourceCfg : RuleSet :=
  {| source := Some {| s_type := VStr "msg"; s_path := VStr "a.b" |};
     naPolicy := None;
     rules := [plainRule noAggregate VUndefined VUndefined] |}.

Definition twoRulesCfg : RuleSet :=
  {| source := None; naPolicy := None;
     rules := [plainRule noAggregate (VStr "ok") VUndefined;
               plainRule noAggregate (VStr "error") VUndefined] |}.

(* ===================================================================== *)
(** * Properties *)
(* ===================================================================== *)

#[local] Arguments String.append : simpl never.

(** ** Sets of strings *)

Lemma set_has_true (s : string) (l : list string) :
  set_has s l = true <-> s ∈ l.
Proof.
  unfold set_has. rewrite existsb_exists, list_elem_of_In. split.
  - intros [x [Hin Heq]]. apply String.eqb_eq in Heq. now subst.
  - intros Hin. exists s. split; [assumption | apply String.eqb_refl].
Qed.

Lemma set_add_elem (s x : string) (l : list string) :
  x ∈ set_add s l <-> x = s \/ x ∈ l.
Proof.
  unfold set_add. destruct (set_has s l) eqn:Hs.
  - apply set_has_true in Hs. split; [tauto |]. intros [-> | Hin]; assumption.
  - rewrite elem_of_app, list_elem_of_singleton. tauto.
Qed.

Lemma set_add_prefix (s : string) (l : list string) :
  exists ext, set_add s l = l ++ ext.
Proof.
  unfold set_add. destruct (set_has s l).
  - exists []. now rewrite app_nil_r.
  - now exists [s].
Qed.

Lemma set_add_NoDup (s : string) (l : list string) :
  NoDup l -> NoDup (set_add s l).
Proof.
  intros Hnd. unfold set_add. destruct (set_has s l) eqn:Hs; [assumption |].
  apply NoDup_app. split; [assumption | split].
  - intros x Hx Hk. apply list_elem_of_singleton in Hk. subst x.
    apply set_has_true in Hx. congruence.
  - apply NoDup_singleton.
Qed.

Lemma fold_set_add_elem (x : string) (l acc : list string) :
  x ∈ fold_left (fun a s => set_add s a) l acc <-> x ∈ acc \/ x ∈ l.
Proof.
  revert acc. induction l as [| s l IH]; intros acc; simpl.
  - rewrite elem_of_nil. tauto.
  - rewrite IH, set_add_elem, elem_of_cons. split; intros Hx.
    + destruct Hx as [[-> | Hx] | Hx]; auto.
    + destruct Hx as [Hx | [<- | Hx]]; auto.
Qed.

(** ** String and number conversion *)

(** An object with an own [toString] property, as
    [JSON.parse('{"toString":1}')] gives: [String()] and [Number()]
    throw on it. *)
Definition ownToString : value := VObj [("toString", VNum num_one)].

Section ConversionFacts.
Variable B : Builtins.

Lemma ToString_primitive (v : value) :
  is_array v = false -> isObj v = false -> throws (ToString B v) = false.
Proof. destruct v as [| | [] | | | |  |]; simpl; congruence. Qed.

Lemma ToString_object (ps : props) :
  ToString B (VObj ps)
  = if has_prop "toString" ps then Throw cannot_convert
    else Return "[object Object]".
Proof. reflexivity. Qed.

Lemma ToNumber_returns (v : value) (s : string) :
  ToString B v = Return s -> exists n, ToNumber B v = Return n.
Proof.
  intros Hs. destruct v as [| | [] | | | | |];
    try solve [simpl; eauto];
    unfold ToNumber; rewrite Hs; simpl; eauto.
Qed.

Lemma ToNumber_throws (v : value) (e : exn) :
  ToNumber B v = Throw e -> ToString B v = Throw e.
Proof.
  destruct v as [| | [] | | | | |]; try discriminate; unfold ToNumber;
    destruct (ToString B _) as [s | e']; simpl; congruence.
Qed.

End ConversionFacts.

(** ** NA policy *)

Section NAPolicyFacts.
Variable B : Builtins.

Lemma mkNASet_spec (values : option (list string)) (v : value) (s : string) :
  nullish v = false ->
  ToString B v = Return s ->
  exists na, mkNASet B values v = Return na /\
    (na = true <->
     str_trim B s = "" \/
     exists tok, tok ∈ match values with Some l => l | None => [] end /\
                 str_lower B (str_trim B s) = str_lower B tok).
Proof.
  intros Hn Hs. unfold mkNASet. rewrite Hn, Hs. simpl.
  destruct (String.eqb (str_trim B s) "") eqn:Hb.
  { apply String.eqb_eq in Hb. exists true. split; [reflexivity | split; auto]. }
  apply String.eqb_neq in Hb. eexists. split; [reflexivity |].
  rewrite set_has_true, fold_set_add_elem, elem_of_nil, list_elem_of_In, in_map_iff.
  split.
  - intros [[] | [tok [Heq Hin]]]. right. exists tok.
    rewrite list_elem_of_In. split; congruence.
  - intros [Hx | [tok [Hin Heq]]]; [contradiction |].
    right. exists tok. rewrite list_elem_of_In in Hin. split; congruence.
Qed.

Lemma mkNASet_nullish (values : option (list string)) (v : value) :
  nullish v = true -> mkNASet B values v = Return true.
Proof. intros Hn. unfold mkNASet. now rewrite Hn. Qed.

Lemma mkNASet_throws (values : option (list string)) (v : value) (e : exn) :
  nullish v = false -> ToString B v = Throw e -> mkNASet B values v = Throw e.
Proof. intros Hn He. unfold mkNASet. now rewrite Hn, He. Qed.

(** C3 (as amended).  For an enabled policy: a null/undefined value is
    NA; a value whose string form exists is NA exactly when that form
    trims to the empty string or equals, trimmed and case-folded, a
    case-folded token; on a value whose string conversion throws, [isNA]
    and [normalizeNA] throw the same error.  A disabled policy classifies
    nothing as NA and normalizes nothing.  [normalizeNA] gives [null] for
    an NA value, the value itself for any other, and throws where [isNA]
    throws. *)
Theorem na_policy_classifies_and_normalizes (pol : NAPolicy) (v : value) :
  let isNA := policyIsNA B (Some pol) in
  (truthy (na_enabled pol) = true -> nullish v = true -> isNA v = Return true) /\
  (truthy (na_enabled pol) = true -> nullish v = false ->
     forall s, ToString B v = Return s ->
     exists na, isNA v = Return na /\
       (na = true <->
        str_trim B s = "" \/
        exists tok, tok ∈ policyValues pol /\
                    str_lower B (str_trim B s) = str_lower B tok)) /\
  (truthy (na_enabled pol) = true -> nullish v = false ->
     forall e, ToString B v = Throw e ->
     isNA v = Throw e /\ normalizeNA v isNA = Throw e) /\
  (truthy (na_enabled pol) = false ->
     isNA v = Return false /\ normalizeNA v isNA = Return v) /\
  (isNA v = Return true -> normalizeNA v isNA = Return VNull) /\
  (isNA v = Return false -> normalizeNA v isNA = Return v) /\
  (forall e, isNA v = Throw e -> normalizeNA v isNA = Throw e).
Proof.
  cbv zeta. unfold policyIsNA, normalizeNA.
  split; [| split; [| split; [| split; [| split; [| split]]]]].
  - intros He Hn. rewrite He. now apply mkNASet_nullish.
  - intros He Hn s Hs. rewrite He. now apply mkNASet_spec.
  - intros He Hn e Hs. rewrite He. now rewrite (mkNASet_throws _ _ _ Hn Hs).
  - intros He. now rewrite He.
  - intros Hna. now rewrite Hna.
  - intros Hna. now rewrite Hna.
  - intros e Hna. now rewrite Hna.
Qed.

End NAPolicyFacts.

(** The theorem on the sample built-ins, under the default policy: the
    text [" n/a "] is NA and normalizes to [null]; the number 7 is not
    and is returned unchanged. *)
Lemma na_policy_classifies_and_normalizes_witness :
  let isNA := policyIsNA Sample.builtins (Some defaultPolicy) in
  isNA (VStr " n/a ") = Return true /\
  normalizeNA (VStr " n/a ") isNA = Return VNull /\
  isNA (Sample.num 7) = Return false /\
  normalizeNA (Sample.num 7) isNA = Return (Sample.num 7) /\
  isNA VUndefined = Return true.
Proof.
  cbv zeta.
  pose proof (na_policy_classifies_and_normalizes Sample.builtins defaultPolicy
                (VStr " n/a ")) as (_ & Htext & _ & _ & Hnull & _).
  pose proof (na_policy_classifies_and_normalizes Sample.builtins defaultPolicy
                (Sample.num 7)) as (_ & Hnum & _ & _ & _ & Hkeep & _).
  pose proof (na_policy_classifies_and_normalizes Sample.builtins defaultPolicy
                VUndefined) as (Hundef & _).
  cbv zeta in *.
  destruct (Htext eq_refl eq_refl " n/a " eq_refl) as (na & Hna & Hiff).
  assert (Htrue : na = true).
  { apply Hiff. right. exists "N/A". split; [| reflexivity].
    unfold policyValues, defaultPolicy, defaultNAValues. simpl.
    repeat first [apply list_elem_of_here | apply list_elem_of_further]. }
  subst na.
  destruct (Hnum eq_refl eq_refl "7" eq_refl) as (nb & Hnb & Hiffb).
  assert (Hfalse : nb = false).
  { destruct nb; [| reflexivity]. exfalso.
    destruct (proj1 Hiffb eq_refl) as [Hblank | (tok & Hin & Heq)].
    - vm_compute in Hblank. discriminate.
    - unfold policyValues, defaultPolicy, defaultNAValues in Hin. simpl in Hin.
      repeat (apply elem_of_cons in Hin; destruct Hin as [-> | Hin];
              [vm_compute in Heq; discriminate |]).
      now apply elem_of_nil in Hin. }
  subst nb.
  split; [exact Hna |].
  split; [apply Hnull; exact Hna |].
  split; [exact Hnb |].
  split; [apply Hkeep; exact Hnb |].
  apply Hundef; reflexivity.
Defined.

(** C3 as stated fails for a value whose string conversion throws: on
    the object [{"toString": 1}] the predicate built from the default
    policy throws, so the value is neither classified nor returned
    unchanged. *)
Lemma isNA_throws_on_own_toString :
  policyIsNA Sample.builtins (Some defaultPolicy) ownToString
  = Throw cannot_convert /\
  normalizeNA ownToString (policyIsNA Sample.builtins (Some defaultPolicy))
  = Throw cannot_convert.
Proof. split; reflexivity. Qed.

(** ** Value coercion *)

Lemma is_str_true (v : value) (s : string) :
  is_str v s = true <-> v = VStr s.
Proof.
  destruct v; simpl; try (split; [discriminate | discriminate]).
  rewrite String.eqb_eq. split; [now intros -> | now intros [= ->]].
Qed.

Lemma is_str_false (v : value) (s : string) :
  v <> VStr s -> is_str v s = false.
Proof.
  intros Hne. destruct (is_str v s) eqn:Hs; [| reflexivity].
  apply is_str_true in Hs. contradiction.
Qed.

Lemma not_elem_is_str (v : value) (s : string) (l : list value) :
  v ∉ l -> VStr s ∈ l -> is_str v s = false.
Proof.
  intros Hv Hs. apply is_str_false. intros ->. contradiction.
Qed.

(** The transforms that start with a string conversion. *)
Definition convertingTransforms : list value :=
  [VStr "trim"; VStr "lower"; VStr "upper"; VStr "number"; VStr "string"].

Section TransformFacts.
Variable B : Builtins.

(** C8 (as amended).  [applyTransform] raises only where [String(v)]
    raises, and then only for the transforms that convert ([trim],
    [lower], [upper], [number], [string]), with that error; it never
    raises on null/undefined, on a primitive, or on an object without an
    own [toString] property.  Where it returns: [trim], [lower], [upper]
    leave null/undefined alone and otherwise return the trimmed /
    case-mapped string form; [number] gives [null] on null/undefined, on
    a blank string form and on a non-finite parse, and the parsed number
    otherwise; [bool01] gives 1 on truthy and 0 on falsy values, 0
    included; [string] gives the empty string on null/undefined and the
    string form otherwise; [none] and every unknown name are the
    identity. *)
Theorem transforms_postconditions (v : value) :
  (nullish v = true ->
     applyTransform B (VStr "trim") v = Return v /\
     applyTransform B (VStr "lower") v = Return v /\
     applyTransform B (VStr "upper") v = Return v /\
     applyTransform B (VStr "number") v = Return VNull /\
     applyTransform B (VStr "string") v = Return (VStr "")) /\
  (nullish v = false -> forall s, ToString B v = Return s ->
     applyTransform B (VStr "trim") v = Return (VStr (str_trim B s)) /\
     applyTransform B (VStr "lower") v = Return (VStr (str_lower B s)) /\
     applyTransform B (VStr "upper") v = Return (VStr (str_upper B s)) /\
     applyTransform B (VStr "string") v = Return (VStr s) /\
     (str_trim B s = "" -> applyTransform B (VStr "number") v = Return VNull) /\
     exists n, ToNumber B v = Return n /\
       (str_trim B s <> "" ->
        applyTransform B (VStr "number") v
        = Return (if num_is_finite n then VNum n else VNull))) /\
  (nullish v = false -> forall e, ToString B v = Throw e ->
     forall name, name ∈ convertingTransforms ->
     applyTransform B name v = Throw e) /\
  (truthy v = true -> applyTransform B (VStr "bool01") v = Return (VNum num_one)) /\
  (truthy v = false -> applyTransform B (VStr "bool01") v = Return (VNum num_zero)) /\
  applyTransform B (VStr "bool01") (VNum num_zero) = Return (VNum num_zero) /\
  applyTransform B (VStr "none") v = Return v /\
  (forall name, name ∉ transformNames -> applyTransform B name v = Return v) /\
  (forall name, throws (applyTransform B name v) = true ->
     name ∈ convertingTransforms /\ nullish v = false /\
     throws (ToString B v) = true) /\
  (is_array v = false ->
   (forall ps, v = VObj ps -> has_prop "toString" ps = false) ->
   (forall p ps, v <> VObjP p ps) ->
   forall name, throws (applyTransform B name v) = false) /\
  (forall r, applyTransform B (VStr "number") v = Return r ->
     r = VNull \/ exists n, r = VNum n /\ num_is_finite n = true).
Proof.
  assert (Hconv : forall name, name ∈ convertingTransforms ->
            name = VStr "trim" \/ name = VStr "lower" \/ name = VStr "upper" \/
            name = VStr "number" \/ name = VStr "string").
  { intros name Hin. unfold convertingTransforms in Hin.
    repeat (apply elem_of_cons in Hin; destruct Hin as [-> | Hin]; [tauto |]).
    now apply elem_of_nil in Hin. }
  assert (Hthrows : forall name, throws (applyTransform B name v) = true ->
            name ∈ convertingTransforms /\ nullish v = false /\
            throws (ToString B v) = true).
  { intros name. unfold applyTransform, convertingTransforms.
    destruct (is_str name "trim") eqn:H1.
    { apply is_str_true in H1. subst name.
      destruct (nullish v); [discriminate |].
      destruct (ToString B v); [discriminate |]. intros _.
      split; [| auto]. repeat first [apply list_elem_of_here | apply list_elem_of_further]. }
    destruct (is_str name "lower") eqn:H2.
    { apply is_str_true in H2. subst name.
      destruct (nullish v); [discriminate |].
      destruct (ToString B v); [discriminate |]. intros _.
      split; [| auto]. repeat first [apply list_elem_of_here | apply list_elem_of_further]. }
    destruct (is_str name "upper") eqn:H3.
    { apply is_str_true in H3. subst name.
      destruct (nullish v); [discriminate |].
      destruct (ToString B v); [discriminate |]. intros _.
      split; [| auto]. repeat first [apply list_elem_of_here | apply list_elem_of_further]. }
    destruct (is_str name "number") eqn:H4.
    { apply is_str_true in H4. subst name.
      destruct (nullish v); [discriminate |].
      destruct (ToString B v) as [s | e] eqn:Hs; simpl.
      - destruct (String.eqb (str_trim B s) ""); [discriminate |].
        destruct (ToNumber_returns B v s Hs) as [n Hn]. rewrite Hn. discriminate.
      - intros _. split; [| auto].
        repeat first [apply list_elem_of_here | apply list_elem_of_further]. }
    destruct (is_str name "bool01"); [discriminate |].
    destruct (is_str name "string") eqn:H6.
    { apply is_str_true in H6. subst name.
      destruct (nullish v); [discriminate |].
      destruct (ToString B v); [discriminate |]. intros _.
      split; [| auto]. repeat first [apply list_elem_of_here | apply list_elem_of_further]. }
    discriminate. }
  split; [| split; [| split; [| split; [| split; [| split; [| split;
    [| split; [| split; [| split]]]]]]]]].
  - intros Hn. unfold applyTransform. simpl. now rewrite Hn.
  - intros Hn s Hs. unfold applyTransform. simpl. rewrite Hn, Hs. simpl.
    split; [reflexivity |]. split; [reflexivity |]. split; [reflexivity |].
    split; [reflexivity |].
    split.
    + intros ->. now rewrite String.eqb_refl.
    + destruct (ToNumber_returns B v s Hs) as [n Hnum]. exists n.
      split; [assumption |]. intros Hne.
      apply String.eqb_neq in Hne. rewrite Hne, Hnum. reflexivity.
  - intros Hn e He name Hin.
    destruct (Hconv name Hin) as [-> | [-> | [-> | [-> | ->]]]];
      unfold applyTransform; simpl; now rewrite Hn, He.
  - intros Ht. unfold applyTransform. simpl. now rewrite Ht.
  - intros Ht. unfold applyTransform. simpl. now rewrite Ht.
  - reflexivity.
  - reflexivity.
  - intros name Hname. unfold applyTransform.
    rewrite !is_str_false; [reflexivity | ..];
      intros ->; apply Hname; unfold transformNames;
      repeat first [apply list_elem_of_here | apply list_elem_of_further].
  - exact Hthrows.
  - intros Harr Hobj Hlinked name.
    destruct (throws (applyTransform B name v)) eqn:Ht; [| reflexivity].
    destruct (Hthrows name Ht) as (_ & _ & Hs). exfalso.
    destruct v as [| | b | n | s | items | ps | p ps]; try discriminate.
    + now destruct b.
    + rewrite ToString_object, (Hobj ps eq_refl) in Hs. discriminate.
    + now apply (Hlinked p ps).
  - intros r. unfold applyTransform. simpl.
    destruct (nullish v); [intros [= <-]; now left |].
    destruct (ToString B v) as [s | e]; [simpl | discriminate].
    destruct (String.eqb (str_trim B s) ""); [intros [= <-]; now left |].
    destruct (ToNumber B v) as [n | e]; [simpl | discriminate].
    intros [= <-]. destruct (num_is_finite n) eqn:Hf; [right; eauto | now left].
Qed.

End TransformFacts.

(** The theorem at the text [" 42 "], on the sample built-ins. *)
Lemma transforms_postconditions_witness :
  applyTransform Sample.builtins (VStr "trim") (VStr " 42 ") = Return (VStr "42") /\
  applyTransform Sample.builtins (VStr "number") (VStr " 42 ") = Return (Sample.num 42) /\
  applyTransform Sample.builtins (VStr "number") (VStr "  ") = Return VNull /\
  applyTransform Sample.builtins (VStr "bool01") (VStr " 42 ") = Return (VNum num_one) /\
  applyTransform Sample.builtins (VStr "string") VNull = Return (VStr "") /\
  applyTransform Sample.builtins (VStr "titlecase") (VStr " 42 ") = Return (VStr " 42 ") /\
  applyTransform Sample.builtins (VStr "upper") ownToString = Throw cannot_convert /\
  throws (applyTransform Sample.builtins (VStr "lower") (VObj [("a", VNull)])) = false.
Proof.
  pose proof (transforms_postconditions Sample.builtins (VStr " 42 "))
    as (_ & Hcase & _ & Htrue & _ & _ & _ & Hother & _).
  pose proof (transforms_postconditions Sample.builtins (VStr "  "))
    as (_ & Hblank & _).
  pose proof (transforms_postconditions Sample.builtins VNull) as (Hnull & _).
  pose proof (transforms_postconditions Sample.builtins ownToString)
    as (_ & _ & Hraise & _).
  pose proof (transforms_postconditions Sample.builtins (VObj [("a", VNull)]))
    as (_ & _ & _ & _ & _ & _ & _ & _ & _ & Hquiet & _).
  destruct (Hcase eq_refl " 42 " eq_refl) as (Htrim & _ & _ & _ & _ & n & Hn & Hnum).
  destruct (Hblank eq_refl "  " eq_refl) as (_ & _ & _ & _ & Hnone & _).
  injection Hn as <-.
  split; [exact Htrim |].
  split; [apply Hnum; vm_compute; discriminate |].
  split; [apply Hnone; reflexivity |].
  split; [apply Htrue; reflexivity |].
  split; [apply (Hnull eq_refl) |].
  split.
  { apply Hother. unfold transformNames. intros Hin.
    repeat (apply elem_of_cons in Hin; destruct Hin as [Hin | Hin]; [discriminate |]).
    now apply elem_of_nil in Hin. }
  split.
  { apply (Hraise eq_refl cannot_convert eq_refl). unfold convertingTransforms.
    repeat first [apply list_elem_of_here | apply list_elem_of_further]. }
  apply Hquiet; [reflexivity | | discriminate].
  intros ps [= <-]. reflexivity.
Defined.

(** C8 as stated fails: a transform that converts raises on a JSON value
    whose string conversion throws, an object with an own [toString]
    property or an array that holds one. *)
Lemma applyTransform_throws_on_own_toString :
  applyTransform Sample.builtins (VStr "trim") ownToString = Throw cannot_convert /\
  applyTransform Sample.builtins (VStr "number") ownToString = Throw cannot_convert /\
  applyTransform Sample.builtins (VStr "string") (VArr [Sample.num 1; ownToString])
  = Throw cannot_convert.
Proof. repeat split; reflexivity. Qed.

(** ** The typed evaluator *)

(** The types whose branch of [evalTyped] starts with [String(src)]. *)
Definition stringTypes : list value :=
  [VStr "msg"; VStr "flow"; VStr "global"; VStr "env"; VStr "path"].

(** The types whose branch of [evalTyped] has a call that can throw:
    the lookups, the JSONata evaluation and the two conversions. *)
Definition callingTypes : list value :=
  [VStr "msg"; VStr "flow"; VStr "global"; VStr "env"; VStr "path";
   VStr "jsonata"; VStr "str"; VStr "num"].

Section EvalFacts.
Context {W : Type}.
Variable B : Builtins.
Variable H : Host W.

Lemma jsonataEval_throw (c : Ctx W) (expr data : value) (e : exn) :
  jsonataEval B H c expr data = Throw e <->
  (nullish expr || is_str expr "")%bool = false /\
  (ToString B expr = Throw e \/
   exists text,
     ToString B expr = Return text /\
     (prepareJSONataExpression H c text = Throw e \/
      exists compiled,
        prepareJSONataExpression H c text = Return compiled /\
        evaluateJSONataExpression H c compiled data = Throw e)).
Proof.
  unfold jsonataEval. destruct (nullish expr || is_str expr "")%bool.
  - split; [discriminate | intros [? _]; discriminate].
  - destruct (ToString B expr) as [text | e0]; simpl.
    + destruct (prepareJSONataExpression H c text) as [compiled | e'] eqn:Hp; simpl.
      * split.
        -- intros He. split; [reflexivity |]. right. exists text.
           split; [reflexivity |]. right. now exists compiled.
        -- intros [_ [Hs | (text' & [= <-] & [Hq | (compiled' & Hq & He)])]];
             [discriminate | congruence | congruence].
      * split.
        -- intros [= ->]. split; [reflexivity |]. right. exists text.
           split; [reflexivity | now left].
        -- intros [_ [Hs | (text' & [= <-] & [Hq | (compiled' & Hq & He)])]];
             [discriminate | congruence | congruence].
    + split.
      * intros [= ->]. split; [reflexivity | now left].
      * intros [_ [[= ->] | (text' & Hs & _)]]; [reflexivity | discriminate].
Qed.

Lemma evalTyped_quiet_types (c : Ctx W) (type src rowCtx : value) :
  type ∉ callingTypes -> throws (evalTyped B H c type src rowCtx) = false.
Proof.
  intros Htype. unfold evalTyped.
  assert (Hin : forall s, VStr s ∈ callingTypes -> is_str type s = false)
    by (intros s Hs; now apply (not_elem_is_str type s callingTypes)).
  rewrite (Hin "msg"), (Hin "flow"), (Hin "global"), (Hin "env"), (Hin "path"),
    (Hin "jsonata"), (Hin "str"), (Hin "num")
    by (unfold callingTypes;
        repeat first [apply list_elem_of_here | apply list_elem_of_further]).
  destruct (is_str type "bool"); [reflexivity |].
  destruct (is_str type "json"); [| reflexivity].
  destruct src as [| | | | text | | |]; try reflexivity.
  now destruct (json_parse B text).
Qed.

(** C1 (as amended).  On the types [msg], [flow] and [global],
    [evalTyped] is the host lookup at [String(src)]: it returns what the
    lookup returns and throws exactly what the lookup throws.  [env] and
    [path] return once [String(src)] has returned, [path] turning a
    failed lookup into [undefined].  Where [String(src)] throws, these
    five types throw its error; [str] and [num] return or throw as
    [String(src ?? "")] and [Number(src)] do.  The types [bool] and
    [json] and every unknown type never throw, and with a primitive
    [src] (text in particular) no type other than [msg], [flow],
    [global] and [jsonata] throws.  On [jsonata] the evaluator rejects
    exactly with the error of the conversion, of the compilation or of
    the evaluation. *)
Theorem evalTyped_raises_through_host_or_conversion (c : Ctx W) (src rowCtx : value) :
  (forall p, ToString B src = Return p ->
     evalTyped B H c (VStr "msg") src rowCtx = getMessageProperty H c (VStr p) /\
     evalTyped B H c (VStr "flow") src rowCtx = flowGet H c (VStr p) /\
     evalTyped B H c (VStr "global") src rowCtx = globalGet H c (VStr p) /\
     evalTyped B H c (VStr "env") src rowCtx
     = Return (or_else (envGet H p) (VStr "")) /\
     evalTyped B H c (VStr "path") src rowCtx
     = Return (getObjectProperty H c (coalesce rowCtx (msgValue H c)) (VStr p)) /\
     (forall e,
        utilGetObjectProperty H c (coalesce rowCtx (msgValue H c)) (VStr p) = Throw e ->
        evalTyped B H c (VStr "path") src rowCtx = Return VUndefined)) /\
  (forall e, ToString B src = Throw e ->
     forall type, type ∈ stringTypes -> evalTyped B H c type src rowCtx = Throw e) /\
  (forall s, ToString B (coalesce src (VStr "")) = Return s ->
     evalTyped B H c (VStr "str") src rowCtx = Return (VStr s)) /\
  (forall e, ToString B (coalesce src (VStr "")) = Throw e ->
     evalTyped B H c (VStr "str") src rowCtx = Throw e) /\
  (forall n, ToNumber B src = Return n ->
     evalTyped B H c (VStr "num") src rowCtx = Return (VNum n)) /\
  (forall e, ToNumber B src = Throw e ->
     evalTyped B H c (VStr "num") src rowCtx = Throw e) /\
  (forall type, type ∉ callingTypes ->
     throws (evalTyped B H c type src rowCtx) = false) /\
  (forall type, type ∉ raisingTypes ->
     is_array src = false -> isObj src = false ->
     throws (evalTyped B H c type src rowCtx) = false) /\
  (forall e,
     evalTyped B H c (VStr "jsonata") src rowCtx = Throw e <->
     (nullish src || is_str src "")%bool = false /\
     (ToString B src = Throw e \/
      exists text,
        ToString B src = Return text /\
        (prepareJSONataExpression H c text = Throw e \/
         exists compiled,
           prepareJSONataExpression H c text = Return compiled /\
           evaluateJSONataExpression H c compiled
             (if negb (nullish rowCtx) then withMsg B rowCtx (msgValue H c)
              else msgValue H c) = Throw e))).
Proof.
  split; [| split; [| split; [| split; [| split; [| split; [| split; [| split]]]]]]].
  - intros p Hp. unfold evalTyped. simpl. rewrite Hp. simpl.
    repeat (split; [reflexivity |]).
    intros e He. unfold getObjectProperty. now rewrite He.
  - intros e He type Hin. unfold stringTypes in Hin.
    repeat (apply elem_of_cons in Hin;
            destruct Hin as [-> | Hin];
            [unfold evalTyped; simpl; now rewrite He |]).
    now apply elem_of_nil in Hin.
  - intros s Hs. unfold evalTyped. simpl. now rewrite Hs.
  - intros e He. unfold evalTyped. simpl. now rewrite He.
  - intros n Hn. unfold evalTyped. simpl. now rewrite Hn.
  - intros e He. unfold evalTyped. simpl. now rewrite He.
  - intros type Htype. now apply evalTyped_quiet_types.
  - intros type Htype Harr Hobj.
    assert (Hs : throws (ToString B src) = false) by now apply ToString_primitive.
    assert (Hs' : throws (ToString B (coalesce src (VStr ""))) = false).
    { unfold coalesce. destruct (nullish src); [reflexivity | assumption]. }
    assert (Hn : throws (ToNumber B src) = false).
    { destruct (ToNumber B src) as [n | e] eqn:Hnum; [reflexivity |].
      apply ToNumber_throws in Hnum. now rewrite Hnum in Hs. }
    unfold evalTyped.
    assert (Hin : forall s, VStr s ∈ raisingTypes -> is_str type s = false)
      by (intros s Hin; now apply (not_elem_is_str type s raisingTypes)).
    rewrite (Hin "msg"), (Hin "flow"), (Hin "global"), (Hin "jsonata")
      by (unfold raisingTypes;
          repeat first [apply list_elem_of_here | apply list_elem_of_further]).
    clear Hin.
    destruct (ToString B src) as [p | e]; [simpl | discriminate].
    destruct (ToString B (coalesce src (VStr ""))) as [s | e]; [simpl | discriminate].
    destruct (ToNumber B src) as [n | e]; [simpl | discriminate].
    repeat match goal with
           | |- context [if ?b then _ else _] => destruct b; try reflexivity
           end.
    destruct src as [| | | | text | | |]; try reflexivity.
    now destruct (json_parse B text).
  - intros e. unfold evalTyped. simpl. apply jsonataEval_throw.
Qed.

End EvalFacts.

(** The theorem on the sample host: a [path] lookup below a missing
    parent yields [undefined], a text source of type [num] does not
    throw, and a source with an own [toString] throws on type [env]. *)
Lemma evalTyped_raises_through_host_or_conversion_witness :
  evalTyped Sample.builtins Sample.host (Sample.ctxOf (VObj []) [] [])
    (VStr "path") (VStr "a.b") VUndefined = Return VUndefined /\
  throws (evalTyped Sample.builtins Sample.host (Sample.ctxOf (VObj []) [] [])
            (VStr "num") (VStr "a.b") VUndefined) = false /\
  evalTyped Sample.builtins Sample.host (Sample.ctxOf (VObj []) [] [])
    (VStr "env") ownToString VUndefined = Throw cannot_convert.
Proof.
  pose proof (evalTyped_raises_through_host_or_conversion Sample.builtins Sample.host
                (Sample.ctxOf (VObj []) [] []) (VStr "a.b") VUndefined)
    as (Hret & _ & _ & _ & _ & _ & _ & Hquiet & _).
  pose proof (evalTyped_raises_through_host_or_conversion Sample.builtins Sample.host
                (Sample.ctxOf (VObj []) [] []) ownToString VUndefined)
    as (_ & Hraise & _).
  destruct (Hret "a.b" eq_refl) as (_ & _ & _ & _ & _ & Hpath).
  split; [| split].
  - apply (Hpath (Exn "Cannot read properties of undefined (reading 'b')")).
    reflexivity.
  - apply Hquiet; [| reflexivity | reflexivity]. unfold raisingTypes. intros Hin.
    repeat (apply elem_of_cons in Hin; destruct Hin as [Hin | Hin]; [discriminate |]).
    now apply elem_of_nil in Hin.
  - apply (Hraise cannot_convert eq_refl). unfold stringTypes.
    repeat first [apply list_elem_of_here | apply list_elem_of_further].
Defined.

(** C1 as stated fails: on the sample host, whose message lookup follows
    [RED.util.getMessageProperty], a source of type [msg] whose parent
    property does not exist makes [evalTyped] throw instead of returning
    [undefined]. *)
Lemma evalTyped_msg_can_throw :
  evalTyped Sample.builtins Sample.host (Sample.ctxOf (VObj []) [] [])
    (VStr "msg") (VStr "a.b") VUndefined
  = Throw (Exn "Cannot read properties of undefined (reading 'b')").
Proof. reflexivity. Qed.
(** ** What the stages do to the run context *)

Lemma warnsOnly_refl {W} (c : Ctx W) : warnsOnly c c.
Proof. repeat split. exists []. now rewrite app_nil_r. Qed.

Lemma warnsOnly_trans {W} (c1 c2 c3 : Ctx W) :
  warnsOnly c1 c2 -> warnsOnly c2 c3 -> warnsOnly c1 c3.
Proof.
  intros (Hs1 & He1 & ws1 & Hw1) (Hs2 & He2 & ws2 & Hw2).
  repeat split; [congruence | congruence |].
  exists (ws1 ++ ws2). rewrite Hw2, Hw1. now rewrite app_assoc.
Qed.

Lemma warnsOnly_push {W} (c : Ctx W) (s : string) : warnsOnly c (pushWarning c s).
Proof. repeat split. now exists [s]. Qed.

Lemma warnsOnly_appends {W} (c c' : Ctx W) : warnsOnly c c' -> appends c c'.
Proof.
  intros (_ & He & Hw). split; [assumption |].
  exists []. now rewrite app_nil_r.
Qed.

Lemma appends_refl {W} (c : Ctx W) : appends c c.
Proof. split; exists []; now rewrite app_nil_r. Qed.

Lemma appends_trans {W} (c1 c2 c3 : Ctx W) :
  appends c1 c2 -> appends c2 c3 -> appends c1 c3.
Proof.
  intros [[ws1 Hw1] [es1 He1]] [[ws2 Hw2] [es2 He2]]. split.
  - exists (ws1 ++ ws2). rewrite Hw2, Hw1. now rewrite app_assoc.
  - exists (es1 ++ es2). rewrite He2, He1. now rewrite app_assoc.
Qed.

Lemma appends_pushError {W} (c : Ctx W) (s : string) : appends c (pushError c s).
Proof. split; [exists []; simpl; now rewrite app_nil_r | now exists [s]]. Qed.

Lemma appends_withStores {W} (c : Ctx W) (w : W) : appends c (withStores c w).
Proof. split; exists []; simpl; now rewrite app_nil_r. Qed.

Create HintDb ctx.
#[local] Hint Resolve warnsOnly_refl warnsOnly_push appends_refl
  appends_pushError appends_withStores warnsOnly_appends : ctx.

Lemma isObj_toValue (o : object) : isObj (toValue o) = true.
Proof. destruct o as [[| p] ps]; reflexivity. Qed.

Lemma ownProps_toValue (B : Builtins) (o : object) : ownProps B (toValue o) = own o.
Proof. destruct o as [[| p] ps]; reflexivity. Qed.

Section StageFacts.
Context {W : Type}.
Variable B : Builtins.
Variable H : Host W.

(** *** Filter *)

Lemma filterRows_spec (tag : string) (rule : Rule) (scope : list value) (c : Ctx W) :
  warnsOnly c (fst (filterRows B H tag rule c scope)) /\
  snd (filterRows B H tag rule c scope) `sublist_of` scope.
Proof.
  revert c. induction scope as [| row rest IH]; intros c; simpl.
  - split; [auto with ctx | constructor].
  - destruct (evalTyped B H c _ (r_filter rule) row) as [keep | e].
    + destruct (IH c) as [Hc Hsub].
      destruct (filterRows B H tag rule c rest) as [c' out]. simpl in *.
      split; [assumption |].
      destruct (truthy keep); now constructor.
    + destruct (IH (pushWarning c (tag ++ " filter error on row: " ++ message e)))
        as [Hc Hsub].
      split; [| now constructor].
      eapply warnsOnly_trans; [apply warnsOnly_push | exact Hc].
Qed.

Lemma filterStage_spec (tag : string) (rule : Rule) (scope : list value) (c : Ctx W) :
  warnsOnly c (fst (filterStage B H tag rule c scope)) /\
  snd (filterStage B H tag rule c scope) `sublist_of` scope /\
  (truthy (r_filter rule) = false -> filterStage B H tag rule c scope = (c, scope)).
Proof.
  unfold filterStage. destruct (truthy (r_filter rule)).
  - destruct (filterRows_spec tag rule scope c).
    split; [assumption | split; [assumption | discriminate]].
  - simpl. split; [auto with ctx | split; [reflexivity | reflexivity]].
Qed.

(** *** Map *)

Lemma assignField_warnsOnly tag isNA (c : Ctx W) row rec m :
  warnsOnly c (fst (assignField B H tag isNA c row rec m)).
Proof.
  unfold assignField. destruct (fieldValue B H isNA c row m); simpl; auto with ctx.
Qed.

Lemma mapField_warnsOnly tag isNA (c : Ctx W) row rec m :
  warnsOnly c (fst (mapField B H tag isNA c row rec m)).
Proof.
  unfold mapField. destruct (truthy (m_when m)).
  - destruct (evalTyped B H c _ (m_when m) row) as [w | e]; simpl; auto with ctx.
    destruct (truthy w); simpl; auto using assignField_warnsOnly with ctx.
  - apply assignField_warnsOnly.
Qed.

Lemma mapFields_warnsOnly tag isNA row maps (c : Ctx W) rec :
  warnsOnly c (fst (mapFields B H tag isNA c row rec maps)).
Proof.
  revert c rec. induction maps as [| m rest IH]; intros c rec; simpl.
  - auto with ctx.
  - pose proof (mapField_warnsOnly tag isNA c row rec m) as Hm.
    destruct (mapField B H tag isNA c row rec m) as [c' rec']. simpl in Hm.
    eapply warnsOnly_trans; [exact Hm | apply IH].
Qed.

Lemma mapRows_spec tag isNA maps rows (c : Ctx W) :
  warnsOnly c (fst (mapRows B H tag isNA maps c rows)) /\
  length (snd (mapRows B H tag isNA maps c rows)) = length rows /\
  Forall (fun r => isObj r = true) (snd (mapRows B H tag isNA maps c rows)).
Proof.
  revert c. induction rows as [| row rest IH]; intros c; simpl.
  - split; [auto with ctx | split; [reflexivity | constructor]].
  - pose proof (mapFields_warnsOnly tag isNA row maps c emptyObject) as Hf.
    destruct (mapFields B H tag isNA c row emptyObject maps) as [c1 rec]. simpl in Hf.
    destruct (IH c1) as (Hc & Hlen & Hobj).
    destruct (mapRows B H tag isNA maps c1 rest) as [c2 out]. simpl in *.
    split; [| split].
    + eapply warnsOnly_trans; eassumption.
    + now rewrite Hlen.
    + constructor; [apply isObj_toValue | assumption].
Qed.

Lemma mapStage_warnsOnly tag isNA rule rows (c : Ctx W) :
  warnsOnly c (fst (mapStage B H tag isNA rule c rows)).
Proof.
  unfold mapStage. destruct (r_map rule) as [| m maps]; simpl; [auto with ctx |].
  apply (mapRows_spec tag isNA (m :: maps) rows c).
Qed.


End StageFacts.


(** ** Own properties *)

Lemma replace_prop_length k v ps : length (replace_prop k v ps) = length ps.
Proof.
  induction ps as [| [k' v'] rest IH]; simpl; [reflexivity |].
  destruct (String.eqb k k'); simpl; congruence.
Qed.

Lemma insert_index_length n k v ps : length (insert_index n k v ps) = S (length ps).
Proof.
  induction ps as [| [k' v'] rest IH]; simpl; [reflexivity |].
  destruct (array_index k') as [n' |]; [| reflexivity].
  destruct (N.ltb n n'); simpl; congruence.
Qed.

Lemma obj_define_length k v ps :
  length (obj_define k v ps) = if has_prop k ps then length ps else S (length ps).
Proof.
  unfold obj_define. destruct (has_prop k ps).
  - apply replace_prop_length.
  - destruct (array_index k); [apply insert_index_length |].
    rewrite length_app. simpl. lia.
Qed.

Lemma obj_set_length_le k v o : length (own (obj_set k v o)) <= S (length (own o)).
Proof.
  unfold obj_set. destruct (_ && _)%bool.
  - destruct (object_or_null v); simpl; lia.
  - simpl. rewrite obj_define_length. destruct (has_prop k (own o)); lia.
Qed.

Lemma lookup_replace_prop_eq k v ps :
  has_prop k ps = true -> lookup_prop k (replace_prop k v ps) = Some v.
Proof.
  unfold has_prop. induction ps as [| [k' v'] rest IH]; simpl; [discriminate |].
  destruct (String.eqb k k') eqn:Hk; simpl; rewrite Hk; [reflexivity | exact IH].
Qed.

Lemma lookup_replace_prop_ne k k0 v ps :
  k0 <> k -> lookup_prop k0 (replace_prop k v ps) = lookup_prop k0 ps.
Proof.
  intros Hne. induction ps as [| [k' v'] rest IH]; simpl; [reflexivity |].
  destruct (String.eqb k k') eqn:Hk; simpl.
  - apply String.eqb_eq in Hk. subst k'.
    apply String.eqb_neq in Hne. now rewrite Hne.
  - now rewrite IH.
Qed.

Lemma lookup_insert_index_eq n k v ps :
  lookup_prop k ps = None -> lookup_prop k (insert_index n k v ps) = Some v.
Proof.
  induction ps as [| [k' v'] rest IH]; simpl; intros Hnone.
  - now rewrite String.eqb_refl.
  - destruct (String.eqb k k') eqn:Hk; [discriminate |].
    destruct (array_index k') as [n' |]; [destruct (N.ltb n n') |]; simpl;
      rewrite ?String.eqb_refl, ?Hk; auto.
Qed.

Lemma lookup_insert_index_ne k0 n k v ps :
  k0 <> k -> lookup_prop k0 (insert_index n k v ps) = lookup_prop k0 ps.
Proof.
  intros Hne. apply String.eqb_neq in Hne.
  induction ps as [| [k' v'] rest IH]; simpl.
  - now rewrite Hne.
  - destruct (array_index k') as [n' |]; [destruct (N.ltb n n') |]; simpl;
      rewrite ?Hne, ?IH; reflexivity.
Qed.

Lemma lookup_app_last_eq k v ps :
  lookup_prop k ps = None -> lookup_prop k (ps ++ [(k, v)]) = Some v.
Proof.
  induction ps as [| [k' v'] rest IH]; simpl; intros Hnone.
  - now rewrite String.eqb_refl.
  - destruct (String.eqb k k'); [discriminate | auto].
Qed.

Lemma lookup_app_last_ne k0 k v ps :
  k0 <> k -> lookup_prop k0 (ps ++ [(k, v)]) = lookup_prop k0 ps.
Proof.
  intros Hne. apply String.eqb_neq in Hne.
  induction ps as [| [k' v'] rest IH]; simpl.
  - now rewrite Hne.
  - now rewrite IH.
Qed.

Lemma has_prop_false k ps : has_prop k ps = false -> lookup_prop k ps = None.
Proof. unfold has_prop. now destruct (lookup_prop k ps). Qed.

(** After CreateDataProperty the own value at [k] is [v]. *)
Lemma lookup_obj_define_eq k v ps : lookup_prop k (obj_define k v ps) = Some v.
Proof.
  unfold obj_define. destruct (has_prop k ps) eqn:Hk.
  - now apply lookup_replace_prop_eq.
  - apply has_prop_false in Hk.
    destruct (array_index k); [now apply lookup_insert_index_eq |].
    now apply lookup_app_last_eq.
Qed.

(** The other keys keep their values. *)
Lemma lookup_obj_define_ne k0 k v ps :
  k0 <> k -> lookup_prop k0 (obj_define k v ps) = lookup_prop k0 ps.
Proof.
  intros Hne. unfold obj_define. destruct (has_prop k ps).
  - now apply lookup_replace_prop_ne.
  - destruct (array_index k); [now apply lookup_insert_index_ne |].
    now apply lookup_app_last_ne.
Qed.

(** After [o[k] = v], for a key other than [__proto__], the own value at
    [k] is [v]. *)
Lemma lookup_obj_set_eq k v o :
  k <> "__proto__" -> lookup_prop k (own (obj_set k v o)) = Some v.
Proof.
  intros Hne. unfold obj_set. apply String.eqb_neq in Hne. rewrite Hne. simpl.
  apply lookup_obj_define_eq.
Qed.

Lemma lookup_obj_set_ne k0 k v o :
  k0 <> k -> lookup_prop k0 (own (obj_set k v o)) = lookup_prop k0 (own o).
Proof.
  intros Hne. unfold obj_set. destruct (_ && _)%bool.
  - now destruct (object_or_null v).
  - now apply lookup_obj_define_ne.
Qed.

(** ** Aggregators *)

Lemma set_add_Forall (P : string -> Prop) (s : string) (l : list string) :
  P s -> Forall P l -> Forall P (set_add s l).
Proof.
  intros Hs Hl. unfold set_add. destruct (set_has s l); [assumption |].
  apply Forall_app. split; [assumption | now constructor].
Qed.

Section AggregateFacts.
Context {W : Type}.
Variable B : Builtins.
Variable H : Host W.

(** An entry that the [try] block of the set loop adds is the string
    form, not blank, of the record's normalized value, which is not
    null. *)
Lemma setEntry_some isNA agg (c : Ctx W) row s :
  setEntry B H isNA agg c row = Return (Some s) <->
  exists v v',
    setValue B H agg c row = Return v /\ normalizeNA v isNA = Return v' /\
    nullish v' = false /\ ToString B v' = Return s /\ str_trim B s <> "".
Proof.
  unfold setEntry.
  destruct (setValue B H agg c row) as [v | e] eqn:Hv; simpl.
  2: { split; [discriminate | intros (v & v' & Hv' & _); discriminate]. }
  destruct (normalizeNA v isNA) as [v' | e] eqn:Hnorm; simpl.
  2: { split; [discriminate | intros (v0 & v' & [= <-] & Hn & _)]. congruence. }
  destruct (nullish v') eqn:Hn.
  { split; [discriminate | intros (v0 & v1 & [= <-] & Hn1 & Hn' & _)]. congruence. }
  destruct (ToString B v') as [s' | e] eqn:Hs; simpl.
  2: { split; [discriminate | intros (v0 & v1 & [= <-] & Hn1 & _ & Hs' & _)].
       congruence. }
  destruct (String.eqb (str_trim B s') "") eqn:Hb.
  - split; [discriminate |].
    intros (v0 & v1 & [= <-] & Hn1 & _ & Hs' & Hne).
    apply String.eqb_eq in Hb. congruence.
  - apply String.eqb_neq in Hb. split.
    + intros [= <-]. exists v, v'. auto.
    + intros (v0 & v1 & [= <-] & Hn1 & _ & Hs' & Hne). congruence.
Qed.

Lemma setLoop_spec tag isNA agg mapped (c : Ctx W) (out : list string) :
  warnsOnly c (fst (setLoop B H tag isNA agg c mapped out)) /\
  (exists ext, snd (setLoop B H tag isNA agg c mapped out) = out ++ ext) /\
  (NoDup out -> NoDup (snd (setLoop B H tag isNA agg c mapped out))) /\
  (Forall (nonblank B) out -> Forall (nonblank B) (snd (setLoop B H tag isNA agg c mapped out))).
Proof.
  revert c out. induction mapped as [| row rest IH]; intros c out; simpl.
  - split; [auto with ctx |]. split; [exists []; now rewrite app_nil_r | auto].
  - destruct (setEntry B H isNA agg c row) as [[s |] | e] eqn:Hentry.
    + destruct (IH c (set_add s out)) as (Hc & [ext Hext] & Hnd & Hnb).
      split; [assumption |]. split; [| split].
      * destruct (set_add_prefix s out) as [ext0 Hext0].
        exists (ext0 ++ ext). rewrite Hext, Hext0. now rewrite app_assoc.
      * intros Hout. apply Hnd. now apply set_add_NoDup.
      * intros Hout. apply Hnb. apply set_add_Forall; [| assumption].
        apply setEntry_some in Hentry.
        destruct Hentry as (v & v' & _ & _ & _ & _ & Hne). exact Hne.
    + apply IH.
    + destruct (IH (pushWarning c (tag ++ " set valueExpr error: " ++ message e)) out)
        as (Hc & Hext & Hnd & Hnb).
      split; [| auto].
      eapply warnsOnly_trans; [apply warnsOnly_push | exact Hc].
Qed.

Lemma objectByKey_spec tag agg mapped (c : Ctx W) (obj : object) :
  warnsOnly c (fst (objectByKey B H tag agg c mapped obj)) /\
  length (own (snd (objectByKey B H tag agg c mapped obj)))
  <= length (own obj) + length mapped.
Proof.
  revert c obj. induction mapped as [| row rest IH]; intros c obj; simpl.
  - split; [auto with ctx | lia].
  - destruct (keyOf B H agg c row) as [k | e].
    + destruct (IH c (obj_set k row obj)) as [Hc Hlen].
      split; [assumption |].
      pose proof (obj_set_length_le k row obj). lia.
    + destruct (IH (pushWarning c (tag ++ " objectByKey keyExpr error: " ++ message e)) obj)
        as [Hc Hlen].
      split; [| lia].
      eapply warnsOnly_trans; [apply warnsOnly_push | exact Hc].
Qed.

Lemma aggregateStage_warnsOnly tag isNA rule mapped (c : Ctx W) :
  warnsOnly c (fst (aggregateStage B H tag isNA rule c mapped)).
Proof.
  unfold aggregateStage.
  repeat match goal with
         | |- context [if is_str ?m ?s then _ else _] =>
             destruct (is_str m s); simpl; auto with ctx
         end.
  - pose proof (objectByKey_spec tag (r_aggregate rule) mapped c emptyObject) as [Hc _].
    now destruct (objectByKey B H tag (r_aggregate rule) c mapped emptyObject).
  - pose proof (setLoop_spec tag isNA (r_aggregate rule) mapped c []) as [Hc _].
    now destruct (setLoop B H tag isNA (r_aggregate rule) c mapped []).
Qed.

Lemma aggMode_set_dispatch tag isNA rule mapped (c : Ctx W) :
  is_str (aggMode rule) "set" = true ->
  aggregateStage B H tag isNA rule c mapped
  = (fst (setLoop B H tag isNA (r_aggregate rule) c mapped []),
     VArr (map VStr (snd (setLoop B H tag isNA (r_aggregate rule) c mapped [])))).
Proof.
  intros Hm. unfold aggregateStage. apply is_str_true in Hm. rewrite Hm. simpl.
  now destruct (setLoop B H tag isNA (r_aggregate rule) c mapped []).
Qed.

(** C5.  In [set] mode the result is an array of strings (so it holds no
    [null] and no [undefined]), none of them blank after trimming and no
    two of them equal; entries keep the order of their first insertion:
    every step extends the collection at its end, by the string form of
    the record's normalized value when that value is not null, its
    string form is not blank and is new; a null or blank value changes
    nothing; a record for which the value evaluation, the normalization
    or the string conversion throws pushes one warning and changes
    nothing else. *)
Theorem set_aggregate_distinct_nonblank tag isNA (rule : Rule) (c : Ctx W)
  (mapped : list value) :
  is_str (aggMode rule) "set" = true ->
  (exists c' out,
     aggregateStage B H tag isNA rule c mapped = (c', VArr (map VStr out)) /\
     NoDup out /\ Forall (nonblank B) out /\
     Forall (fun x => nullish x = false) (map VStr out)) /\
  (forall agg c0 rows out,
     exists ext, snd (setLoop B H tag isNA agg c0 rows out) = out ++ ext) /\
  (forall agg c0 row rest out v v' s,
     setValue B H agg c0 row = Return v ->
     normalizeNA v isNA = Return v' ->
     nullish v' = false ->
     ToString B v' = Return s ->
     str_trim B s <> "" ->
     setLoop B H tag isNA agg c0 (row :: rest) out
     = setLoop B H tag isNA agg c0 rest
         (if set_has s out then out else out ++ [s])) /\
  (forall agg c0 row rest out v v',
     setValue B H agg c0 row = Return v ->
     normalizeNA v isNA = Return v' ->
     (nullish v' = true \/ exists s, ToString B v' = Return s /\ str_trim B s = "") ->
     setLoop B H tag isNA agg c0 (row :: rest) out
     = setLoop B H tag isNA agg c0 rest out) /\
  (forall agg c0 row rest out e,
     (setValue B H agg c0 row = Throw e \/
      exists v,
        setValue B H agg c0 row = Return v /\
        (normalizeNA v isNA = Throw e \/
         exists v', normalizeNA v isNA = Return v' /\ nullish v' = false /\
                    ToString B v' = Throw e)) ->
     setLoop B H tag isNA agg c0 (row :: rest) out
     = setLoop B H tag isNA agg
         (pushWarning c0 (tag ++ " set valueExpr error: " ++ message e)) rest out).
Proof.
  intros Hm. split; [| split; [| split; [| split]]].
  - rewrite (aggMode_set_dispatch tag isNA rule mapped c Hm).
    destruct (setLoop_spec tag isNA (r_aggregate rule) mapped c [])
      as (_ & _ & Hnd & Hnb).
    eexists _, _. split; [reflexivity |].
    split; [apply Hnd; constructor |].
    split; [apply Hnb; constructor |].
    apply Forall_forall. intros x Hx. apply list_elem_of_In, in_map_iff in Hx.
    destruct Hx as [e [<- _]]. reflexivity.
  - intros agg c0 rows out. apply (setLoop_spec tag isNA agg rows c0 out).
  - intros agg c0 row rest out v v' s Hv Hn Hnull Hs Hne. simpl.
    assert (Hentry : setEntry B H isNA agg c0 row = Return (Some s))
      by (apply setEntry_some; exists v, v'; auto).
    now rewrite Hentry.
  - intros agg c0 row rest out v v' Hv Hn Hskip. simpl. unfold setEntry.
    rewrite Hv. simpl. rewrite Hn. simpl.
    destruct Hskip as [Hnull | (s & Hs & Hb)].
    + now rewrite Hnull.
    + destruct (nullish v'); [reflexivity |]. rewrite Hs. simpl.
      now rewrite Hb, String.eqb_refl.
  - intros agg c0 row rest out e Hfail. simpl. unfold setEntry.
    destruct Hfail as [Hv | (v & Hv & [Hn | (v' & Hn & Hnull & Hs)])].
    + now rewrite Hv.
    + rewrite Hv. simpl. now rewrite Hn.
    + rewrite Hv. simpl. rewrite Hn. simpl. rewrite Hnull, Hs. reflexivity.
Qed.

End AggregateFacts.

(** The theorem on the sample host: four records, named alpha, alpha, a
    blank, and one whose name has an own [toString], give the one entry
    alpha and one warning. *)
Lemma set_aggregate_distinct_nonblank_witness :
  let records :=
    [VObj [("name", VStr "alpha")]; VObj [("name", VStr "alpha")];
     VObj [("name", VStr "  ")]; VObj [("name", ownToString)]] in
  is_str (aggMode (plainRule (setByPath "name") VUndefined VUndefined)) "set" = true /\
  (exists c' out,
    aggregateStage Sample.builtins Sample.host "[rule:0]" (fun _ => Return false)
      (plainRule (setByPath "name") VUndefined VUndefined)
      (Sample.ctxOf (VObj []) [] []) records
    = (c', VArr (map VStr out)) /\
    NoDup out /\ Forall (nonblank Sample.builtins) out /\
    Forall (fun x => nullish x = false) (map VStr out)) /\
  aggregateStage Sample.builtins Sample.host "[rule:0]" (fun _ => Return false)
    (plainRule (setByPath "name") VUndefined VUndefined)
    (Sample.ctxOf (VObj []) [] []) records
  = (Sample.ctxOf (VObj [])
       ["[rule:0] set valueExpr error: Cannot convert object to primitive value"] [],
     VArr [VStr "alpha"]).
Proof.
  cbv zeta. split; [reflexivity |]. split; [| reflexivity].
  refine (proj1 (set_aggregate_distinct_nonblank Sample.builtins Sample.host
                   "[rule:0]" (fun _ => Return false)
                   (plainRule (setByPath "name") VUndefined VUndefined)
                   (Sample.ctxOf (VObj []) [] []) _ _)).
  reflexivity.
Defined.

Section ObjectByKeyFacts.
Context {W : Type}.
Variable B : Builtins.
Variable H : Host W.

(** What holds of [objectByKey] on every input: the map has at most as
    many keys as there are records; a record whose key is not
    [__proto__] ends up under its key, replacing an earlier record at
    that key; a record whose key evaluation (or the string conversion of
    its key) throws pushes one warning and is left out. *)
Lemma objectByKey_general tag isNA (rule : Rule) (c : Ctx W) (mapped : list value) :
  is_str (aggMode rule) "objectByKey" = true ->
  (exists c' obj,
     aggregateStage B H tag isNA rule c mapped = (c', toValue obj) /\
     length (map fst (own obj)) <= length mapped) /\
  (forall agg c0 row rest obj k,
     keyOf B H agg c0 row = Return k ->
     objectByKey B H tag agg c0 (row :: rest) obj
     = objectByKey B H tag agg c0 rest (obj_set k row obj)) /\
  (forall key row obj,
     key <> "__proto__" -> lookup_prop key (own (obj_set key row obj)) = Some row) /\
  (forall agg c0 row rest obj e,
     keyOf B H agg c0 row = Throw e ->
     objectByKey B H tag agg c0 (row :: rest) obj
     = objectByKey B H tag agg
         (pushWarning c0 (tag ++ " objectByKey keyExpr error: " ++ message e)) rest obj).
Proof.
  intros Hm. split; [| split; [| split]].
  - unfold aggregateStage. apply is_str_true in Hm. rewrite Hm. simpl.
    pose proof (objectByKey_spec B H tag (r_aggregate rule) mapped c emptyObject)
      as [_ Hlen].
    destruct (objectByKey B H tag (r_aggregate rule) c mapped emptyObject) as [c' obj].
    exists c', obj. split; [reflexivity |]. rewrite length_map. exact Hlen.
  - intros agg c0 row rest obj k Hk. simpl. now rewrite Hk.
  - intros key row obj Hne. now apply lookup_obj_set_eq.
  - intros agg c0 row rest obj e He. simpl. now rewrite He.
Qed.

End ObjectByKeyFacts.

(** C6 at the key [__proto__].  One record whose key expression yields
    the string [__proto__]: the evaluation succeeds, no warning is
    pushed, and the resulting map has no entry for the record (the
    assignment made the record the prototype of the map instead); the
    result is judged empty. *)
Theorem objectByKey_proto_key_not_inserted :
  let c := Sample.ctxOf (VObj []) [] [] in
  let record := VObj [("id", VStr "__proto__"); ("n", Sample.num 1)] in
  let rule := plainRule (byKeyPath "id") VUndefined VUndefined in
  evalTyped Sample.builtins Sample.host c (VStr "path") (VStr "id") record
  = Return (VStr "__proto__") /\
  aggregateStage Sample.builtins Sample.host "[rule:0]" (fun _ => Return false)
    rule c [record]
  = (c, VObjP record []) /\
  ownProps Sample.builtins (VObjP record []) = [] /\
  isEmptyResult (aggMode rule) (VObjP record []) = true.
Proof. repeat split; reflexivity. Qed.

(** ** Rules *)

(** What stages 2 to 4 of a rule hand to the output stage: the context
    after them and the aggregate result. *)
Definition stagesResult {W} (B : Builtins) (H : Host W)
  (isNA : value -> completion bool) (k : nat) (rule : Rule) (c : Ctx W)
  (scope : list value) : Ctx W * value :=
  let tag := ruleTag B rule k in
  let '(c1, rows) := filterStage B H tag rule c scope in
  let '(c2, mapped) := mapStage B H tag isNA rule c1 rows in
  aggregateStage B H tag isNA rule c2 mapped.

(** The state of a rule once its result is written to the stores [w]. *)
Definition written_state {W} (s : @State W) (c : Ctx W) (w : W) : @State W :=
  withCtx s (withStores c w).

Section RuleFacts.
Context {W : Type}.
Variable B : Builtins.
Variable H : Host W.

Lemma aggregate_no_records tag isNA (rule : Rule) (c : Ctx W) :
  exists result,
    aggregateStage B H tag isNA rule c [] = (c, result) /\
    isEmptyResult (aggMode rule) result = true.
Proof.
  unfold aggregateStage. remember (aggMode rule) as mode eqn:Hmode.
  destruct (is_str mode "array") eqn:Ha.
  { apply is_str_true in Ha. rewrite Ha. now exists (VArr []). }
  destruct (is_str mode "first") eqn:Hf.
  { apply is_str_true in Hf. rewrite Hf. now exists VNull. }
  destruct (is_str mode "count") eqn:Hc.
  { apply is_str_true in Hc. rewrite Hc. now exists (VNum (num_of_nat 0)). }
  destruct (is_str mode "objectByKey") eqn:Ho.
  { apply is_str_true in Ho. rewrite Ho. now exists (VObj []). }
  destruct (is_str mode "set") eqn:Hs.
  { apply is_str_true in Hs. rewrite Hs. now exists (VArr []). }
  exists (VArr []). split; [reflexivity |].
  unfold isEmptyResult. now rewrite Hc, Hf.
Qed.

Lemma filterStage_no_rows tag rule (c : Ctx W) : filterStage B H tag rule c [] = (c, []).
Proof. unfold filterStage. now destruct (truthy (r_filter rule)). Qed.

Lemma mapStage_no_rows tag isNA rule (c : Ctx W) : mapStage B H tag isNA rule c [] = (c, []).
Proof. unfold mapStage. now destruct (r_map rule). Qed.

(** The output stage and the empty handling act on the result of the
    stages before them. *)
Lemma runStages_written isNA k (rule : Rule) (s : @State W) (scope : list value) :
  runStages B H isNA k rule s scope
  = match setTypedTarget H (fst (stagesResult B H isNA k rule (ctx s) scope))
            (outType rule) (outPath B rule k)
            (snd (stagesResult B H isNA k rule (ctx s) scope)) with
    | Throw e => Escaped (withCtx s (fst (stagesResult B H isNA k rule (ctx s) scope))) e
    | Return w =>
        Next (emptyHandling (ruleTag B rule k) rule
                (isEmptyResult (aggMode rule)
                   (snd (stagesResult B H isNA k rule (ctx s) scope)))
                (written_state s (fst (stagesResult B H isNA k rule (ctx s) scope)) w))
    end.
Proof.
  unfold runStages, stagesResult, written_state.
  destruct (filterStage B H (ruleTag B rule k) rule (ctx s) scope) as [c1 rows].
  destruct (mapStage B H (ruleTag B rule k) isNA rule c1 rows) as [c2 mapped].
  now destruct (aggregateStage B H (ruleTag B rule k) isNA rule c2 mapped) as [c3 result].
Qed.

Lemma stagesResult_warnsOnly isNA k (rule : Rule) (c : Ctx W) (scope : list value) :
  warnsOnly c (fst (stagesResult B H isNA k rule c scope)).
Proof.
  unfold stagesResult.
  pose proof (filterStage_spec B H (ruleTag B rule k) rule scope c) as (Hf & _).
  destruct (filterStage B H (ruleTag B rule k) rule c scope) as [c1 rows].
  pose proof (mapStage_warnsOnly B H (ruleTag B rule k) isNA rule rows c1) as Hm.
  destruct (mapStage B H (ruleTag B rule k) isNA rule c1 rows) as [c2 mapped].
  pose proof (aggregateStage_warnsOnly B H (ruleTag B rule k) isNA rule mapped c2) as Ha.
  simpl in Hf, Hm.
  eapply warnsOnly_trans; [exact Hf |].
  eapply warnsOnly_trans; [exact Hm | exact Ha].
Qed.

(** With no selected row nothing is evaluated and the result is empty,
    whatever the mode. *)
Lemma stagesResult_no_rows isNA k (rule : Rule) (c : Ctx W) :
  fst (stagesResult B H isNA k rule c []) = c /\
  isEmptyResult (aggMode rule) (snd (stagesResult B H isNA k rule c [])) = true.
Proof.
  unfold stagesResult. rewrite filterStage_no_rows, mapStage_no_rows.
  destruct (aggregate_no_records (ruleTag B rule k) isNA rule c)
    as (result & -> & Hempty).
  split; [reflexivity | exact Hempty].
Qed.

(** A rule whose selected array is empty: nothing is evaluated, the
    (empty) result is written, and the empty handling runs. *)
Lemma runStages_no_rows isNA k (rule : Rule) (s : @State W) :
  exists result,
    isEmptyResult (aggMode rule) result = true /\
    runStages B H isNA k rule s []
    = match setTypedTarget H (ctx s) (outType rule) (outPath B rule k) result with
      | Throw e => Escaped (withCtx s (ctx s)) e
      | Return w =>
          Next (emptyHandling (ruleTag B rule k) rule true
                  (withCtx s (withStores (ctx s) w)))
      end.
Proof.
  destruct (aggregate_no_records (ruleTag B rule k) isNA rule (ctx s))
    as (result & Hagg & Hempty).
  exists result. split; [assumption |].
  unfold runStages. rewrite filterStage_no_rows, mapStage_no_rows, Hagg, Hempty.
  reflexivity.
Qed.

Lemma onEmpty_not_error (rule : Rule) :
  is_str (r_onEmpty rule) "warn" = true \/ truthy (r_onEmpty rule) = false ->
  is_str (r_onEmpty rule) "error" = false.
Proof.
  intros [Hw | Hf].
  - apply is_str_true in Hw. now rewrite Hw.
  - destruct (r_onEmpty rule) as [| | | | text | | |]; try reflexivity.
    simpl in *. apply negb_false_iff, String.eqb_eq in Hf. now subst text.
Qed.

Lemma emptyHandling_error tag (rule : Rule) (s : @State W) :
  is_str (r_onEmpty rule) "error" = true ->
  emptyHandling tag rule true s = recordError s (tag ++ " produced empty result").
Proof. intros He. unfold emptyHandling. now rewrite He. Qed.

Lemma emptyHandling_warning tag (rule : Rule) (s : @State W) :
  is_str (r_onEmpty rule) "warn" = true \/ truthy (r_onEmpty rule) = false ->
  emptyHandling tag rule true s = recordWarning s (tag ++ " produced empty result").
Proof.
  intros Hw. unfold emptyHandling. rewrite (onEmpty_not_error rule Hw).
  destruct Hw as [-> | ->]; [reflexivity | now rewrite orb_true_r].
Qed.



(** C2.  After a select expression that returned [scope]: an array is
    used as it is and null/undefined as the empty array; any other value
    records the rule error "select did not resolve to an array" (one
    entry in the errors list, the error counter incremented, stores and
    the other counters untouched) and then, when [onError] is ["stop"],
    the loop ends in that state whatever rules follow, and otherwise the
    loop goes on with the next rule from that state.  A select expression
    that throws is handled by the same policy.  [root] is the handler's
    reference to the source root, read in the context of the rule. *)
Theorem select_failure_policy isNA (root : Ctx W -> value) k (rule : Rule)
  (rest : list Rule) (s : @State W) :
  let tag := ruleTag B rule k in
  let failed text := recordError s (tag ++ text)%string in
  (forall scope, selectScope B H (ctx s) (root (ctx s)) rule = Return scope ->
     (forall items, scope = VArr items ->
        runRule B H isNA (root (ctx s)) k rule s = runStages B H isNA k rule s items) /\
     (nullish scope = true ->
        runRule B H isNA (root (ctx s)) k rule s = runStages B H isNA k rule s []) /\
     (is_array scope = false -> nullish scope = false ->
        let s' := failed " select did not resolve to an array" in
        (is_str (r_onError rule) "stop" = true ->
           runRules B H isNA root k (rule :: rest) s = Finished s') /\
        (is_str (r_onError rule) "stop" = false ->
           runRules B H isNA root k (rule :: rest) s
           = runRules B H isNA root (S k) rest s'))) /\
  (forall e, selectScope B H (ctx s) (root (ctx s)) rule = Throw e ->
     let s' := failed (" select evaluation failed: " ++ message e)%string in
     (is_str (r_onError rule) "stop" = true ->
        runRules B H isNA root k (rule :: rest) s = Finished s') /\
     (is_str (r_onError rule) "stop" = false ->
        runRules B H isNA root k (rule :: rest) s
        = runRules B H isNA root (S k) rest s')) /\
  (forall text,
     stores (ctx (failed text)) = stores (ctx s) /\
     warnings (ctx (failed text)) = warnings (ctx s) /\
     errors (ctx (failed text)) = errors (ctx s) ++ [(tag ++ text)%string] /\
     ruleOK (failed text) = ruleOK s /\ ruleWarn (failed text) = ruleWarn s /\
     ruleErr (failed text) = S (ruleErr s)).
Proof.
  intros tag failed. split; [| split].
  - intros scope Hsel. split; [| split].
    + intros items ->. unfold runRule. now rewrite Hsel.
    + intros Hn. unfold runRule. rewrite Hsel.
      destruct scope; try discriminate; reflexivity.
    + intros Ha Hn s'.
      assert (Hrule : runRule B H isNA (root (ctx s)) k rule s
                      = selectError rule s (tag ++ " select did not resolve to an array")).
      { unfold runRule. rewrite Hsel.
        destruct scope; try discriminate; reflexivity. }
      split; intros Hstop; simpl; rewrite Hrule; unfold selectError;
        now rewrite Hstop.
  - intros e Hsel s'.
    assert (Hrule : runRule B H isNA (root (ctx s)) k rule s
                    = selectError rule s
                        (tag ++ " select evaluation failed: " ++ message e)).
    { unfold runRule. now rewrite Hsel. }
    subst s' failed. simpl.
    split; intros Hstop; rewrite Hrule; unfold selectError;
      now rewrite Hstop.
  - intros text. repeat split.
Qed.

End RuleFacts.

(** ** The run summary *)

Section SummaryFacts.
Context {W : Type}.
Variable B : Builtins.
Variable H : Host W.

Lemma emptyHandling_appends tag rule empty (s : @State W) :
  appends (ctx s) (ctx (emptyHandling tag rule empty s)).
Proof.
  unfold emptyHandling.
  destruct empty; [| apply appends_refl].
  destruct (is_str (r_onEmpty rule) "error"); [apply appends_pushError |].
  destruct (_ || _)%bool; simpl; auto with ctx.
Qed.

Lemma runStages_appends isNA k rule (s : @State W) scope :
  appends (ctx s) (ctx (outcomeState (runStages B H isNA k rule s scope))).
Proof.
  rewrite runStages_written.
  pose proof (stagesResult_warnsOnly B H isNA k rule (ctx s) scope) as Hst.
  destruct (stagesResult B H isNA k rule (ctx s) scope) as [c3 result].
  simpl in *.
  assert (H3 : appends (ctx s) c3) by now apply warnsOnly_appends.
  destruct (setTypedTarget H c3 (outType rule) (outPath B rule k) result) as [w | e];
    simpl; [| exact H3].
  eapply appends_trans; [| apply emptyHandling_appends]. simpl.
  eapply appends_trans; [exact H3 | apply appends_withStores].
Qed.

Lemma selectError_appends rule (s : @State W) text :
  appends (ctx s) (ctx (outcomeState (selectError rule s text))).
Proof.
  unfold selectError. destruct (is_str (r_onError rule) "stop"); simpl;
    apply appends_pushError.
Qed.

Lemma runRule_appends isNA root k rule (s : @State W) :
  appends (ctx s) (ctx (outcomeState (runRule B H isNA root k rule s))).
Proof.
  unfold runRule. destruct (selectScope B H (ctx s) root rule) as [scope | e];
    [| apply selectError_appends].
  destruct (scopeRows scope); [apply runStages_appends | apply selectError_appends].
Qed.

Lemma runRules_appends isNA root rs k (s : @State W) :
  appends (ctx s) (ctx (loopState (runRules B H isNA root k rs s))).
Proof.
  revert k s. induction rs as [| rule rest IH]; intros k s; simpl.
  - apply appends_refl.
  - pose proof (runRule_appends isNA (root (ctx s)) k rule s) as Hr.
    destruct (runRule B H isNA (root (ctx s)) k rule s) as [s' | s' | s' e]; simpl in *;
      try exact Hr.
    eapply appends_trans; [exact Hr | apply IH].
Qed.

Lemma appends_length (c c' : Ctx W) :
  appends c c' ->
  length (warnings c) <= length (warnings c') /\
  length (errors c) <= length (errors c').
Proof.
  intros [[ws Hw] [es He]]. rewrite Hw, He, !length_app. lia.
Qed.


End SummaryFacts.

(** ** The theorems on the sample host *)

(** A rule over the property [payload.none], which no message has: its
    select yields [undefined], hence no row. *)
Definition emptySelectRule (onEmpty : value) : Rule :=
  {| r_name := None; r_selectType := VStr "jsonata";
     r_select := VStr "payload.none";
     r_filterType := VUndefined; r_filter := VUndefined; r_map := [];
     r_aggregate := noAggregate;
     r_output := {| o_type := VUndefined; o_path := VUndefined |};
     r_onEmpty := onEmpty; r_onError := VUndefined |}.

(** A rule over [payload.items] whose filter, a message lookup below a
    parent that does not exist, throws on every row. *)
Definition throwingFilterRule : Rule :=
  {| r_name := None; r_selectType := VStr "jsonata";
     r_select := VStr "payload.items";
     r_filterType := VStr "msg"; r_filter := VStr "a.b"; r_map := [];
     r_aggregate := noAggregate;
     r_output := {| o_type := VUndefined; o_path := VUndefined |};
     r_onEmpty := VUndefined; r_onError := VUndefined |}.



(** C2 on a select that yields a number, with [onError = "stop"] and a
    second rule behind it. *)
Lemma select_failure_policy_witness :
  let rule := plainRule noAggregate VUndefined (VStr "stop") in
  let later := plainRule noAggregate VUndefined VUndefined in
  let s := initState emptyDoc in
  selectScope Sample.builtins Sample.host (ctx s) (Sample.num 5) rule
  = Return (Sample.num 5) /\
  runRules Sample.builtins Sample.host (fun _ => Return false) (fun _ => Sample.num 5) 0
    [rule; later] s
  = Finished (recordError s "[rule:0] select did not resolve to an array").
Proof.
  cbv zeta. split; [reflexivity |].
  pose proof (select_failure_policy Sample.builtins Sample.host (fun _ => Return false)
                (fun _ => Sample.num 5) 0 (plainRule noAggregate VUndefined (VStr "stop"))
                [plainRule noAggregate VUndefined VUndefined] (initState emptyDoc))
    as (Hsel & _).
  cbv zeta in Hsel.
  destruct (Hsel (Sample.num 5) eq_refl) as (_ & _ & Hbad).
  destruct (Hbad eq_refl eq_refl) as (Hstop & _).
  exact (Hstop eq_refl).
Defined.

(** A run of three rules on a message that arrives with one warning and
    one error: a select that is the message itself (an object, not an
    array), an empty result under [onEmpty = "error"], and a filter that
    throws on each of three rows, leaving an empty result under the
    default [onEmpty]. *)
Definition countedCfg : RuleSet :=
  {| source := None; naPolicy := None;
     rules := [plainRule noAggregate VUndefined VUndefined;
               emptySelectRule (VStr "error");
               throwingFilterRule] |}.

Definition countedDoc : Sample.SCtx := Sample.ctxOf itemsDoc ["old"] ["earlier"].


(** ** Scenarios *)

(** Active items, names collected as a set: bravo is filtered out and
    the name "NA" is normalized to [null] by the map step. *)
Example scenario_set_of_active_names :
  written (runOn (itemsRule (VStr "active") [nameField] (setByPath "name")))
  = VArr [VStr "alpha"].
Proof. reflexivity. Qed.

(** No filter, no map, [count]: 3. *)
Example scenario_count_without_map :
  written (runOn (itemsRule VUndefined []
                    {| a_mode := VStr "count"; a_keyExpr := VUndefined;
                       a_keyExprType := VUndefined; a_valueExpr := VUndefined;
                       a_valueExprType := VUndefined |}))
  = Sample.num 3.
Proof. reflexivity. Qed.

(** Two records with the same key: one entry, the later record. *)
Example scenario_objectByKey_last_wins :
  snd (aggregateStage Sample.builtins Sample.host "[rule:0]" (fun _ => Return false)
         (plainRule (byKeyPath "id") VUndefined VUndefined) emptyDoc
         [VObj [("id", VStr "a"); ("n", Sample.num 1)];
          VObj [("id", VStr "a"); ("n", Sample.num 2)]])
  = VObj [("a", VObj [("id", VStr "a"); ("n", Sample.num 2)])].
Proof. reflexivity. Qed.

(** Chained rules: the second rule selects what the first has written,
    because the root is the message itself. *)
Example scenario_second_rule_reads_first_output :
  let copy :=
    {| r_name := None; r_selectType := VStr "jsonata";
       r_select := VStr "payload.items";
       r_filterType := VUndefined; r_filter := VUndefined; r_map := [];
       r_aggregate := noAggregate;
       r_output := {| o_type := VUndefined; o_path := VStr "out" |};
       r_onEmpty := VUndefined; r_onError := VUndefined |} in
  let count :=
    {| r_name := None; r_selectType := VStr "jsonata"; r_select := VStr "out";
       r_filterType := VUndefined; r_filter := VUndefined; r_map := [];
       r_aggregate :=
         {| a_mode := VStr "count"; a_keyExpr := VUndefined;
            a_keyExprType := VUndefined; a_valueExpr := VUndefined;
            a_valueExprType := VUndefined |};
       r_output := {| o_type := VUndefined; o_path := VStr "n" |};
       r_onEmpty := VUndefined; r_onError := VUndefined |} in
  match onInput Sample.builtins Sample.host
          {| source := None; naPolicy := None; rules := [copy; count] |}
          (Sample.ctxOf itemsDoc [] []) with
  | Sent c sm =>
      get_prop "n" (ownProps Sample.builtins (Sample.msg (stores c))) = Sample.num 3 /\
      counts_ok sm = 2 /\ counts_warn sm = 0
  | Failed _ _ => False
  end.
Proof. vm_compute. auto. Qed.

(** The key [__proto__] a second time.  The first assignment makes the
    first record the prototype of the map; that record has an own
    [__proto__] property, so the second assignment finds a data property
    on the chain and creates an own property of the map. *)
Example scenario_proto_key_twice :
  let first := VObj [("__proto__", Sample.num 1); ("id", VStr "__proto__")] in
  let second := VObj [("id", VStr "__proto__")] in
  snd (aggregateStage Sample.builtins Sample.host "[rule:0]" (fun _ => Return false)
         (plainRule (byKeyPath "id") VUndefined VUndefined) emptyDoc [first; second])
  = VObjP first [("__proto__", second)].
Proof. reflexivity. Qed.

(** Two map fields keyed [__proto__] on a row whose name is NA: the
    first assignment, of [null], leaves the record without prototype,
    and the second creates an own property. *)
Example scenario_proto_field_after_null :
  let protoField :=
    {| m_key := Some "__proto__"; m_srcType := VStr "jsonata"; m_src := VStr "name";
       m_when := VUndefined; m_whenType := VUndefined; m_transform := VUndefined |} in
  snd (mapStage Sample.builtins Sample.host "[rule:0]"
         (policyIsNA Sample.builtins (Some defaultPolicy))
         (itemsRule VUndefined [protoField; protoField] noAggregate) emptyDoc
         [item "NA" true])
  = [VObjP VNull [("__proto__", VNull)]].
Proof. reflexivity. Qed.

(* ===================================================================== *)
(** * Further properties of the input handler *)
(* ===================================================================== *)

(** ** Bookkeeping of a run *)

Lemma accounted_refl {W} (s : @State W) : accounted 0 s s.
Proof. unfold accounted, ruleTotal. lia. Qed.

Lemma accounted_trans {W} n m (s1 s2 s3 : @State W) :
  accounted n s1 s2 -> accounted m s2 s3 -> accounted (n + m) s1 s3.
Proof. unfold accounted, ruleTotal. lia. Qed.

Lemma accounted_withCtx {W} (s : @State W) (c : Ctx W) :
  length (errors c) = length (errors (ctx s)) ->
  length (warnings (ctx s)) <= length (warnings c) ->
  accounted 0 s (withCtx s c).
Proof. unfold accounted, ruleTotal. simpl. lia. Qed.

Lemma warnsOnly_lengths {W} (c c' : Ctx W) :
  warnsOnly c c' ->
  length (errors c') = length (errors c) /\
  length (warnings c) <= length (warnings c').
Proof.
  intros (_ & He & ws & Hw). rewrite He, Hw, length_app. lia.
Qed.

Section AccountingFacts.
Context {W : Type}.
Variable B : Builtins.
Variable H : Host W.

Lemma emptyHandling_accounted tag rule empty (s : @State W) :
  accounted 1 s (emptyHandling tag rule empty s).
Proof.
  unfold emptyHandling, accounted, ruleTotal.
  destruct empty; [| simpl; lia].
  destruct (is_str (r_onEmpty rule) "error"); [simpl; rewrite length_app; simpl; lia |].
  destruct (_ || _)%bool; simpl; rewrite ?length_app; simpl; lia.
Qed.

Lemma selectError_accounted rule (s : @State W) text :
  accounted 1 s (outcomeState (selectError rule s text)).
Proof.
  unfold selectError, accounted, ruleTotal.
  destruct (is_str (r_onError rule) "stop"); simpl; rewrite length_app; simpl; lia.
Qed.

(** The context in which the output of a rule is written. *)
Lemma runStages_cases isNA k rule (s : @State W) scope :
  exists c3 result,
    warnsOnly (ctx s) c3 /\
    runStages B H isNA k rule s scope
    = match setTypedTarget H c3 (outType rule) (outPath B rule k) result with
      | Throw e => Escaped (withCtx s c3) e
      | Return w =>
          Next (emptyHandling (ruleTag B rule k) rule
                  (isEmptyResult (aggMode rule) result)
                  (withCtx s (withStores c3 w)))
      end.
Proof.
  unfold runStages.
  pose proof (filterStage_spec B H (ruleTag B rule k) rule scope (ctx s)) as (Hf & _).
  destruct (filterStage B H (ruleTag B rule k) rule (ctx s) scope) as [c1 rows].
  pose proof (mapStage_warnsOnly B H (ruleTag B rule k) isNA rule rows c1) as Hm.
  destruct (mapStage B H (ruleTag B rule k) isNA rule c1 rows) as [c2 mapped].
  pose proof (aggregateStage_warnsOnly B H (ruleTag B rule k) isNA rule mapped c2) as Ha.
  destruct (aggregateStage B H (ruleTag B rule k) isNA rule c2 mapped) as [c3 result].
  simpl in Hf, Hm, Ha. exists c3, result. split; [| reflexivity].
  eapply warnsOnly_trans; [exact Hf |].
  eapply warnsOnly_trans; [exact Hm | exact Ha].
Qed.

Lemma runStages_accounted isNA k rule (s : @State W) scope :
  match runStages B H isNA k rule s scope with
  | Next s' => accounted 1 s s'
  | Break s' => False
  | Escaped s' e => accounted 0 s s'
  end.
Proof.
  destruct (runStages_cases isNA k rule s scope) as (c3 & result & Hc & ->).
  destruct (warnsOnly_lengths _ _ Hc) as [He Hw].
  destruct (setTypedTarget H c3 (outType rule) (outPath B rule k) result) as [w | e].
  - apply (accounted_trans 0 1 s (withCtx s (withStores c3 w))).
    + now apply accounted_withCtx.
    + apply emptyHandling_accounted.
  - now apply accounted_withCtx.
Qed.

Lemma runRule_accounted isNA root k rule (s : @State W) :
  match runRule B H isNA root k rule s with
  | Next s' => accounted 1 s s'
  | Break s' => accounted 1 s s' /\ is_str (r_onError rule) "stop" = true
  | Escaped s' e => accounted 0 s s'
  end.
Proof.
  assert (Hsel : forall text,
    match selectError rule s text with
    | Next s' => accounted 1 s s'
    | Break s' => accounted 1 s s' /\ is_str (r_onError rule) "stop" = true
    | Escaped s' e => accounted 0 s s'
    end).
  { intros text. pose proof (selectError_accounted rule s text) as Hacc.
    unfold selectError in *. destruct (is_str (r_onError rule) "stop"); auto. }
  unfold runRule. destruct (selectScope B H (ctx s) root rule) as [scope | e];
    [| apply Hsel].
  destruct (scopeRows scope) as [rows |]; [| apply Hsel].
  pose proof (runStages_accounted isNA k rule s rows) as Hst.
  destruct (runStages B H isNA k rule s rows); auto. contradiction.
Qed.

Lemma runRules_accounted isNA root rs k (s : @State W) :
  exists n,
    n <= length rs /\
    accounted n s (loopState (runRules B H isNA root k rs s)) /\
    (Forall (fun r => is_str (r_onError r) "stop" = false) rs ->
     forall s', runRules B H isNA root k rs s = Finished s' -> n = length rs).
Proof.
  revert k s. induction rs as [| rule rest IH]; intros k s; simpl.
  - exists 0. split; [lia |]. split; [apply accounted_refl | reflexivity].
  - pose proof (runRule_accounted isNA (root (ctx s)) k rule s) as Hr.
    destruct (runRule B H isNA (root (ctx s)) k rule s) as [s1 | s1 | s1 e]; simpl.
    + destruct (IH (S k) s1) as (n & Hn & Hacc & Hall).
      exists (1 + n). split; [lia |]. split.
      * now apply (accounted_trans 1 n s s1).
      * intros Hstop s' Hrun. inversion Hstop; subst. f_equal. eauto.
    + destruct Hr as [Hacc Hstop]. exists 1. split; [lia |].
      split; [assumption |].
      intros Hall s' _. inversion Hall; subst. congruence.
    + exists 0. split; [lia |]. split; [assumption |]. intros _ s'. discriminate.
Qed.

(** X1.  Every rule that the loop executes to its end increments exactly
    one of the three counters: after a completed loop the counters have
    grown by at most the number of rules, and by exactly that number when
    no rule has [onError = "stop"]. *)
Theorem counters_account_for_executed_rules isNA (root : Ctx W -> value) k
  (rs : list Rule) (s s' : @State W) :
  runRules B H isNA root k rs s = Finished s' ->
  ruleTotal s' <= ruleTotal s + length rs /\
  ruleOK s <= ruleOK s' /\ ruleWarn s <= ruleWarn s' /\ ruleErr s <= ruleErr s' /\
  (Forall (fun r => is_str (r_onError r) "stop" = false) rs ->
   ruleTotal s' = ruleTotal s + length rs).
Proof.
  intros Hrun.
  destruct (runRules_accounted isNA root rs k s) as (n & Hn & Hacc & Hall).
  rewrite Hrun in Hacc. simpl in Hacc.
  destruct Hacc as (Ht & _ & _ & Hok & Hwarn & Herr).
  repeat split; try assumption; try lia.
  intros Hstop. rewrite (Hall Hstop s' Hrun) in Ht. exact Ht.
Qed.


End AccountingFacts.

(** ** Failure of a run *)

Section FailureFacts.
Context {W : Type}.
Variable B : Builtins.
Variable H : Host W.

Lemma resolveRoot_throws_source (c : Ctx W) (src : option SourceSpec) (e : exn) :
  resolveRoot B H c src = Throw e ->
  exists sp, src = Some sp /\ s_type sp ∈ raisingSources.
Proof.
  unfold resolveRoot. destruct src as [sp |]; [| discriminate].
  intros Hr. exists sp. split; [reflexivity |]. unfold raisingSources.
  destruct (is_str (s_type sp) "msg") eqn:Hm.
  { apply is_str_true in Hm. rewrite Hm. apply list_elem_of_here. }
  destruct (is_str (s_type sp) "flow") eqn:Hf.
  { apply is_str_true in Hf. rewrite Hf.
    apply list_elem_of_further, list_elem_of_here. }
  destruct (is_str (s_type sp) "global") eqn:Hg.
  { apply is_str_true in Hg. rewrite Hg.
    do 2 apply list_elem_of_further. apply list_elem_of_here. }
  destruct (is_str (s_type sp) "jsonata") eqn:Hj.
  { apply is_str_true in Hj. rewrite Hj.
    do 3 apply list_elem_of_further. apply list_elem_of_here. }
  destruct (is_str (s_type sp) "path"); discriminate.
Qed.

Lemma runRule_escapes isNA root k rule (s s1 : @State W) (e : exn) :
  runRule B H isNA root k rule s = Escaped s1 e ->
  exists result,
    setTypedTarget H (ctx s1) (outType rule) (outPath B rule k) result = Throw e /\
    warnsOnly (ctx s) (ctx s1) /\
    ruleOK s1 = ruleOK s /\ ruleWarn s1 = ruleWarn s /\ ruleErr s1 = ruleErr s.
Proof.
  unfold runRule, selectError.
  destruct (selectScope B H (ctx s) root rule) as [scope | e0].
  2:{ destruct (is_str (r_onError rule) "stop"); discriminate. }
  destruct (scopeRows scope) as [rows |].
  2:{ destruct (is_str (r_onError rule) "stop"); discriminate. }
  destruct (runStages_cases B H isNA k rule s rows) as (c3 & result & Hc & ->).
  destruct (setTypedTarget H c3 (outType rule) (outPath B rule k) result) as [w | e1] eqn:Hset;
    [discriminate |].
  intros [= <- <-]. exists result. simpl. auto.
Qed.

Lemma runRules_aborts isNA root rs k (s s1 : @State W) (e : exn) :
  runRules B H isNA root k rs s = Aborted s1 e ->
  exists rule i result,
    rule ∈ rs /\
    setTypedTarget H (ctx s1) (outType rule) (outPath B rule i) result = Throw e /\
    appends (ctx s) (ctx s1).
Proof.
  revert k s. induction rs as [| rule rest IH]; intros k s; simpl; [discriminate |].
  pose proof (runRule_appends B H isNA (root (ctx s)) k rule s) as Happ.
  destruct (runRule B H isNA (root (ctx s)) k rule s) as [s2 | s2 | s2 e2] eqn:Hrule;
    simpl in Happ.
  - intros Hrest. destruct (IH _ _ Hrest) as (r & i & result & Hin & Hset & Happ').
    exists r, i, result. split; [now apply list_elem_of_further |].
    split; [assumption |]. eapply appends_trans; eassumption.
  - discriminate.
  - intros [= <- <-]. destruct (runRule_escapes _ _ _ _ _ _ _ Hrule) as (result & Hset & _).
    exists rule, k, result. split; [apply list_elem_of_here | auto].
Qed.


(** X4.  A JSONata expression that is null, undefined or the empty
    string is never handed to the evaluator: it evaluates to
    [undefined] on every host.  Hence a rule with [selectType =
    "jsonata"] and no select expression runs over no rows, whatever the
    root is. *)
Theorem jsonata_without_expression_selects_nothing isNA (root : value) k
  (rule : Rule) (s : @State W) (c : Ctx W) (expr data : value) :
  ((nullish expr || is_str expr "")%bool = true ->
   jsonataEval B H c expr data = Return VUndefined) /\
  (is_str (r_selectType rule) "jsonata" = true ->
   truthy (r_select rule) = false ->
   runRule B H isNA root k rule s = runStages B H isNA k rule s []).
Proof.
  split.
  - intros Hex. unfold jsonataEval. now rewrite Hex.
  - intros Hty Hsel. unfold runRule, selectScope, or_else, jsonataEval.
    now rewrite Hty, Hsel.
Qed.

(** X5.  Sources of the literal types [str], [num], [bool] and [json]
    do not depend on the host, on the message or on the row.  [bool] and
    [json] never throw; [str] and [num] throw exactly when
    [String(src ?? "")], respectively [Number(src)], throws, hence never
    for a primitive [src].  [json] yields [undefined] for text that does
    not parse and the configured value itself when it is not text. *)
Theorem literal_sources_ignore_context (H' : Host W) (c c' : Ctx W)
  (type src rowCtx rowCtx' : value) :
  (type ∈ [VStr "str"; VStr "num"; VStr "bool"; VStr "json"] ->
   evalTyped B H c type src rowCtx = evalTyped B H' c' type src rowCtx') /\
  (type ∈ [VStr "bool"; VStr "json"] ->
   throws (evalTyped B H c type src rowCtx) = false) /\
  throws (evalTyped B H c (VStr "str") src rowCtx)
  = throws (ToString B (coalesce src (VStr ""))) /\
  throws (evalTyped B H c (VStr "num") src rowCtx) = throws (ToNumber B src) /\
  (type ∈ [VStr "str"; VStr "num"] ->
   is_array src = false -> isObj src = false ->
   throws (evalTyped B H c type src rowCtx) = false) /\
  (forall text, json_parse B text = None ->
     evalTyped B H c (VStr "json") (VStr text) rowCtx = Return VUndefined) /\
  ((forall text, src <> VStr text) ->
   evalTyped B H c (VStr "json") src rowCtx = Return src).
Proof.
  assert (Hstr : throws (evalTyped B H c (VStr "str") src rowCtx)
                 = throws (ToString B (coalesce src (VStr "")))).
  { unfold evalTyped. simpl. now destruct (ToString B (coalesce src (VStr ""))). }
  assert (Hnum : throws (evalTyped B H c (VStr "num") src rowCtx)
                 = throws (ToNumber B src)).
  { unfold evalTyped. simpl. now destruct (ToNumber B src). }
  split; [| split; [| split; [| split; [| split; [| split]]]]].
  - intros Hin.
    apply elem_of_cons in Hin as [-> | Hin]; [now unfold evalTyped |].
    apply elem_of_cons in Hin as [-> | Hin]; [now unfold evalTyped |].
    apply elem_of_cons in Hin as [-> | Hin]; [now unfold evalTyped |].
    apply elem_of_cons in Hin as [-> | Hin]; [| now apply elem_of_nil in Hin].
    now unfold evalTyped.
  - intros Hin.
    apply elem_of_cons in Hin as [-> | Hin]; [now unfold evalTyped |].
    apply elem_of_cons in Hin as [-> | Hin]; [| now apply elem_of_nil in Hin].
    unfold evalTyped; simpl.
    destruct src as [| | | | text | | |]; auto. now destruct (json_parse B text).
  - exact Hstr.
  - exact Hnum.
  - intros Hin Harr Hobj.
    assert (Hs : throws (ToString B src) = false) by now apply ToString_primitive.
    apply elem_of_cons in Hin as [-> | Hin].
    { rewrite Hstr. unfold coalesce. now destruct (nullish src). }
    apply elem_of_cons in Hin as [-> | Hin]; [| now apply elem_of_nil in Hin].
    rewrite Hnum. destruct (ToNumber B src) as [n | e] eqn:Hn; [reflexivity |].
    apply ToNumber_throws in Hn. now rewrite Hn in Hs.
  - intros text Hp. unfold evalTyped. simpl. now rewrite Hp.
  - intros Hne. unfold evalTyped. simpl.
    destruct src as [| | | | text | | |]; try reflexivity.
    now contradiction (Hne text).
Qed.

(** X6.  The output path of a rule is always truthy, so the guard of
    [setTypedTarget] never skips the write of the handler: the write goes
    to the flow context for type [flow], to the global context for type
    [global] and to the message for every other type; a rule without
    output goes to the message at [extract.<index>]. *)
Theorem output_write_always_reaches_a_store (c : Ctx W) (rule : Rule) k (v : value) :
  truthy (outPath B rule k) = true /\
  setTypedTarget H c (outType rule) (outPath B rule k) v
  = (if is_str (outType rule) "flow" then flowSet H c (outPath B rule k) v
     else if is_str (outType rule) "global" then globalSet H c (outPath B rule k) v
     else setMessageProperty H c (outPath B rule k) v) /\
  (truthy (o_type (r_output rule)) = false ->
   truthy (o_path (r_output rule)) = false ->
   setTypedTarget H c (outType rule) (outPath B rule k) v
   = setMessageProperty H c (VStr ("extract." ++ index_key B k)) v).
Proof.
  assert (Ht : truthy (outPath B rule k) = true).
  { unfold outPath, or_else.
    destruct (truthy (o_path (r_output rule))) eqn:Hp; [exact Hp | reflexivity]. }
  split; [exact Ht |]. split.
  - unfold setTypedTarget. now rewrite Ht.
  - intros Hty Hp. unfold setTypedTarget. rewrite Ht.
    unfold outType, outPath, or_else. now rewrite Hty, Hp.
Qed.

End FailureFacts.

(** ** Keys and entries of objects built by assignment *)

Lemma keys_replace_prop k v ps : map fst (replace_prop k v ps) = map fst ps.
Proof.
  induction ps as [| [k' v'] rest IH]; simpl; [reflexivity |].
  destruct (String.eqb k k'); simpl; congruence.
Qed.

Lemma replace_prop_entries k v ps x :
  x ∈ replace_prop k v ps -> x = (k, v) \/ x ∈ ps.
Proof.
  induction ps as [| [k' v'] rest IH]; simpl; [auto |].
  destruct (String.eqb k k') eqn:Hk.
  - apply String.eqb_eq in Hk. subst k'. rewrite !elem_of_cons. tauto.
  - rewrite !elem_of_cons. intros [-> | Hx]; [auto |]. destruct (IH Hx); auto.
Qed.

Lemma has_prop_keys k ps : has_prop k ps = true <-> k ∈ map fst ps.
Proof.
  unfold has_prop. induction ps as [| [k' v'] rest IH]; simpl.
  - rewrite elem_of_nil. split; [discriminate | tauto].
  - rewrite elem_of_cons. destruct (String.eqb k k') eqn:Hk.
    + apply String.eqb_eq in Hk. split; auto.
    + apply String.eqb_neq in Hk. rewrite IH. simpl. split; [auto | intros [? | ?]; tauto].
Qed.

Lemma insert_index_split n k v ps :
  exists l1 l2, ps = l1 ++ l2 /\ insert_index n k v ps = l1 ++ (k, v) :: l2.
Proof.
  induction ps as [| [k' v'] rest IH]; simpl.
  - now exists [], [].
  - destruct IH as (l1 & l2 & Hps & Hins).
    destruct (array_index k') as [n' |].
    + destruct (N.ltb n n').
      * now exists [], ((k', v') :: rest).
      * exists ((k', v') :: l1), l2. simpl. split; congruence.
    + now exists [], ((k', v') :: rest).
Qed.

(** The three effects an assignment can have on the own properties:
    none (the key [__proto__] reaching the accessor), the update of an
    existing property, a new property. *)
Lemma obj_set_cases k v o :
  own (obj_set k v o) = own o \/
  (has_prop k (own o) = true /\ own (obj_set k v o) = replace_prop k v (own o)) \/
  (has_prop k (own o) = false /\
   exists l1 l2, own o = l1 ++ l2 /\ own (obj_set k v o) = l1 ++ (k, v) :: l2).
Proof.
  unfold obj_set.
  destruct (String.eqb k "__proto__" && negb (has_prop k (own o))
            && reaches_proto_accessor (proto o))%bool.
  { left. now destruct (object_or_null v). }
  simpl. unfold obj_define. destruct (has_prop k (own o)) eqn:Hk; [auto |].
  right. right. split; [reflexivity |].
  destruct (array_index k) as [n |]; [apply insert_index_split |].
  exists (own o), []. now rewrite app_nil_r.
Qed.

Lemma obj_set_keys_sub k v o key :
  key ∈ map fst (own (obj_set k v o)) -> key = k \/ key ∈ map fst (own o).
Proof.
  destruct (obj_set_cases k v o) as [-> | [[_ ->] | (_ & l1 & l2 & -> & ->)]].
  - auto.
  - rewrite keys_replace_prop. auto.
  - rewrite !map_app. simpl. rewrite !elem_of_app, elem_of_cons. tauto.
Qed.

Lemma obj_set_keys_NoDup k v o :
  NoDup (map fst (own o)) -> NoDup (map fst (own (obj_set k v o))).
Proof.
  destruct (obj_set_cases k v o) as [-> | [[_ ->] | (Hk & l1 & l2 & Hps & ->)]].
  - auto.
  - now rewrite keys_replace_prop.
  - rewrite Hps in *. rewrite !map_app. simpl. intros Hnd.
    assert (Hnot : k ∉ map fst l1 ++ map fst l2).
    { intros Hin. rewrite <- map_app in Hin. apply has_prop_keys in Hin. congruence. }
    rewrite <- Permutation_middle. apply NoDup_cons. split; assumption.
Qed.

Lemma obj_set_entries k v o x :
  x ∈ own (obj_set k v o) -> x = (k, v) \/ x ∈ own o.
Proof.
  destruct (obj_set_cases k v o) as [-> | [[_ ->] | (_ & l1 & l2 & -> & ->)]].
  - auto.
  - apply replace_prop_entries.
  - rewrite !elem_of_app, elem_of_cons. tauto.
Qed.

Lemma obj_set_length_bound k v o :
  length (own o) <= length (own (obj_set k v o)) <= S (length (own o)).
Proof.
  destruct (obj_set_cases k v o) as [-> | [[_ ->] | (_ & l1 & l2 & -> & ->)]].
  - lia.
  - rewrite replace_prop_length. lia.
  - rewrite !length_app. simpl. lia.
Qed.

(** ** What records, maps and sets are made of *)

Lemma set_add_length s l : length (set_add s l) <= S (length l).
Proof.
  unfold set_add. destruct (set_has s l); [lia |]. rewrite length_app. simpl. lia.
Qed.

Lemma obj_set_proto_other k v o :
  k <> "__proto__" -> proto (obj_set k v o) = proto o.
Proof.
  intros Hne. apply String.eqb_neq in Hne. unfold obj_set. now rewrite Hne.
Qed.

Lemma obj_set_proto_cases k v o :
  proto (obj_set k v o) = proto o \/ proto (obj_set k v o) = Linked v.
Proof.
  unfold obj_set. destruct (_ && _)%bool; [| now left].
  destruct (object_or_null v); auto.
Qed.

(** A value that, made the prototype of an object by an assignment to
    [__proto__], leaves the accessor of [Object.prototype] in reach; a
    value that the setter ignores is neutral as well.  [null] and an
    object with an own [__proto__] property are not. *)
Definition protoNeutral (v : value) : bool :=
  if object_or_null v then reaches_proto_accessor (Linked v) else true.

Lemma obj_set_keeps_accessor k v o :
  protoNeutral v = true ->
  reaches_proto_accessor (proto o) = true ->
  "__proto__" ∉ map fst (own o) ->
  k = "__proto__" ->
  reaches_proto_accessor (proto (obj_set k v o)) = true /\
  own (obj_set k v o) = own o.
Proof.
  intros Hv Hacc Hown ->. unfold obj_set.
  assert (Hhas : has_prop "__proto__" (own o) = false).
  { destruct (has_prop "__proto__" (own o)) eqn:Hh; [| reflexivity].
    apply has_prop_keys in Hh. contradiction. }
  rewrite Hhas, Hacc. simpl. unfold protoNeutral in Hv.
  destruct (object_or_null v); simpl; auto.
Qed.

Section ContentFacts.
Context {W : Type}.
Variable B : Builtins.
Variable H : Host W.

Lemma mapField_rec tag isNA (c : Ctx W) row rec m :
  snd (mapField B H tag isNA c row rec m) = rec \/
  (keyGiven m = true /\
   exists v, snd (mapField B H tag isNA c row rec m) = obj_set (keyText m) v rec).
Proof.
  assert (Ha : snd (assignField B H tag isNA c row rec m) = rec \/
               (keyGiven m = true /\
                exists v, snd (assignField B H tag isNA c row rec m)
                          = obj_set (keyText m) v rec)).
  { unfold assignField.
    destruct (fieldValue B H isNA c row m) as [v | e]; simpl; [| auto].
    destruct (keyGiven m); [| auto]. right. split; [reflexivity |]. eauto. }
  unfold mapField. destruct (truthy (m_when m)); [| exact Ha].
  destruct (evalTyped B H c _ (m_when m) row) as [w | e]; simpl; [| auto].
  destruct (truthy w); [exact Ha | auto].
Qed.

Lemma mapFields_rec tag isNA row maps (c : Ctx W) rec :
  let rec' := snd (mapFields B H tag isNA c row rec maps) in
  (NoDup (map fst (own rec)) -> NoDup (map fst (own rec'))) /\
  length (own rec') <= length (own rec) + length maps /\
  (Forall (fun m => keyText m <> "__proto__") maps -> proto rec' = proto rec) /\
  (forall key, key ∈ map fst (own rec') ->
     key ∈ map fst (own rec) \/
     exists m, m ∈ maps /\ keyGiven m = true /\ key = keyText m).
Proof.
  revert c rec. induction maps as [| m rest IH]; intros c rec; simpl.
  - repeat split; auto. lia.
  - pose proof (mapField_rec tag isNA c row rec m) as Hm.
    destruct (mapField B H tag isNA c row rec m) as [c1 rec1]. simpl in Hm.
    destruct (IH c1 rec1) as (Hnd & Hlen & Hproto & Hkeys).
    assert (Hstep : (NoDup (map fst (own rec)) -> NoDup (map fst (own rec1))) /\
                    length (own rec1) <= S (length (own rec)) /\
                    (keyText m <> "__proto__" -> proto rec1 = proto rec) /\
                    (forall key, key ∈ map fst (own rec1) ->
                       key ∈ map fst (own rec) \/
                       (keyGiven m = true /\ key = keyText m))).
    { destruct Hm as [-> | [Ht [v ->]]].
      - repeat split; auto.
      - split; [apply obj_set_keys_NoDup |].
        split; [apply obj_set_length_bound |].
        split; [apply obj_set_proto_other |].
        intros key Hkey. destruct (obj_set_keys_sub _ _ _ _ Hkey); auto. }
    destruct Hstep as (Hnd1 & Hlen1 & Hproto1 & Hkeys1).
    split; [auto |]. split; [lia |]. split.
    { intros Hall. inversion Hall as [| ? ? Hm0 Hrest]; subst.
      rewrite (Hproto Hrest). now apply Hproto1. }
    intros key Hkey. destruct (Hkeys key Hkey) as [Hin | (m0 & Hin & Ht & ->)].
    + destruct (Hkeys1 key Hin) as [? | [Ht ->]]; [auto |].
      right. exists m. split; [apply list_elem_of_here | auto].
    + right. exists m0. split; [now apply list_elem_of_further | auto].
Qed.

(** X7.  Every record of the map stage is an object made of the
    configured fields only: its own keys are pairwise distinct, each is
    the key of some map field that has one, and there are at most as
    many as map fields.  Unless a field is keyed [__proto__], the record
    is an ordinary object whose prototype is [Object.prototype]. *)
Theorem mapped_records_hold_configured_keys tag isNA (maps : list MapField)
  (c : Ctx W) (rows : list value) :
  Forall (fun r =>
            isObj r = true /\
            NoDup (map fst (ownProps B r)) /\
            length (ownProps B r) <= length maps /\
            (forall key, key ∈ map fst (ownProps B r) ->
               exists m, m ∈ maps /\ keyGiven m = true /\ key = keyText m) /\
            (Forall (fun m => keyText m <> "__proto__") maps ->
             r = VObj (ownProps B r)))
         (snd (mapRows B H tag isNA maps c rows)).
Proof.
  revert c. induction rows as [| row rest IH]; intros c; simpl; [constructor |].
  pose proof (mapFields_rec tag isNA row maps c emptyObject) as Hrec.
  destruct (mapFields B H tag isNA c row emptyObject maps) as [c1 rec].
  specialize (IH c1). destruct (mapRows B H tag isNA maps c1 rest) as [c2 out].
  simpl in *. destruct Hrec as (Hnd & Hlen & Hproto & Hkeys).
  constructor; [| exact IH].
  rewrite ownProps_toValue.
  split; [apply isObj_toValue |]. split; [apply Hnd; constructor |].
  split; [lia |]. split.
  - intros key Hkey. destruct (Hkeys key Hkey) as [Hin | Hm]; [| exact Hm].
    now apply elem_of_nil in Hin.
  - intros Hall. specialize (Hproto Hall). unfold toValue. now rewrite Hproto.
Qed.

Lemma objectByKey_content tag agg mapped (c : Ctx W) (obj : object) :
  let obj' := snd (objectByKey B H tag agg c mapped obj) in
  (NoDup (map fst (own obj)) -> NoDup (map fst (own obj'))) /\
  (forall x, x ∈ own obj' -> x ∈ own obj \/ snd x ∈ mapped) /\
  (proto obj' = proto obj \/ exists r, r ∈ mapped /\ proto obj' = Linked r) /\
  (Forall (fun r => protoNeutral r = true) mapped ->
   reaches_proto_accessor (proto obj) = true ->
   "__proto__" ∉ map fst (own obj) ->
   "__proto__" ∉ map fst (own obj')).
Proof.
  revert c obj. induction mapped as [| row rest IH]; intros c obj; simpl.
  - auto.
  - destruct (keyOf B H agg c row) as [k | e].
    + destruct (IH c (obj_set k row obj)) as (Hnd & Hent & Hlink & Hproto).
      split; [intros Hn; apply Hnd; now apply obj_set_keys_NoDup |].
      split; [| split].
      * intros x Hx. destruct (Hent x Hx) as [Hin | Hin].
        -- destruct (obj_set_entries _ _ _ _ Hin) as [-> | Hold]; [| auto].
           right. simpl. apply list_elem_of_here.
        -- right. now apply list_elem_of_further.
      * destruct Hlink as [Hsame | (r & Hr & Hl)].
        -- destruct (obj_set_proto_cases k row obj) as [Hp | Hp]; rewrite Hp in Hsame.
           ++ now left.
           ++ right. exists row. split; [apply list_elem_of_here | exact Hsame].
        -- right. exists r. split; [now apply list_elem_of_further | exact Hl].
      * intros Hall Hacc Hown. inversion Hall as [| ? ? Hrow Hrest]; subst.
        destruct (String.eqb k "__proto__") eqn:Hk.
        -- apply String.eqb_eq in Hk.
           destruct (obj_set_keeps_accessor k row obj Hrow Hacc Hown Hk) as [Hacc' Hown'].
           apply Hproto; [assumption | assumption |]. now rewrite Hown'.
        -- apply String.eqb_neq in Hk.
           apply Hproto; [assumption | |].
           ++ now rewrite obj_set_proto_other.
           ++ intros Hin. destruct (obj_set_keys_sub _ _ _ _ Hin); congruence.
    + destruct (IH (pushWarning c (tag ++ " objectByKey keyExpr error: " ++ message e)) obj)
        as (Hnd & Hent & Hlink & Hproto).
      split; [exact Hnd |]. split; [| split].
      * intros x Hx. destruct (Hent x Hx); [auto |]. right. now apply list_elem_of_further.
      * destruct Hlink as [Hsame | (r & Hr & Hl)]; [now left |].
        right. exists r. split; [now apply list_elem_of_further | exact Hl].
      * intros Hall. inversion Hall; subst. now apply Hproto.
Qed.


Lemma setLoop_content tag isNA agg mapped (c : Ctx W) (out : list string) :
  let out' := snd (setLoop B H tag isNA agg c mapped out) in
  length out' <= length out + length mapped /\
  (forall entry, entry ∈ out' ->
     entry ∈ out \/
     exists row c0 v v',
       row ∈ mapped /\ setValue B H agg c0 row = Return v /\
       normalizeNA v isNA = Return v' /\
       nullish v' = false /\
       ToString B v' = Return entry /\
       str_trim B entry <> "").
Proof.
  revert c out. induction mapped as [| row rest IH]; intros c out; simpl.
  - split; [lia | auto].
  - destruct (setEntry B H isNA agg c row) as [[s |] | e] eqn:Hentry.
    + destruct (IH c (set_add s out)) as [Hlen Hent].
      pose proof (set_add_length s out).
      split; [lia |].
      intros entry Hin.
      destruct (Hent entry Hin) as [Hold | (r & c0 & v0 & v1 & Hr & Hrest)].
      * apply set_add_elem in Hold. destruct Hold as [-> | Hold]; [| auto].
        right. apply setEntry_some in Hentry.
        destruct Hentry as (v & v' & Hv & Hn & Hnull & Hs & Hne).
        exists row, c, v, v'. split; [apply list_elem_of_here | auto].
      * right. exists r, c0, v0, v1.
        split; [now apply list_elem_of_further | exact Hrest].
    + destruct (IH c out) as [Hlen Hent]. split; [lia |].
      intros entry Hin.
      destruct (Hent entry Hin) as [Hold | (r & c0 & v0 & v1 & Hr & Hrest)]; [auto |].
      right. exists r, c0, v0, v1.
      split; [now apply list_elem_of_further | exact Hrest].
    + destruct (IH (pushWarning c (tag ++ " set valueExpr error: " ++ message e)) out)
        as [Hlen Hent].
      split; [lia |].
      intros entry Hin.
      destruct (Hent entry Hin) as [Hold | (r & c0 & v0 & v1 & Hr & Hrest)]; [auto |].
      right. exists r, c0, v0, v1.
      split; [now apply list_elem_of_further | exact Hrest].
Qed.

(** X9.  The [set] aggregate holds at most one entry per mapped record,
    and every entry is the string form, not blank, of the NA-normalized,
    non-null value that the value expression (or the first own key) gave
    for one of the records. *)
Theorem set_entries_come_from_records tag isNA (agg : AggregateSpec) (c : Ctx W)
  (mapped : list value) :
  let out := snd (setLoop B H tag isNA agg c mapped []) in
  length out <= length mapped /\
  Forall (fun entry =>
            exists row c0 v v',
              row ∈ mapped /\ setValue B H agg c0 row = Return v /\
              normalizeNA v isNA = Return v' /\
              nullish v' = false /\
              ToString B v' = Return entry /\
              str_trim B entry <> "") out.
Proof.
  cbv zeta. destruct (setLoop_content tag isNA agg mapped c []) as [Hlen Hent].
  split; [simpl in Hlen; lia |].
  apply Forall_forall. intros entry Hin.
  destruct (Hent entry Hin) as [Hold | Hnew]; [| exact Hnew].
  now apply elem_of_nil in Hold.
Qed.

End ContentFacts.

(** ** Filter, count and emptiness *)

Section FilterFacts.
Context {W : Type}.
Variable B : Builtins.
Variable H : Host W.

(** The gate of the filter stage on one row in a given context. *)
Definition filterGate (rule : Rule) (c : Ctx W) (row : value) : completion value :=
  evalTyped B H c (or_else (r_filterType rule) (VStr "jsonata")) (r_filter rule) row.

Definition gateKeeps (rule : Rule) (c : Ctx W) (row : value) : bool :=
  match filterGate rule c row with
  | Return keep => truthy keep
  | Throw _ => false
  end.

Lemma filterRows_counts tag rule scope (c : Ctx W) :
  length (snd (filterRows B H tag rule c scope))
  + length (warnings (fst (filterRows B H tag rule c scope)))
  <= length scope + length (warnings c).
Proof.
  revert c. induction scope as [| row rest IH]; intros c; simpl; [lia |].
  destruct (evalTyped B H c _ (r_filter rule) row) as [keep | e].
  - specialize (IH c). destruct (filterRows B H tag rule c rest) as [c' out].
    simpl in *. destruct (truthy keep); simpl; lia.
  - specialize (IH (pushWarning c (tag ++ " filter error on row: " ++ message e))).
    simpl in IH. rewrite length_app in IH. simpl in IH. lia.
Qed.

Lemma filterRows_quiet tag rule scope (c : Ctx W) :
  Forall (fun row => throws (filterGate rule c row) = false) scope ->
  filterRows B H tag rule c scope = (c, List.filter (gateKeeps rule c) scope).
Proof.
  induction scope as [| row rest IH]; simpl; intros Hall; [reflexivity |].
  inversion Hall as [| ? ? Hrow Hrest]; subst.
  unfold gateKeeps, filterGate in *.
  destruct (evalTyped B H c _ (r_filter rule) row) as [keep | e]; [| discriminate].
  rewrite (IH Hrest). now destruct (truthy keep).
Qed.


Lemma filterStage_withMode tag m rule (c : Ctx W) scope :
  filterStage B H tag (withMode m rule) c scope = filterStage B H tag rule c scope.
Proof.
  unfold filterStage. simpl. destruct (truthy (r_filter rule)); [| reflexivity].
  revert c. induction scope as [| row rest IH]; intros c; simpl; [reflexivity |].
  destruct (evalTyped B H c _ (r_filter rule) row); now rewrite IH.
Qed.

Lemma stages_before_aggregate isNA k rule (s : @State W) scope :
  exists c2 mapped,
    forall m,
      runStages B H isNA k (withMode m rule) s scope
      = let '(c3, result) :=
          aggregateStage B H (ruleTag B rule k) isNA (withMode m rule) c2 mapped in
        match setTypedTarget H c3 (outType rule) (outPath B rule k) result with
        | Throw e => Escaped (withCtx s c3) e
        | Return w =>
            Next (emptyHandling (ruleTag B rule k) rule
                    (isEmptyResult (or_else m (VStr "array")) result)
                    (withCtx s (withStores c3 w)))
        end.
Proof.
  destruct (filterStage B H (ruleTag B rule k) rule (ctx s) scope) as [c1 rows] eqn:Hf.
  destruct (mapStage B H (ruleTag B rule k) isNA rule c1 rows) as [c2 mapped] eqn:Hm.
  exists c2, mapped. intros m. unfold runStages.
  change (ruleTag B (withMode m rule) k) with (ruleTag B rule k).
  rewrite filterStage_withMode, Hf.
  change (mapStage B H (ruleTag B rule k) isNA (withMode m rule) c1 rows)
    with (mapStage B H (ruleTag B rule k) isNA rule c1 rows).
  rewrite Hm. reflexivity.
Qed.

(** X11.  For the same select, filter and map stages, the [count]
    aggregate writes the length of the array that the [array] aggregate
    writes, in the same context, and the two results are empty
    together. *)
Theorem count_is_length_of_array isNA k (rule : Rule) (s : @State W)
  (scope : list value) :
  exists c2 mapped,
    runStages B H isNA k (withMode (VStr "array") rule) s scope
    = match setTypedTarget H c2 (outType rule) (outPath B rule k) (VArr mapped) with
      | Throw e => Escaped (withCtx s c2) e
      | Return w =>
          Next (emptyHandling (ruleTag B rule k) rule (Nat.eqb (length mapped) 0)
                  (withCtx s (withStores c2 w)))
      end /\
    runStages B H isNA k (withMode (VStr "count") rule) s scope
    = match setTypedTarget H c2 (outType rule) (outPath B rule k)
              (VNum (num_of_nat (length mapped))) with
      | Throw e => Escaped (withCtx s c2) e
      | Return w =>
          Next (emptyHandling (ruleTag B rule k) rule (Nat.eqb (length mapped) 0)
                  (withCtx s (withStores c2 w)))
      end.
Proof.
  destruct (stages_before_aggregate isNA k rule s scope)
    as (c2 & mapped & Hrun).
  exists c2, mapped. split.
  - rewrite (Hrun (VStr "array")). reflexivity.
  - rewrite (Hrun (VStr "count")). simpl. now destruct mapped.
Qed.

Lemma map_stage_rows_records tag isNA (rule : Rule) (c : Ctx W) (rows : list value) :
  r_map rule <> [] ->
  length (snd (mapStage B H tag isNA rule c rows)) = length rows /\
  Forall (fun r => isObj r = true) (snd (mapStage B H tag isNA rule c rows)).
Proof.
  intros Hmaps. unfold mapStage.
  destruct (r_map rule) as [| m maps]; [contradiction |].
  destruct (mapRows_spec B H tag isNA (m :: maps) rows c) as (_ & Hlen & Hobj).
  now split.
Qed.

(** X12.  With a non-empty map list and an aggregate mode other than
    [set] and [objectByKey], the result of a rule is empty exactly when no
    row passed the filter. *)
Theorem mapped_result_empty_iff_no_rows tag isNA (rule : Rule) (c : Ctx W)
  (rows : list value) :
  r_map rule <> [] ->
  is_str (aggMode rule) "set" = false ->
  is_str (aggMode rule) "objectByKey" = false ->
  let mapped := snd (mapStage B H tag isNA rule c rows) in
  forall c2,
    isEmptyResult (aggMode rule) (snd (aggregateStage B H tag isNA rule c2 mapped)) = true
    <-> rows = [].
Proof.
  intros Hmaps Hset Hobj mapped c2.
  destruct (map_stage_rows_records tag isNA rule c rows Hmaps) as [Hlen Hrec].
  fold mapped in Hlen, Hrec. clearbody mapped.
  assert (Hrows : mapped = [] <-> rows = []).
  { destruct mapped, rows; simpl in Hlen; split; intros; congruence. }
  rewrite <- Hrows. unfold aggregateStage. rewrite Hset, Hobj.
  remember (aggMode rule) as mode eqn:Hmode.
  destruct (is_str mode "array") eqn:Ha.
  { apply is_str_true in Ha. rewrite Ha. unfold isEmptyResult. simpl.
    destruct mapped; simpl; split; intros; congruence. }
  destruct (is_str mode "first") eqn:Hf.
  { apply is_str_true in Hf. rewrite Hf. unfold isEmptyResult. simpl.
    destruct mapped as [| r rest]; [split; reflexivity |].
    inversion Hrec as [| ? ? Hr _]; subst.
    destruct r; try discriminate; simpl; split; intros; congruence. }
  destruct (is_str mode "count") eqn:Hc.
  { apply is_str_true in Hc. rewrite Hc. unfold isEmptyResult. simpl.
    destruct mapped; simpl; split; intros; congruence. }
  simpl. unfold isEmptyResult. rewrite Hc, Hf.
  destruct mapped; simpl; split; intros; congruence.
Qed.

End FilterFacts.

(* ===================================================================== *)
(** * Properties of the watcher registry *)
(* ===================================================================== *)

Section WatcherFacts.
Import ConfigFile.
Context {Hd : Type}.
Variable B : Builtins.
Variable P : Paths.
Variable fsWatch : string -> completion Hd.

Lemma ensureJsonExt_ok (p : value) :
  ensureJsonExt B p = Return tt ->
  exists s, p = VStr s /\ truthy p = true /\ endsWith (str_lower B s) ".json" = true.
Proof.
  unfold ensureJsonExt. destruct p as [| | | | s | | |]; try discriminate.
  destruct (truthy (VStr s)) eqn:Ht; [| discriminate]. simpl.
  destruct (endsWith (str_lower B s) ".json") eqn:He; [| discriminate].
  intros _. now exists s.
Qed.

(** X13.  Both watcher functions keep every count of the registry
    positive: a registered watcher always has at least one holder, and
    [stopWatching] removes (and closes) an entry instead of leaving it
    with a count of zero or less. *)
Theorem watcher_counts_stay_positive (node : Node) (reg : Registry Hd) :
  positiveCounts reg ->
  positiveCounts (startWatchingIfNeeded B P fsWatch node reg) /\
  positiveCounts (stopWatching P node reg).
Proof.
  intros Hpos. split.
  - unfold startWatchingIfNeeded.
    destruct (negb (useConfigFile node) || negb (watchFile node))%bool; [exact Hpos |].
    destruct (ensureJsonExt B (configPath node)); [| exact Hpos].
    destruct (resolveUnderUserDir P (configPath node)) as [abs | e]; [| exact Hpos].
    destruct (watchers reg !! abs) as [info |] eqn:Hl.
    + intros abs' info' Hl'. simpl in Hl'.
      apply lookup_insert_Some in Hl'. destruct Hl' as [[_ <-] | [_ Hl']].
      * simpl. specialize (Hpos abs info Hl). lia.
      * now apply (Hpos abs').
    + destruct (fsWatch abs) as [w | e]; [| exact Hpos].
      intros abs' info' Hl'. simpl in Hl'.
      apply lookup_insert_Some in Hl'. destruct Hl' as [[_ <-] | [_ Hl']].
      * simpl. lia.
      * now apply (Hpos abs').
  - unfold stopWatching.
    destruct (negb (useConfigFile node) || negb (truthy (configPath node)))%bool;
      [exact Hpos |].
    destruct (resolveUnderUserDir P (configPath node)) as [abs | e]; [| exact Hpos].
    destruct (watchers reg !! abs) as [info |] eqn:Hl; [| exact Hpos].
    destruct (Z.leb (count info - 1) 0) eqn:Hle.
    + intros abs' info' Hl'. simpl in Hl'.
      apply lookup_delete_Some in Hl'. destruct Hl' as [_ Hl']. now apply (Hpos abs').
    + intros abs' info' Hl'. simpl in Hl'.
      apply lookup_insert_Some in Hl'. destruct Hl' as [[_ <-] | [_ Hl']].
      * simpl. apply Z.leb_gt in Hle. lia.
      * now apply (Hpos abs').
Qed.

(** X14.  For a node that watches its config file (both flags set, a
    path that passes [ensureJsonExt]), [stopWatching] undoes
    [startWatchingIfNeeded]: on a registry with positive counts the
    watchers after start-then-stop are the watchers before, whether the
    path resolves or not and whether [fs.watch] succeeds or not. *)
Theorem start_then_stop_restores_watchers (node : Node) (reg : Registry Hd) :
  useConfigFile node = true ->
  watchFile node = true ->
  ensureJsonExt B (configPath node) = Return tt ->
  positiveCounts reg ->
  watchers (stopWatching P node (startWatchingIfNeeded B P fsWatch node reg))
  = watchers reg.
Proof.
  intros Huse Hwatch Hext Hpos.
  destruct (ensureJsonExt_ok _ Hext) as (s & Hp & Htruthy & _).
  unfold startWatchingIfNeeded, stopWatching.
  rewrite Huse, Hwatch, Hext, Htruthy. simpl.
  destruct (resolveUnderUserDir P (configPath node)) as [abs | e] eqn:Hres.
  2:{ reflexivity. }
  destruct (watchers reg !! abs) as [info |] eqn:Hl.
  - simpl. rewrite lookup_insert_eq. simpl.
    specialize (Hpos abs info Hl).
    destruct (Z.leb (count info + 1 - 1) 0) eqn:Hle.
    { apply Z.leb_le in Hle. lia. }
    simpl. rewrite insert_insert_eq. apply insert_id. rewrite Hl.
    destruct info as [n w]. simpl. do 2 f_equal. lia.
  - destruct (fsWatch abs) as [w | e].
    + simpl. rewrite lookup_insert_eq. simpl.
      now apply delete_insert_id.
    + now rewrite Hl.
Qed.

(** X15.  [stopWatching] does not look at [watchFile]: a node that uses
    the config file without watching it never registers, yet when it is
    closed it releases the watcher that another node holds on the same
    path.  With one holder the watcher is closed and removed. *)
Theorem stop_of_a_non_watching_node_releases_the_watcher (watching other : Node)
  (reg : Registry Hd) (abs : string) (w : Hd) :
  useConfigFile watching = true -> watchFile watching = true ->
  useConfigFile other = true -> watchFile other = false ->
  configPath other = configPath watching ->
  ensureJsonExt B (configPath watching) = Return tt ->
  resolveUnderUserDir P (configPath watching) = Return abs ->
  watchers reg !! abs = None ->
  fsWatch abs = Return w ->
  let started := startWatchingIfNeeded B P fsWatch watching
                   (startWatchingIfNeeded B P fsWatch other reg) in
  startWatchingIfNeeded B P fsWatch other reg = reg /\
  watchers started !! abs = Some {| count := 1; watcher := w |} /\
  watchers (stopWatching P other started) !! abs = None /\
  closed (stopWatching P other started) = closed reg ++ [w].
Proof.
  intros Huse Hwatch Huse' Hwatch' Hpath Hext Hres Hl Hw started.
  destruct (ensureJsonExt_ok _ Hext) as (s & Hp & Htruthy & _).
  assert (Hother : startWatchingIfNeeded B P fsWatch other reg = reg).
  { unfold startWatchingIfNeeded. now rewrite Huse', Hwatch'. }
  assert (Hstarted : started
                     = {| watchers := <[abs := {| count := 1; watcher := w |}]> (watchers reg);
                          closed := closed reg |}).
  { unfold started. rewrite Hother. unfold startWatchingIfNeeded.
    now rewrite Huse, Hwatch, Hext, Hres, Hl, Hw. }
  split; [exact Hother |].
  split; [rewrite Hstarted; simpl; apply lookup_insert_eq |].
  unfold stopWatching. rewrite Huse', Hpath, Htruthy, Hres, Hstarted. simpl.
  rewrite lookup_insert_eq. simpl.
  split; [apply lookup_delete_eq | reflexivity].
Qed.

End WatcherFacts.

(* ===================================================================== *)
(** * Normalization, first own values, and message tags *)
(* ===================================================================== *)

Section NormalizationFacts.
Variable B : Builtins.

(** X16.  Under an enabled policy normalization throws exactly where
    [String(v)] throws on a value that is not null.  A normalized value
    is never [undefined] and never NA unless it is [null]: it is [null],
    or the original value, which then is not null, has a string form
    that does not trim to the empty string and matches no token.
    Normalizing twice is normalizing once. *)
Theorem normalized_value_is_null_or_not_NA (pol : NAPolicy) (v : value) :
  truthy (na_enabled pol) = true ->
  let isNA := policyIsNA B (Some pol) in
  (throws (normalizeNA v isNA) = true <->
   nullish v = false /\ throws (ToString B v) = true) /\
  (forall v', normalizeNA v isNA = Return v' ->
     v' <> VUndefined /\
     (v' = VNull \/
      (v' = v /\ nullish v = false /\
       exists s, ToString B v = Return s /\ str_trim B s <> "" /\
         forall tok, tok ∈ policyValues pol ->
           str_lower B (str_trim B s) <> str_lower B tok)) /\
     normalizeNA v' isNA = Return v').
Proof.
  intros Hen isNA.
  assert (HisNA : isNA = mkNASet B (Some (policyValues pol))).
  { unfold isNA, policyIsNA. now rewrite Hen. }
  assert (Hnull : isNA VNull = Return true) by now rewrite HisNA.
  unfold normalizeNA.
  destruct (nullish v) eqn:Hn.
  { rewrite HisNA, (mkNASet_nullish B _ v Hn). simpl. rewrite <- HisNA.
    split.
    - split; [discriminate | intros [? _]; discriminate].
    - intros v' [= <-]. split; [discriminate |]. split; [now left |].
      now rewrite Hnull. }
  destruct (ToString B v) as [s | e] eqn:Hs.
  - destruct (mkNASet_spec B (Some (policyValues pol)) v s Hn Hs) as (na & Hna & Hiff).
    rewrite HisNA, Hna. simpl. rewrite <- HisNA. split.
    { split; [destruct na; discriminate | intros [_ ?]; discriminate]. }
    destruct na.
    + intros v' [= <-]. split; [discriminate |]. split; [now left |].
      now rewrite Hnull.
    + assert (Hnot : ~ (str_trim B s = "" \/
                        exists tok, tok ∈ policyValues pol /\
                          str_lower B (str_trim B s) = str_lower B tok)).
      { intros Hx. apply Hiff in Hx. discriminate. }
      intros v' [= <-].
      split; [intros ->; discriminate |].
      split.
      * right. split; [reflexivity |]. split; [reflexivity |].
        exists s. split; [reflexivity |].
        split; [intros Hb; apply Hnot; auto |].
        intros tok Hin Heq. apply Hnot. right. now exists tok.
      * rewrite HisNA, Hna. reflexivity.
  - rewrite HisNA, (mkNASet_throws B _ v e Hn Hs). simpl. split.
    + split; [auto | reflexivity].
    + discriminate.
Qed.

End NormalizationFacts.

Section FirstOwnValueFacts.
Context {W : Type}.
Variable B : Builtins.
Variable H : Host W.

(** X17.  Without a value expression the [set] aggregate takes, per
    record, the value of its first own key: the first property of an
    object, the first element of an array, the first character of a
    text; a number, a boolean, an empty object, array or text give
    [undefined] (and so no entry); a [null] or [undefined] record makes
    [Object.keys] throw, which costs one warning and skips the record. *)
Theorem set_without_valueExpr_takes_first_own_value tag isNA (agg : AggregateSpec)
  (c : Ctx W) (rest : list value) (out : list string) :
  truthy (a_valueExpr agg) = false ->
  (forall k v ps, setValue B H agg c (VObj ((k, v) :: ps)) = Return v) /\
  (forall x items, setValue B H agg c (VArr (x :: items)) = Return x) /\
  (forall a s, setValue B H agg c (VStr (String a s))
               = Return (VStr (String a EmptyString))) /\
  (forall row, row ∈ [VObj []; VArr []; VStr ""] ->
               setValue B H agg c row = Return VUndefined) /\
  (forall n b, setValue B H agg c (VNum n) = Return VUndefined /\
               setValue B H agg c (VBool b) = Return VUndefined) /\
  (forall row, nullish row = true ->
     setLoop B H tag isNA agg c (row :: rest) out
     = setLoop B H tag isNA agg
         (pushWarning c (tag ++ " set valueExpr error: "
                         ++ "Cannot convert undefined or null to object"))
         rest out).
Proof.
  intros Hv. unfold setValue. rewrite Hv.
  split; [| split; [| split; [| split; [| split]]]].
  - intros k v ps. simpl. unfold get_prop. simpl. now rewrite String.eqb_refl.
  - intros x items. simpl. unfold get_prop. simpl. now rewrite String.eqb_refl.
  - intros a s. simpl. unfold get_prop. simpl. now rewrite String.eqb_refl.
  - intros row Hin.
    apply elem_of_cons in Hin as [-> | Hin]; [reflexivity |].
    apply elem_of_cons in Hin as [-> | Hin]; [reflexivity |].
    apply elem_of_cons in Hin as [-> | Hin]; [reflexivity |].
    now apply elem_of_nil in Hin.
  - intros n b. split; reflexivity.
  - intros row Hn. simpl. unfold setEntry, setValue. rewrite Hv. unfold objectKeys.
    now rewrite Hn.
Qed.

End FirstOwnValueFacts.

(** ** Message tags *)

Lemma hasTag_append tag rest : hasTag tag (tag ++ rest).
Proof. now exists rest. Qed.

Lemma warnsTagged_refl {W} tag (c : Ctx W) : warnsTagged tag c c.
Proof.
  repeat split. exists []. split; [now rewrite app_nil_r | constructor].
Qed.

Lemma warnsTagged_trans {W} tag (c1 c2 c3 : Ctx W) :
  warnsTagged tag c1 c2 -> warnsTagged tag c2 c3 -> warnsTagged tag c1 c3.
Proof.
  intros (Hs1 & He1 & ws1 & Hw1 & Ht1) (Hs2 & He2 & ws2 & Hw2 & Ht2).
  split; [congruence |]. split; [congruence |].
  exists (ws1 ++ ws2). split; [rewrite Hw2, Hw1; now rewrite app_assoc |].
  now apply Forall_app.
Qed.

Lemma warnsTagged_push {W} tag (c : Ctx W) rest :
  warnsTagged tag c (pushWarning c (tag ++ rest)).
Proof.
  repeat split. exists [(tag ++ rest)%string]. split; [reflexivity |].
  constructor; [apply hasTag_append | constructor].
Qed.

Section TagFacts.
Context {W : Type}.
Variable B : Builtins.
Variable H : Host W.

Lemma filterStage_tagged tag rule scope (c : Ctx W) :
  warnsTagged tag c (fst (filterStage B H tag rule c scope)).
Proof.
  unfold filterStage. destruct (truthy (r_filter rule)); [| apply warnsTagged_refl].
  revert c. induction scope as [| row rest IH]; intros c; simpl.
  - apply warnsTagged_refl.
  - destruct (evalTyped B H c _ (r_filter rule) row) as [keep | e].
    + specialize (IH c). now destruct (filterRows B H tag rule c rest).
    + eapply warnsTagged_trans; [apply warnsTagged_push | apply IH].
Qed.

Lemma mapField_tagged tag isNA (c : Ctx W) row rec m :
  warnsTagged tag c (fst (mapField B H tag isNA c row rec m)).
Proof.
  assert (Ha : warnsTagged tag c (fst (assignField B H tag isNA c row rec m))).
  { unfold assignField. destruct (fieldValue B H isNA c row m); simpl;
      [apply warnsTagged_refl | apply warnsTagged_push]. }
  unfold mapField. destruct (truthy (m_when m)); [| exact Ha].
  destruct (evalTyped B H c _ (m_when m) row) as [w | e]; simpl;
    [| apply warnsTagged_push].
  destruct (truthy w); [exact Ha | apply warnsTagged_refl].
Qed.

Lemma mapStage_tagged tag isNA rule rows (c : Ctx W) :
  warnsTagged tag c (fst (mapStage B H tag isNA rule c rows)).
Proof.
  unfold mapStage. destruct (r_map rule) as [| m0 maps0]; [apply warnsTagged_refl |].
  generalize (m0 :: maps0). intros maps.
  assert (Hfields : forall fields (c0 : Ctx W) row rec,
            warnsTagged tag c0 (fst (mapFields B H tag isNA c0 row rec fields))).
  { induction fields as [| m rest IH]; intros c0 row rec; simpl.
    - apply warnsTagged_refl.
    - pose proof (mapField_tagged tag isNA c0 row rec m) as Hm.
      destruct (mapField B H tag isNA c0 row rec m) as [c1 rec1].
      eapply warnsTagged_trans; [exact Hm | apply IH]. }
  revert c. induction rows as [| row rest IH]; intros c; simpl.
  - apply warnsTagged_refl.
  - pose proof (Hfields maps c row emptyObject) as Hf.
    destruct (mapFields B H tag isNA c row emptyObject maps) as [c1 rec].
    specialize (IH c1). destruct (mapRows B H tag isNA maps c1 rest) as [c2 out].
    eapply warnsTagged_trans; [exact Hf | exact IH].
Qed.

Lemma aggregateStage_tagged tag isNA rule mapped (c : Ctx W) :
  warnsTagged tag c (fst (aggregateStage B H tag isNA rule c mapped)).
Proof.
  assert (Hobj : forall rows (c0 : Ctx W) obj,
            warnsTagged tag c0 (fst (objectByKey B H tag (r_aggregate rule) c0 rows obj))).
  { induction rows as [| row rest IH]; intros c0 obj; simpl.
    - apply warnsTagged_refl.
    - destruct (keyOf B H (r_aggregate rule) c0 row); [apply IH |].
      eapply warnsTagged_trans; [apply warnsTagged_push | apply IH]. }
  assert (Hset : forall rows (c0 : Ctx W) out,
            warnsTagged tag c0 (fst (setLoop B H tag isNA (r_aggregate rule) c0 rows out))).
  { induction rows as [| row rest IH]; intros c0 out; simpl.
    - apply warnsTagged_refl.
    - destruct (setEntry B H isNA (r_aggregate rule) c0 row); [apply IH |].
      eapply warnsTagged_trans; [apply warnsTagged_push | apply IH]. }
  unfold aggregateStage.
  repeat match goal with
         | |- context [if is_str ?m ?s then _ else _] =>
             destruct (is_str m s); simpl; try apply warnsTagged_refl
         end.
  - specialize (Hobj mapped c emptyObject).
    now destruct (objectByKey B H tag (r_aggregate rule) c mapped emptyObject).
  - specialize (Hset mapped c []).
    now destruct (setLoop B H tag isNA (r_aggregate rule) c mapped []).
Qed.


End TagFacts.

(* ===================================================================== *)
(** * The further properties on the sample host *)
(* ===================================================================== *)

(** X1 on two rules over the empty array, neither with
    [onError = "stop"]. *)
Lemma counters_account_for_executed_rules_witness :
  exists s',
    runRules Sample.builtins Sample.host (fun _ => Return false) (fun _ => VArr []) 0
      (rules twoRulesCfg) (initState emptyDoc) = Finished s' /\
    ruleTotal s' = ruleTotal (initState emptyDoc) + length (rules twoRulesCfg).
Proof.
  eexists. split; [vm_compute; reflexivity |].
  refine (proj2 (proj2 (proj2 (proj2
            (counters_account_for_executed_rules Sample.builtins Sample.host
               (fun _ => Return false) (fun _ => VArr []) 0 (rules twoRulesCfg)
               (initState emptyDoc) _ eq_refl)))) _).
  repeat constructor.
Defined.



(** X4 on a root of one element. *)
Lemma jsonata_without_expression_selects_nothing_witness :
  truthy (r_select bareJsonataRule) = false /\
  runRule Sample.builtins Sample.host (fun _ => Return false) (VArr [Sample.num 1]) 0
    bareJsonataRule (initState emptyDoc)
  = runStages Sample.builtins Sample.host (fun _ => Return false) 0 bareJsonataRule
      (initState emptyDoc) [].
Proof.
  split; [reflexivity |].
  refine (proj2 (jsonata_without_expression_selects_nothing Sample.builtins Sample.host
                   (fun _ => Return false) (VArr [Sample.num 1]) 0 bareJsonataRule
                   (initState emptyDoc) emptyDoc VUndefined VUndefined) _ _);
    reflexivity.
Defined.

(** X5 on the number text ["42"] in two different contexts. *)
Lemma literal_sources_ignore_context_witness :
  evalTyped Sample.builtins Sample.host emptyDoc (VStr "num") (VStr "42") VNull
  = evalTyped Sample.builtins Sample.host (Sample.ctxOf itemsDoc ["w"] [])
      (VStr "num") (VStr "42") (Sample.num 7) /\
  throws (evalTyped Sample.builtins Sample.host emptyDoc (VStr "num") (VStr "42") VNull)
  = false /\
  evalTyped Sample.builtins Sample.host emptyDoc (VStr "json") (VStr "{oops") VNull
  = Return VUndefined.
Proof.
  pose proof (literal_sources_ignore_context Sample.builtins Sample.host Sample.host
                emptyDoc (Sample.ctxOf itemsDoc ["w"] []) (VStr "num") (VStr "42")
                VNull (Sample.num 7)) as (Hlit & _ & _ & _ & Hquiet & Hparse & _).
  split; [| split].
  - apply Hlit. apply list_elem_of_further, list_elem_of_here.
  - apply Hquiet; [| reflexivity | reflexivity].
    apply list_elem_of_further, list_elem_of_here.
  - apply Hparse. reflexivity.
Defined.

(** X6 on a rule without output, at index 3. *)
Lemma output_write_always_reaches_a_store_witness :
  setTypedTarget Sample.host emptyDoc
    (outType (plainRule noAggregate VUndefined VUndefined))
    (outPath Sample.builtins (plainRule noAggregate VUndefined VUndefined) 3)
    (Sample.num 1)
  = setMessageProperty Sample.host emptyDoc (VStr "extract.3") (Sample.num 1).
Proof.
  refine (proj2 (proj2 (output_write_always_reaches_a_store Sample.builtins Sample.host
                          emptyDoc (plainRule noAggregate VUndefined VUndefined) 3
                          (Sample.num 1))) _ _);
    reflexivity.
Defined.


(** X12 on one row mapped to its name, with the default aggregate. *)
Lemma mapped_result_empty_iff_no_rows_witness :
  r_map (itemsRule VUndefined [nameField] noAggregate) <> [] /\
  (isEmptyResult (aggMode (itemsRule VUndefined [nameField] noAggregate))
     (snd (aggregateStage Sample.builtins Sample.host "[rule:0]" (fun _ => Return false)
             (itemsRule VUndefined [nameField] noAggregate) emptyDoc
             (snd (mapStage Sample.builtins Sample.host "[rule:0]" (fun _ => Return false)
                     (itemsRule VUndefined [nameField] noAggregate) emptyDoc
                     [item "alpha" true])))) = true
   <-> [item "alpha" true] = []).
Proof.
  split; [discriminate |].
  refine (mapped_result_empty_iff_no_rows Sample.builtins Sample.host "[rule:0]"
            (fun _ => Return false) (itemsRule VUndefined [nameField] noAggregate) emptyDoc
            [item "alpha" true] _ _ _ emptyDoc).
  - discriminate.
  - reflexivity.
  - reflexivity.
Defined.

Lemma noWatchers_positive : positiveCounts noWatchers.
Proof. intros abs info Hl. simpl in Hl. now rewrite lookup_empty in Hl. Qed.

(** X13 on the empty registry. *)
Lemma watcher_counts_stay_positive_witness :
  positiveCounts noWatchers /\
  positiveCounts
    (ConfigFile.startWatchingIfNeeded Sample.builtins samplePaths sampleWatch
       (fileNode true) noWatchers) /\
  positiveCounts (ConfigFile.stopWatching samplePaths (fileNode true) noWatchers).
Proof.
  split; [exact noWatchers_positive |].
  exact (watcher_counts_stay_positive Sample.builtins samplePaths sampleWatch
           (fileNode true) noWatchers noWatchers_positive).
Defined.

(** X14 on the empty registry. *)
Lemma start_then_stop_restores_watchers_witness :
  ConfigFile.ensureJsonExt Sample.builtins (ConfigFile.configPath (fileNode true))
  = Return tt /\
  ConfigFile.watchers
    (ConfigFile.stopWatching samplePaths (fileNode true)
       (ConfigFile.startWatchingIfNeeded Sample.builtins samplePaths sampleWatch
          (fileNode true) noWatchers))
  = ConfigFile.watchers noWatchers.
Proof.
  split; [reflexivity |].
  exact (start_then_stop_restores_watchers Sample.builtins samplePaths sampleWatch
           (fileNode true) noWatchers eq_refl eq_refl eq_refl noWatchers_positive).
Defined.

(** X15 on the empty registry: the node that does not watch closes the
    watcher of the node that does. *)
Lemma stop_of_a_non_watching_node_releases_the_watcher_witness :
  let started :=
    ConfigFile.startWatchingIfNeeded Sample.builtins samplePaths sampleWatch
      (fileNode true)
      (ConfigFile.startWatchingIfNeeded Sample.builtins samplePaths sampleWatch
         (fileNode false) noWatchers) in
  ConfigFile.watchers (ConfigFile.stopWatching samplePaths (fileNode false) started)
    !! "/data/rules/Main.JSON" = None /\
  ConfigFile.closed (ConfigFile.stopWatching samplePaths (fileNode false) started)
  = [21].
Proof.
  cbv zeta.
  pose proof (stop_of_a_non_watching_node_releases_the_watcher Sample.builtins
                samplePaths sampleWatch (fileNode true) (fileNode false) noWatchers
                "/data/rules/Main.JSON" 21
                eq_refl eq_refl eq_refl eq_refl eq_refl eq_refl eq_refl
                (lookup_empty _) eq_refl) as (_ & _ & Hgone & Hclosed).
  split; [exact Hgone | exact Hclosed].
Defined.

(** X16 under the default policy: the text [" x "] is kept, and
    normalizing it again changes nothing; an object with an own
    [toString] makes the normalization throw. *)
Lemma normalized_value_is_null_or_not_NA_witness :
  let isNA := policyIsNA Sample.builtins (Some defaultPolicy) in
  truthy (na_enabled defaultPolicy) = true /\
  normalizeNA (VStr " x ") isNA = Return (VStr " x ") /\
  normalizeNA (VStr " x ") isNA <> Return VUndefined /\
  throws (normalizeNA ownToString isNA) = true.
Proof.
  cbv zeta.
  pose proof (normalized_value_is_null_or_not_NA Sample.builtins defaultPolicy
                (VStr " x ") eq_refl) as (_ & Hkept).
  pose proof (normalized_value_is_null_or_not_NA Sample.builtins defaultPolicy
                ownToString eq_refl) as (Hthrows & _).
  cbv zeta in Hkept, Hthrows.
  destruct (Hkept (VStr " x ") eq_refl) as (_ & _ & Hagain).
  split; [reflexivity |]. split; [exact Hagain |].
  split; [rewrite Hagain; discriminate |].
  apply Hthrows. split; reflexivity.
Defined.

(** X17 on the text ["abc"]: its first character. *)
Lemma set_without_valueExpr_takes_first_own_value_witness :
  truthy (a_valueExpr noAggregate) = false /\
  setValue Sample.builtins Sample.host noAggregate emptyDoc (VStr "abc")
  = Return (VStr "a").
Proof.
  split; [reflexivity |].
  pose proof (set_without_valueExpr_takes_first_own_value Sample.builtins Sample.host
                "[rule:0]" (fun _ => Return false) noAggregate emptyDoc [] [] eq_refl)
    as (_ & _ & Htext & _).
  exact (Htext "a"%char "bc").
Defined.

(* ===================================================================== *)
(** * Last write wins *)
(* ===================================================================== *)

Lemma find_app_last {A} (p : A -> bool) (l : list A) (x : A) :
  find p (l ++ [x])
  = match find p l with
    | Some y => Some y
    | None => if p x then Some x else None
    end.
Proof.
  induction l as [| a l IH]; simpl; [reflexivity |].
  destruct (p a); [reflexivity | exact IH].
Qed.

Lemma lookup_obj_set k0 k v o :
  k0 <> "__proto__" ->
  lookup_prop k0 (own (obj_set k v o))
  = if String.eqb k k0 then Some v else lookup_prop k0 (own o).
Proof.
  intros Hne. destruct (String.eqb k k0) eqn:Hk.
  - apply String.eqb_eq in Hk. subst k. now apply lookup_obj_set_eq.
  - apply String.eqb_neq in Hk. apply lookup_obj_set_ne. congruence.
Qed.

(** Does a record's key evaluate, and convert, to [k]? *)
Definition keyIs (key : completion string) (k : string) : bool :=
  match key with
  | Return k' => String.eqb k' k
  | Throw _ => false
  end.

(** Filing a record under its key, when it has one. *)
Definition fileUnder (key : completion string) (row : value) (o : object) : object :=
  match key with
  | Return k => obj_set k row o
  | Throw _ => o
  end.

Section LastWriteFacts.
Context {W : Type}.
Variable B : Builtins.
Variable H : Host W.

Lemma objectByKey_quiet tag agg mapped (c : Ctx W) (obj : object) :
  Forall (fun row => throws (keyOf B H agg c row) = false) mapped ->
  objectByKey B H tag agg c mapped obj
  = (c, fold_left (fun o row => fileUnder (keyOf B H agg c row) row o) mapped obj).
Proof.
  revert obj. induction mapped as [| row rest IH]; intros obj Hall; simpl;
    [reflexivity |].
  inversion Hall as [| ? ? Hrow Hrest]; subst.
  destruct (keyOf B H agg c row) as [k | e]; [| discriminate].
  now apply IH.
Qed.

Lemma lookup_fold_obj_set (f : value -> completion string) (k : string)
  (mapped : list value) (obj : object) :
  k <> "__proto__" ->
  lookup_prop k (own (fold_left (fun o row => fileUnder (f row) row o) mapped obj))
  = match find (fun row => keyIs (f row) k) (rev mapped) with
    | Some row => Some row
    | None => lookup_prop k (own obj)
    end.
Proof.
  intros Hne. revert obj. induction mapped as [| row rest IH]; intros obj; simpl;
    [reflexivity |].
  rewrite IH, find_app_last.
  destruct (find (fun r => keyIs (f r) k) (rev rest)); [reflexivity |].
  unfold fileUnder, keyIs. destruct (f row) as [k' | e]; [| reflexivity].
  rewrite lookup_obj_set by assumption.
  now destruct (String.eqb k' k).
Qed.

(** X19.  When no record makes the key expression, or the string
    conversion of its key, throw, the map built by [objectByKey]
    answers, for every key other than [__proto__], with the last mapped
    record that has this key, and with nothing when no record has it;
    the context is left as it was. *)
Theorem objectByKey_last_write_wins tag (agg : AggregateSpec) (c : Ctx W)
  (mapped : list value) (k : string) :
  Forall (fun row => throws (keyOf B H agg c row) = false) mapped ->
  k <> "__proto__" ->
  fst (objectByKey B H tag agg c mapped emptyObject) = c /\
  lookup_prop k (own (snd (objectByKey B H tag agg c mapped emptyObject)))
  = find (fun row => keyIs (keyOf B H agg c row) k) (rev mapped).
Proof.
  intros Hall Hne. rewrite (objectByKey_quiet tag agg mapped c emptyObject Hall). simpl.
  split; [reflexivity |].
  rewrite (lookup_fold_obj_set (keyOf B H agg c) k mapped emptyObject Hne).
  now destruct (find _ (rev mapped)).
Qed.

End LastWriteFacts.

(** X19 on two records with the key [a] and one with the key [b]. *)
Lemma objectByKey_last_write_wins_witness :
  let first := VObj [("id", VStr "a"); ("n", Sample.num 1)] in
  let second := VObj [("id", VStr "b"); ("n", Sample.num 2)] in
  let third := VObj [("id", VStr "a"); ("n", Sample.num 3)] in
  Forall (fun row => throws (keyOf Sample.builtins Sample.host (byKeyPath "id")
                               emptyDoc row) = false)
    [first; second; third] /\
  lookup_prop "a"
    (own (snd (objectByKey Sample.builtins Sample.host "[rule:0]" (byKeyPath "id")
                 emptyDoc [first; second; third] emptyObject)))
  = Some third.
Proof.
  cbv zeta.
  assert (Hquiet :
    Forall (fun row => throws (keyOf Sample.builtins Sample.host (byKeyPath "id")
                                 emptyDoc row) = false)
      [VObj [("id", VStr "a"); ("n", Sample.num 1)];
       VObj [("id", VStr "b"); ("n", Sample.num 2)];
       VObj [("id", VStr "a"); ("n", Sample.num 3)]])
    by (repeat constructor).
  split; [exact Hquiet |].
  refine (proj2 (objectByKey_last_write_wins Sample.builtins Sample.host "[rule:0]"
                   (byKeyPath "id") emptyDoc
                   [VObj [("id", VStr "a"); ("n", Sample.num 1)];
                    VObj [("id", VStr "b"); ("n", Sample.num 2)];
                    VObj [("id", VStr "a"); ("n", Sample.num 3)]] "a" Hquiet _)).
  discriminate.
Defined.

(* ===================================================================== *)
(** * Silent path lookups *)
(* ===================================================================== *)

Section SilentPathFacts.
Context {W : Type}.
Variable B : Builtins.
Variable H : Host W.

(** X20.  A failed [path] lookup is silent.  A source of type [path]
    whose lookup throws resolves the root to [undefined] instead of
    failing the run, and a rule with [selectType = "path"] whose lookup
    throws, or yields null or undefined, runs over no rows and records
    no select error. *)
Theorem failed_path_lookup_is_silent isNA (root : value) k (rule : Rule)
  (s : @State W) (c : Ctx W) (sp : SourceSpec) :
  (is_str (s_type sp) "path" = true ->
   throws (utilGetObjectProperty H c (msgValue H c) (or_else (s_path sp) (VStr ""))) = true ->
   resolveRoot B H c (Some sp) = Return VUndefined) /\
  (is_str (r_selectType rule) "path" = true ->
   (throws (utilGetObjectProperty H (ctx s) root (or_else (r_select rule) (VStr ""))) = true \/
    exists v, utilGetObjectProperty H (ctx s) root (or_else (r_select rule) (VStr ""))
              = Return v /\ nullish v = true) ->
   runRule B H isNA root k rule s = runStages B H isNA k rule s []).
Proof.
  split.
  - intros Hty Hthrow. unfold resolveRoot. apply is_str_true in Hty. rewrite Hty. simpl.
    unfold getObjectProperty.
    now destruct (utilGetObjectProperty H c (msgValue H c) (or_else (s_path sp) (VStr ""))).
  - intros Hty Hlook. unfold runRule, selectScope. apply is_str_true in Hty.
    rewrite Hty. simpl. unfold getObjectProperty.
    destruct Hlook as [Hthrow | [v [Hv Hn]]].
    + now destruct (utilGetObjectProperty H (ctx s) root (or_else (r_select rule) (VStr ""))).
    + rewrite Hv. destruct v; try discriminate; reflexivity.
Qed.

End SilentPathFacts.

(** X20 on a select [a.b] of a root without [a]. *)
Lemma failed_path_lookup_is_silent_witness :
  let pathRule :=
    {| r_name := None; r_selectType := VStr "path"; r_select := VStr "a.b";
       r_filterType := VUndefined; r_filter := VUndefined; r_map := [];
       r_aggregate := noAggregate;
       r_output := {| o_type := VUndefined; o_path := VUndefined |};
       r_onEmpty := VUndefined; r_onError := VUndefined |} in
  runRule Sample.builtins Sample.host (fun _ => Return false) (VObj []) 0 pathRule
    (initState emptyDoc)
  = runStages Sample.builtins Sample.host (fun _ => Return false) 0 pathRule
      (initState emptyDoc) [].
Proof.
  cbv zeta.
  refine (proj2 (failed_path_lookup_is_silent Sample.builtins Sample.host
                   (fun _ => Return false) (VObj []) 0 _ (initState emptyDoc) emptyDoc
                   {| s_type := VStr "path"; s_path := VStr "a.b" |}) _ _).
  - reflexivity.
  - left. reflexivity.
Defined.
